(** * tunnelhook: the per-endpoint relay actor and its clients

    A shallow embedding of
    - [EndpointDO] (the Durable Object holding the WebSocket connections of
      one endpoint),
    - the machine client of the terminal UI ([findOrCreateMachine],
      [forwardWebhookLocally], the monitor's socket handlers), and
    - the viewer hook of the web dashboard ([useViewerWebSocket]),
    followed by the properties that hold of them.

    Conventions.  A JavaScript string is a [string] (a sequence of code
    units, here of one byte each).  [string | null] and optional fields are
    [option string].  A value that went through [JSON.parse] is a [Json];
    [undefined] is [None] in [JsVal].  A text frame on a socket is
    represented by what [JSON.parse] makes of it, and [JSON.stringify] of a
    message by the message itself: the platform's parser inverts its printer
    on the records exchanged here (strings, integers, null). *)

From Stdlib Require Import ZArith String Ascii List.
From stdpp Require Import base list gmap strings pretty.
Import ListNotations.

Local Open Scope string_scope.
Local Open Scope list_scope.

#[local] Set Warnings "-register-all".

(** ** JavaScript values *)

Module Js.

(** Truthiness of a string: only the empty string is falsy. *)
Definition truthy (s : string) : bool :=
  match s with
  | EmptyString => false
  | String _ _ => true
  end.

(** Truthiness of [string | null | undefined]. *)
Definition truthy_opt (o : option string) : bool :=
  match o with
  | Some s => truthy s
  | None => false
  end.

(** [a ?? b] on an optional string. *)
Definition nullish (o : option string) (d : string) : string :=
  match o with
  | Some s => s
  | None => d
  end.

(** What [JSON.parse] returns.  The relay copies numbers and never
    computes with them; they are integers in this protocol (an HTTP
    status, a duration in milliseconds). *)
Inductive Json : Type :=
| JNull
| JBool (b : bool)
| JNum (n : Z)
| JStr (s : string)
| JArr (items : list Json)
| JObj (fields : list (string * Json)).

(** A JavaScript value read out of parsed JSON; [None] is [undefined]. *)
Definition JsVal : Type := option Json.

(** The result of running a piece of code that may throw. *)
Inductive Outcome (A : Type) : Type :=
| Returned (a : A)
| Threw.
Arguments Returned {A} a.
Arguments Threw {A}.

Fixpoint assoc (k : string) (fs : list (string * Json)) : JsVal :=
  match fs with
  | [] => None
  | (k', v) :: fs' => if String.eqb k k' then Some v else assoc k fs'
  end.

(** [v.k] for a protocol field name [k] (none of them is a member of a
    built-in prototype): a [TypeError] on [null], the own property on an
    object, [undefined] on everything else. *)
Definition get_prop (v : Json) (k : string) : Outcome JsVal :=
  match v with
  | JNull => Threw
  | JObj fs => Returned (assoc k fs)
  | _ => Returned None
  end.

(** [v === "s"] for a value read out of parsed JSON. *)
Definition is_string (v : JsVal) (s : string) : bool :=
  match v with
  | Some (JStr s') => String.eqb s' s
  | _ => false
  end.

(** The object literal [{k1: v1, ...}] as [JSON.stringify] prints it and
    [JSON.parse] reads it back: properties that are [undefined] are left
    out. *)
Fixpoint stringify_object (fs : list (string * JsVal)) : list (string * Json) :=
  match fs with
  | [] => []
  | (k, Some v) :: fs' => (k, v) :: stringify_object fs'
  | (_, None) :: fs' => stringify_object fs'
  end.

Definition of_string (s : string) : JsVal := Some (JStr s).

Definition of_nullable (o : option string) : JsVal :=
  match o with
  | Some s => Some (JStr s)
  | None => Some JNull
  end.

Definition of_nullable_num (o : option Z) : JsVal :=
  match o with
  | Some n => Some (JNum n)
  | None => Some JNull
  end.

(** The names every object created by [JSON.parse] inherits from
    [Object.prototype]; reading one of them off a record that has no own
    property of that name yields the inherited member, not [undefined]. *)
Definition object_prototype_members : list string :=
  [ "constructor"; "__proto__"; "hasOwnProperty"; "isPrototypeOf";
    "propertyIsEnumerable"; "toLocaleString"; "toString"; "valueOf";
    "__defineGetter__"; "__defineSetter__"; "__lookupGetter__";
    "__lookupSetter__" ].

Definition inherited (k : string) : bool :=
  existsb (String.eqb k) object_prototype_members.

End Js.
Export Js.

(** ** The relay actor: [EndpointDO] *)

Module EndpointDO.

(** *** Messages *)

Inductive PresenceStatus : Type := online | offline.

Record MachineStatusMessage : Type := {
  ms_machineId : string;
  ms_machineName : string;
  ms_status : PresenceStatus
}.

(** What [payload.deliveries[machineId]] evaluates to when it is not
    [undefined]: the string stored under that key, or a member inherited
    from [Object.prototype]. *)
Inductive DeliveryRef : Type :=
| OwnId (deliveryId : string)
| InheritedMember (name : string).

Record WebhookEventMessage : Type := {
  wh_eventId : string;
  wh_deliveryId : DeliveryRef;
  wh_method : string;
  wh_headers : string;
  wh_body : option string;
  wh_query : option string;
  wh_contentType : option string;
  wh_sourceIp : option string;
  wh_createdAt : string
}.

(** The fields copied from the report are whatever the report held: the
    cast to [ClientDeliveryReport] checks nothing. *)
Record DeliveryResultMessage : Type := {
  dr_eventId : JsVal;
  dr_deliveryId : JsVal;
  dr_machineId : string;
  dr_machineName : string;
  dr_status : JsVal;
  dr_responseStatus : JsVal;
  dr_responseBody : JsVal;
  dr_error : JsVal;
  dr_duration : JsVal
}.

Inductive ServerMessage : Type :=
| Webhook (m : WebhookEventMessage)
| DeliveryResult (m : DeliveryResultMessage)
| MachineStatus (m : MachineStatusMessage).

(** A frame received on a socket: an [ArrayBuffer], or a string, given by
    the outcome of [JSON.parse] on it ([None]: a [SyntaxError]). *)
Inductive Frame : Type :=
| Binary
| Text (parsed : option Json).

(** *** Sockets and the actor's state *)

Record WsAttachment : Type := {
  att_role : string;
  att_machineId : option string;
  att_machineName : option string;
  att_userId : string
}.

(** A server-side socket: its identity, the attachment stored on it, and
    whether the transport still takes a [send]. *)
Record WebSocket : Type := {
  ws_id : nat;
  ws_attachment : option WsAttachment;
  ws_open : bool
}.

(** What the actor does to the outside: a [send] on a socket (with
    whether it went through or threw), and a [close]. *)
Inductive Effect : Type :=
| Send (to : nat) (payload : ServerMessage) (delivered : bool)
| CloseSocket (ws : nat) (code : Z) (reason : string).

(** [sockets] is [this.ctx.getWebSockets()]: the accepted sockets that
    have not been closed, in the order they were accepted. *)
Record DOState : Type := {
  sockets : list WebSocket;
  next_ws : nat;
  effects : list Effect
}.

Definition init : DOState :=
  {| sockets := []; next_ws := 0; effects := [] |}.

(** *** Handlers run in a state-and-exception monad *)

Definition DO (A : Type) : Type := DOState -> Outcome A * DOState.

Definition ret {A} (a : A) : DO A := fun st => (Returned a, st).

Definition throw {A} : DO A := fun st => (Threw, st).

Definition bind {A B} (m : DO A) (k : A -> DO B) : DO B :=
  fun st =>
    match m st with
    | (Returned a, st') => k a st'
    | (Threw, st') => (Threw, st')
    end.

Notation "'let*' x := m 'in' k" := (bind m (fun x => k))
  (at level 10, x name, m at level 100, k at level 200).
Notation "m ;; k" := (bind m (fun _ => k))
  (at level 100, right associativity).

(** [try { m } catch { }] *)
Definition try_catch (m : DO unit) : DO unit :=
  fun st =>
    match m st with
    | (Threw, st') => (Returned tt, st')
    | r => r
    end.

(** [for (const x of xs) { body }]; [continue] is [ret tt]. *)
Fixpoint for_of {X} (xs : list X) (body : X -> DO unit) : DO unit :=
  match xs with
  | [] => ret tt
  | x :: xs' => body x ;; for_of xs' body
  end.

Definition add_effects (st : DOState) (es : list Effect) : DOState :=
  {| sockets := sockets st; next_ws := next_ws st;
     effects := effects st ++ es |}.

Definition emit (e : Effect) : DO unit :=
  fun st => (Returned tt, add_effects st [e]).

(** [ws.send(JSON.stringify(m))]: throws on a dead socket. *)
Definition ws_send (ws : WebSocket) (m : ServerMessage) : DO unit :=
  emit (Send (ws_id ws) m (ws_open ws)) ;;
  if ws_open ws then ret tt else throw.

(** [ws.close(code, reason)]: the socket leaves [getWebSockets()].  The
    platform's check of the close code is not modelled. *)
Definition ws_close (ws : WebSocket) (code : Z) (reason : string) : DO unit :=
  fun st =>
    (Returned tt,
     {| sockets := List.filter (fun s => negb (Nat.eqb (ws_id s) (ws_id ws)))
                               (sockets st);
        next_ws := next_ws st;
        effects := effects st ++ [CloseSocket (ws_id ws) code reason] |}).

(** [new WebSocketPair()], [this.ctx.acceptWebSocket(server)] and
    [server.serializeAttachment(attachment)]. *)
Definition acceptWebSocket (attachment : WsAttachment) : DO WebSocket :=
  fun st =>
    let server := {| ws_id := next_ws st;
                     ws_attachment := Some attachment;
                     ws_open := true |} in
    (Returned server,
     {| sockets := sockets st ++ [server];
        next_ws := S (next_ws st);
        effects := effects st |}).

Definition getWebSockets : DO (list WebSocket) :=
  fun st => (Returned (sockets st), st).

(** *** Helpers *)

Definition has_role (r : string) (ws : WebSocket) : bool :=
  match ws_attachment ws with
  | Some attachment => String.eqb (att_role attachment) r
  | None => false
  end.

Definition getMachineWebSockets : DO (list WebSocket) :=
  let* all := getWebSockets in
  ret (List.filter (has_role "machine") all).

Definition getViewerWebSockets : DO (list WebSocket) :=
  let* all := getWebSockets in
  ret (List.filter (has_role "viewer") all).

Definition broadcastToViewers (message : ServerMessage) : DO unit :=
  let* viewers := getViewerWebSockets in
  for_of viewers (fun ws => try_catch (ws_send ws message)).

Definition broadcastToMachines (message : ServerMessage)
    (except : option WebSocket) : DO unit :=
  let* machines := getMachineWebSockets in
  for_of machines (fun ws =>
    match except with
    | Some e => if Nat.eqb (ws_id ws) (ws_id e) then ret tt
                else try_catch (ws_send ws message)
    | None => try_catch (ws_send ws message)
    end).

(** *** [handleWebSocketUpgrade] *)

Record UpgradeRequest : Type := {
  q_role : option string;
  q_machineId : option string;
  q_machineName : option string;
  q_userId : option string
}.

Record Response : Type := {
  resp_status : Z;
  resp_webSocket : option nat
}.

Definition online_status (machineId machineName : string) : ServerMessage :=
  MachineStatus {| ms_machineId := machineId;
                   ms_machineName := machineName;
                   ms_status := online |}.

Definition offline_status (machineId machineName : string) : ServerMessage :=
  MachineStatus {| ms_machineId := machineId;
                   ms_machineName := machineName;
                   ms_status := offline |}.

Definition handleWebSocketUpgrade (request : UpgradeRequest) : DO Response :=
  let role := q_role request in
  let machineId := q_machineId request in
  let machineName := q_machineName request in
  let userId := nullish (q_userId request) "" in
  if negb (truthy_opt role && truthy userId) then
    ret {| resp_status := 400; resp_webSocket := None |}
  else
    let role := nullish role "" in
    let attachment := {| att_role := role;
                         att_machineId := machineId;
                         att_machineName := machineName;
                         att_userId := userId |} in
    let* server := acceptWebSocket attachment in
    (if String.eqb role "machine" && truthy_opt machineId
        && truthy_opt machineName
     then broadcastToViewers
            (online_status (nullish machineId "") (nullish machineName ""))
     else ret tt) ;;
    (if String.eqb role "viewer" then
       let* machines := getMachineWebSockets in
       for_of machines (fun ws =>
         match ws_attachment ws with
         | Some att =>
             if truthy_opt (att_machineId att)
                && truthy_opt (att_machineName att)
             then ws_send server
                    (online_status (nullish (att_machineId att) "")
                                   (nullish (att_machineName att) ""))
             else ret tt
         | None => ret tt
         end)
     else ret tt) ;;
    ret {| resp_status := 101; resp_webSocket := Some (ws_id server) |}.

(** *** [handleBroadcast] *)

Record BroadcastPayload : Type := {
  bp_body : option string;
  bp_contentType : option string;
  bp_createdAt : string;
  bp_deliveries : gmap string string;
  bp_eventId : string;
  bp_headers : string;
  bp_method : string;
  bp_query : option string;
  bp_sourceIp : option string
}.

(** [deliveries[machineId]] on the parsed record. *)
Definition record_get (deliveries : gmap string string) (k : string)
    : option DeliveryRef :=
  match deliveries !! k with
  | Some v => Some (OwnId v)
  | None => if inherited k then Some (InheritedMember k) else None
  end.

Definition ref_truthy (o : option DeliveryRef) : bool :=
  match o with
  | Some (OwnId v) => truthy v
  | Some (InheritedMember _) => true
  | None => false
  end.

Definition webhook_message (payload : BroadcastPayload)
    (deliveryId : DeliveryRef) : ServerMessage :=
  Webhook {| wh_eventId := bp_eventId payload;
             wh_deliveryId := deliveryId;
             wh_method := bp_method payload;
             wh_headers := bp_headers payload;
             wh_body := bp_body payload;
             wh_query := bp_query payload;
             wh_contentType := bp_contentType payload;
             wh_sourceIp := bp_sourceIp payload;
             wh_createdAt := bp_createdAt payload |}.

(** The result is the [sent] field of the JSON response. *)
Definition handleBroadcast (payload : BroadcastPayload) : DO nat :=
  let* machines := getMachineWebSockets in
  for_of machines (fun ws =>
    match ws_attachment ws with
    | None => throw
    | Some attachment =>
        match att_machineId attachment with
        | None => ret tt
        | Some machineId =>
            if negb (truthy machineId) then ret tt
            else
              match record_get (bp_deliveries payload) machineId with
              | None => ret tt
              | Some deliveryId =>
                  if negb (ref_truthy (Some deliveryId)) then ret tt
                  else try_catch
                         (ws_send ws (webhook_message payload deliveryId))
              end
        end
    end) ;;
  ret (List.length machines).

(** *** [webSocketMessage] *)

(** [parsed.k] once [parsed.type] has been read: [parsed] is not [null]
    there, so the access cannot throw. *)
Definition field (parsed : Json) (k : string) : JsVal :=
  match get_prop parsed k with
  | Returned v => v
  | Threw => None
  end.

Definition delivery_result (attachment : WsAttachment) (parsed : Json)
    : ServerMessage :=
  DeliveryResult
    {| dr_eventId := field parsed "eventId";
       dr_deliveryId := field parsed "deliveryId";
       dr_machineId := nullish (att_machineId attachment) "";
       dr_machineName := nullish (att_machineName attachment) "";
       dr_status := field parsed "status";
       dr_responseStatus := field parsed "responseStatus";
       dr_responseBody := field parsed "responseBody";
       dr_error := field parsed "error";
       dr_duration := field parsed "duration" |}.

Definition webSocketMessage (ws : WebSocket) (message : Frame) : DO unit :=
  match message with
  | Binary => ret tt
  | Text None => ret tt
  | Text (Some parsed) =>
      match get_prop parsed "type" with
      | Threw => throw
      | Returned type =>
          if is_string type "delivery-report" then
            match ws_attachment ws with
            | None => throw
            | Some attachment =>
                let resultMsg := delivery_result attachment parsed in
                broadcastToViewers resultMsg ;;
                broadcastToMachines resultMsg (Some ws)
            end
          else ret tt
      end
  end.

(** *** [webSocketClose] and [webSocketError] *)

Definition announce_offline (ws : WebSocket) : DO unit :=
  match ws_attachment ws with
  | Some attachment =>
      if String.eqb (att_role attachment) "machine"
         && truthy_opt (att_machineId attachment)
      then broadcastToViewers
             (offline_status (nullish (att_machineId attachment) "")
                             (nullish (att_machineName attachment) ""))
      else ret tt
  | None => ret tt
  end.

Definition webSocketClose (ws : WebSocket) (code : Z) (reason : string)
    : DO unit :=
  announce_offline ws ;;
  ws_close ws code reason.

Definition webSocketError (ws : WebSocket) : DO unit :=
  announce_offline ws ;;
  ws_close ws 1011 "WebSocket error".

(** *** [getConnectedMachines] *)

Definition getConnectedMachines : DO (list (string * string)) :=
  let* machines := getMachineWebSockets in
  ret (omap (fun ws =>
         match ws_attachment ws with
         | Some att =>
             if truthy_opt (att_machineId att)
                && truthy_opt (att_machineName att)
             then Some (nullish (att_machineId att) "",
                        nullish (att_machineName att) "")
             else None
         | None => None
         end) machines).

(** *** The actor as a transition system

    The host calls one handler at a time; [Sever] is the transport of
    a socket dying before its close or error callback has run. *)
Inductive Call : Type :=
| Upgrade (request : UpgradeRequest)
| Broadcast (payload : BroadcastPayload)
| Message (ws : WebSocket) (message : Frame)
| Close (ws : WebSocket) (code : Z) (reason : string)
| Error (ws : WebSocket)
| Sever (ws : nat).

Definition sever (id : nat) (st : DOState) : DOState :=
  {| sockets := map (fun s => if Nat.eqb (ws_id s) id
                              then {| ws_id := ws_id s;
                                      ws_attachment := ws_attachment s;
                                      ws_open := false |}
                              else s) (sockets st);
     next_ws := next_ws st;
     effects := effects st |}.

Definition step (st : DOState) (c : Call) : DOState :=
  match c with
  | Upgrade request => snd (handleWebSocketUpgrade request st)
  | Broadcast payload => snd (handleBroadcast payload st)
  | Message ws message => snd (webSocketMessage ws message st)
  | Close ws code reason => snd (webSocketClose ws code reason st)
  | Error ws => snd (webSocketError ws st)
  | Sever id => sever id st
  end.

Definition run (cs : list Call) (st : DOState) : DOState :=
  fold_left step cs st.

(** *** Reading the effects *)

(** The message of [e] when [e] is a send to socket [id] (one that went
    through, when [only_delivered] is set). *)
Definition addressed (only_delivered : bool) (id : nat) (e : Effect)
    : option ServerMessage :=
  match e with
  | Send to payload delivered =>
      if Nat.eqb to id && (delivered || negb only_delivered)
      then Some payload else None
  | CloseSocket _ _ _ => None
  end.

(** The messages that reached socket [id], oldest first. *)
Definition received (id : nat) (es : list Effect) : list ServerMessage :=
  omap (addressed true id) es.

(** The messages the actor tried to send to socket [id]. *)
Definition attempted (id : nat) (es : list Effect) : list ServerMessage :=
  omap (addressed false id) es.

(** Every effect of [es] is a send on socket [ws]. *)
Definition sends_on (ws : WebSocket) (es : list Effect) : Prop :=
  Forall (fun e => exists m d, e = Send (ws_id ws) m d) es.

(** The effects of a loop over the sockets [l] that does [g] on those
    passing [f] and skips the rest. *)
Definition per_socket (f : WebSocket -> bool)
    (g : WebSocket -> list Effect) (l : list WebSocket) : list Effect :=
  concat (map (fun ws => if f ws then g ws else []) l).

Definition is_send (e : Effect) : bool :=
  match e with
  | Send _ _ _ => true
  | CloseSocket _ _ _ => false
  end.

Definition is_online (m : ServerMessage) : bool :=
  match m with
  | MachineStatus s =>
      match ms_status s with online => true | offline => false end
  | _ => false
  end.

Definition is_offline (m : ServerMessage) : bool :=
  match m with
  | MachineStatus s =>
      match ms_status s with offline => true | online => false end
  | _ => false
  end.

(** What a handler added to the effects of [st] in reaching [st']. *)
Definition emitted (st st' : DOState) : list Effect :=
  drop (List.length (effects st)) (effects st').

Definition machines (st : DOState) : list WebSocket :=
  List.filter (has_role "machine") (sockets st).

Definition viewers (st : DOState) : list WebSocket :=
  List.filter (has_role "viewer") (sockets st).

(** One attempt to send [m] on each socket of [l], in order. *)
Definition send_all (m : ServerMessage) (l : list WebSocket) : list Effect :=
  map (fun ws => Send (ws_id ws) m (ws_open ws)) l.

(** The attachment carries a machine id and a machine name, both
    non-empty: the guard of the snapshot loop. *)
Definition named (ws : WebSocket) : bool :=
  match ws_attachment ws with
  | Some att =>
      truthy_opt (att_machineId att) && truthy_opt (att_machineName att)
  | None => false
  end.

Definition snapshot_message (ws : WebSocket) : ServerMessage :=
  match ws_attachment ws with
  | Some att => online_status (nullish (att_machineId att) "")
                              (nullish (att_machineName att) "")
  | None => online_status "" ""
  end.

(** The synthetic presence messages for a viewer joining at [st]. *)
Definition snapshot (st : DOState) : list ServerMessage :=
  map snapshot_message (List.filter named (machines st)).

Definition is_machine_upgrade (c : Call) : bool :=
  match c with
  | Upgrade request => String.eqb (nullish (q_role request) "") "machine"
  | _ => false
  end.

(** Every send of [es] is on a socket below [n]. *)
Definition targets_below (n : nat) (es : list Effect) : Prop :=
  Forall (fun e => match e with
                   | Send to _ _ => to < n
                   | CloseSocket _ _ _ => True
                   end) es.

(** Socket identities are handed out in increasing order: every socket
    and every send so far is below [next_ws]. *)
Definition fresh_above (st : DOState) : Prop :=
  Forall (fun ws => ws_id ws < next_ws st) (sockets st) /\
  targets_below (next_ws st) (effects st).

(** No two sockets of the registry share an identity, and identities are
    fresh. *)
Definition registry_ok (st : DOState) : Prop :=
  List.NoDup (map ws_id (sockets st)) /\ fresh_above st.

(** The states the actor can be in. *)
Definition reachable (st : DOState) : Prop :=
  exists cs, st = run cs init.

(** The fan-out's decision for one machine socket. *)
Definition target (payload : BroadcastPayload) (ws : WebSocket)
    : option DeliveryRef :=
  match ws_attachment ws with
  | Some attachment =>
      match att_machineId attachment with
      | Some machineId =>
          if truthy machineId then
            match record_get (bp_deliveries payload) machineId with
            | Some deliveryId =>
                if ref_truthy (Some deliveryId) then Some deliveryId
                else None
            | None => None
            end
          else None
      | None => None
      end
  | None => None
  end.

(** The machines [broadcastToMachines] sends to: all but [except]. *)
Definition others (except : WebSocket) (l : list WebSocket) : list WebSocket :=
  List.filter (fun ws => negb (Nat.eqb (ws_id ws) (ws_id except))) l.

(** The sends of the fan-out for one machine socket. *)
Definition fanout (payload : BroadcastPayload) (ws : WebSocket)
    : list Effect :=
  match target payload ws with
  | Some deliveryId =>
      [Send (ws_id ws) (webhook_message payload deliveryId) (ws_open ws)]
  | None => []
  end.

(** The socket an accepted upgrade creates, and what the upgrade sends:
    the announcement to the viewers, then the snapshot to the newcomer. *)
Definition accepted_socket (request : UpgradeRequest) (st : DOState)
    : WebSocket :=
  {| ws_id := next_ws st;
     ws_attachment :=
       Some {| att_role := nullish (q_role request) "";
               att_machineId := q_machineId request;
               att_machineName := q_machineName request;
               att_userId := nullish (q_userId request) "" |};
     ws_open := true |}.

Definition upgrade_effects (request : UpgradeRequest) (st : DOState)
    : list Effect :=
  (if String.eqb (nullish (q_role request) "") "machine"
      && truthy_opt (q_machineId request)
      && truthy_opt (q_machineName request)
   then send_all (online_status (nullish (q_machineId request) "")
                                (nullish (q_machineName request) ""))
                 (viewers st)
   else [])
  ++
  (if String.eqb (nullish (q_role request) "") "viewer"
   then map (fun m => Send (next_ws st) m true) (snapshot st)
   else []).

(** What [announce_offline] sends for a socket. *)
Definition offline_effects (ws : WebSocket) (st : DOState) : list Effect :=
  match ws_attachment ws with
  | Some attachment =>
      if String.eqb (att_role attachment) "machine"
         && truthy_opt (att_machineId attachment)
      then send_all (offline_status (nullish (att_machineId attachment) "")
                                    (nullish (att_machineName attachment) ""))
                    (viewers st)
      else []
  | None => []
  end.

(** An effect that is no online presence message to a socket below [n]. *)
Definition quiet_below (n : nat) (e : Effect) : Prop :=
  match e with
  | Send to m _ => to < n -> is_online m = false
  | CloseSocket _ _ _ => True
  end.

(** What one viewer is sent when [announce_offline] runs for [ws]. *)
Definition offline_notice (ws : WebSocket) : list ServerMessage :=
  match ws_attachment ws with
  | Some attachment =>
      if String.eqb (att_role attachment) "machine"
         && truthy_opt (att_machineId attachment)
      then [offline_status (nullish (att_machineId attachment) "")
                           (nullish (att_machineName attachment) "")]
      else []
  | None => []
  end.

End EndpointDO.

(** ** The machine client (terminal UI) *)

Module MachineClient.

Record Machine : Type := {
  m_endpointId : string;
  m_forwardUrl : string;
  m_id : string;
  m_name : string;
  m_status : string
}.

(** *** Machine resolution *)

(** [s.replace(LOCAL_SUFFIX_RE, "")] with [LOCAL_SUFFIX_RE = /\.local$/]. *)
Fixpoint strip_local (s : string) : string :=
  match s with
  | EmptyString => EmptyString
  | String c rest =>
      if String.eqb (String c rest) ".local" then EmptyString
      else String c (strip_local rest)
  end.

Definition getMachineName (hostname : string) : string :=
  strip_local hostname.

(** [\d] *)
Definition is_digit (c : ascii) : bool :=
  (48 <=? nat_of_ascii c)%nat && (nat_of_ascii c <=? 57)%nat.

(** [.] without the [s] flag: any code unit but a line terminator. *)
Definition is_dot (c : ascii) : bool :=
  negb (Ascii.eqb c "010" || Ascii.eqb c "013").

Fixpoint all_digits (s : string) : bool :=
  match s with
  | EmptyString => true
  | String c rest => is_digit c && all_digits rest
  end.

(** [-(\d+)$] on the rest of the name *)
Definition dash_digits (s : string) : bool :=
  match s with
  | String "-" (String d ds) => all_digits (String d ds)
  | _ => false
  end.

(** [MACHINE_NAME_SUFFIX_RE.exec(name)?.[1]] with
    [MACHINE_NAME_SUFFIX_RE = /^(.+)-(\d+)$/]: the first capture group.
    [.+] is greedy, so the longest prefix is tried first and shorter
    ones on backtracking. *)
Fixpoint MACHINE_NAME_SUFFIX_RE (name : string) : option string :=
  match name with
  | EmptyString => None
  | String c rest =>
      if is_dot c then
        match MACHINE_NAME_SUFFIX_RE rest with
        | Some group1 => Some (String c group1)
        | None => if dash_digits rest then Some (String c EmptyString)
                  else None
        end
      else None
  end.

(** Every code unit of [s] is matched by [.]. *)
Fixpoint all_dot (s : string) : bool :=
  match s with
  | EmptyString => true
  | String c rest => is_dot c && all_dot rest
  end.

(** The predicate of [machines.filter(...)]. *)
Definition own_machine (baseName : string) (m : Machine) : bool :=
  if String.eqb (m_name m) baseName then true
  else
    match MACHINE_NAME_SUFFIX_RE (m_name m) with
    | Some group1 => String.eqb group1 baseName
    | None => false
    end.

(** How [findOrCreateMachine] ends: with the record it found, with the
    result of [rpcClient.machines.update], or with the result of
    [registerMachine]; the arguments are those of the call made. *)
Inductive Resolution : Type :=
| Reused (offlineMachine : Machine)
| Updated (id forwardUrl : string)
| Registered (endpointId name forwardUrl : string).

Section Resolver.

(** [hostname()] and [fetchMachines]. *)
Variable hostname : string.
Variable fetchMachines : string -> list Machine.

Definition ownMachines (endpointId baseName : string) : list Machine :=
  List.filter (own_machine baseName) (fetchMachines endpointId).

Definition findOrCreateMachine (endpointId forwardUrl : string)
    (nameOverride : option string) : Resolution :=
  let baseName := nullish nameOverride (getMachineName hostname) in
  let ownMachines := ownMachines endpointId baseName in
  match List.find (fun m => String.eqb (m_status m) "offline")
                  ownMachines with
  | Some offlineMachine =>
      if negb (String.eqb (m_forwardUrl offlineMachine) forwardUrl)
      then Updated (m_id offlineMachine) forwardUrl
      else Reused offlineMachine
  | None =>
      let nextName :=
        if (0 <? List.length ownMachines)%nat
        then baseName +:+ "-" +:+ pretty (List.length ownMachines + 1)%nat
        else baseName in
      Registered endpointId nextName forwardUrl
  end.

End Resolver.

(** *** Local forwarding *)

Record WebhookMessage : Type := {
  whm_body : option string;
  whm_contentType : option string;
  whm_createdAt : string;
  whm_deliveryId : string;
  whm_eventId : string;
  whm_headers : string;
  whm_method : string;
  whm_query : option string;
  whm_sourceIp : option string
}.

Inductive DeliveryStatus : Type := delivered | failed.

Record ForwardResult : Type := {
  fr_duration : Z;
  fr_error : option string;
  fr_responseBody : option string;
  fr_responseStatus : option Z;
  fr_status : DeliveryStatus
}.

(** A thrown value: an [Error] with its message, or anything else. *)
Inductive Thrown : Type :=
| ErrorObject (message : string)
| OtherValue.

Inductive Try (A : Type) : Type :=
| Ok (a : A)
| Raise (e : Thrown).
Arguments Ok {A} a.
Arguments Raise {A} e.

(** A response of [fetch]: its status, and what [res.text()] gives. *)
Record FetchResponse : Type := {
  res_status : Z;
  res_text : Outcome string
}.

(** [res.ok]: the status is in the range 200-299. *)
Definition res_ok (res : FetchResponse) : bool :=
  (200 <=? res_status res)%Z && (res_status res <=? 299)%Z.

(** The body handed to [fetch]: [undefined], [null] or a string. *)
Record RequestInit : Type := {
  ri_method : string;
  ri_headers : list (string * Json);
  ri_body : option (option string)
}.

Fixpoint chars (s : string) : list Json :=
  match s with
  | EmptyString => []
  | String c rest => JStr (String c EmptyString) :: chars rest
  end.

Definition indexed (items : list Json) : list (string * Json) :=
  imap (fun i v => (pretty i, v)) items.

(** [{ ...o }] for an object literal's [o]: the key is overwritten where
    it is, or added at the end. *)
Fixpoint set_prop (k : string) (v : Json) (o : list (string * Json))
    : list (string * Json) :=
  match o with
  | [] => [(k, v)]
  | (k', v') :: o' =>
      if String.eqb k k' then (k, v) :: o' else (k', v') :: set_prop k v o'
  end.

Definition remove_prop (k : string) (o : list (string * Json))
    : list (string * Json) :=
  List.filter (fun kv => negb (String.eqb (fst kv) k)) o.

Section Forwarding.

(** The platform: [JSON.parse] ([None]: a [SyntaxError]),
    [new URL(u).host], [fetch], the two readings of [Date.now()], and
    the message of the [TypeError] for destructuring [null]. *)
Variable JSON_parse : string -> option Json.
Variable url_host : string -> Try string.
Variable fetch : string -> RequestInit -> Try FetchResponse.
Variable startTime endTime : Z.
Variable destructure_null : string.

(** The own enumerable properties that
    [const { host: _host, ...forwardHeaders } = parsedHeaders] spreads. *)
Definition own_enumerable (v : Json) : Try (list (string * Json)) :=
  match v with
  | JNull => Raise (ErrorObject destructure_null)
  | JObj fs => Ok fs
  | JArr items => Ok (indexed items)
  | JStr s => Ok (indexed (chars s))
  | JBool _ | JNum _ => Ok []
  end.

(** The part of [forwardWebhookLocally] inside the outer [try] up to
    the response. *)
Definition send_request (forwardUrl : string) (msg : WebhookMessage)
    : Try FetchResponse :=
  let parsedHeaders :=
    match JSON_parse (whm_headers msg) with
    | Some v => v
    | None => JObj []
    end in
  match own_enumerable parsedHeaders with
  | Raise e => Raise e
  | Ok props =>
      let forwardHeaders := remove_prop "host" props in
      match url_host forwardUrl with
      | Raise e => Raise e
      | Ok host =>
          fetch forwardUrl
            {| ri_method := whm_method msg;
               ri_headers :=
                 set_prop "x-tunnelhook-delivery-id"
                          (JStr (whm_deliveryId msg))
                   (set_prop "x-tunnelhook-event-id"
                             (JStr (whm_eventId msg))
                      (set_prop "host" (JStr host) forwardHeaders));
               ri_body :=
                 if negb (String.eqb (whm_method msg) "GET")
                    && negb (String.eqb (whm_method msg) "HEAD")
                 then Some (whm_body msg)
                 else None |}
      end
  end.

(** [responseBody.slice(0, 10_000)] when longer than that. *)
Definition truncate (responseBody : string) : string :=
  if (10000 <? Z.of_nat (String.length responseBody))%Z
  then substring 0 (Z.to_nat 10000) responseBody
  else responseBody.

Definition forwardWebhookLocally (forwardUrl : string)
    (msg : WebhookMessage) : ForwardResult :=
  match send_request forwardUrl msg with
  | Ok res =>
      let duration := (endTime - startTime)%Z in
      let responseBody :=
        match res_text res with
        | Returned text => Some (truncate text)
        | Threw => None
        end in
      {| fr_status := if res_ok res then delivered else failed;
         fr_responseStatus := Some (res_status res);
         fr_responseBody := responseBody;
         fr_error := None;
         fr_duration := duration |}
  | Raise err =>
      let duration := (endTime - startTime)%Z in
      {| fr_status := failed;
         fr_responseStatus := None;
         fr_responseBody := None;
         fr_error := Some (match err with
                           | ErrorObject message => message
                           | OtherValue => "Unknown error"
                           end);
         fr_duration := duration |}
  end.

End Forwarding.

(** *** The monitor's socket handlers *)

Definition status_string (s : DeliveryStatus) : string :=
  match s with
  | delivered => "delivered"
  | failed => "failed"
  end.

(** The delivery report built in the [then] of the forward: the two ids
    are read off the webhook message, the rest off the result. *)
Definition delivery_report (webhookMsg : Json) (result : ForwardResult)
    : Json :=
  JObj (stringify_object
    [ ("type", of_string "delivery-report");
      ("eventId", EndpointDO.field webhookMsg "eventId");
      ("deliveryId", EndpointDO.field webhookMsg "deliveryId");
      ("status", of_string (status_string (fr_status result)));
      ("responseStatus", of_nullable_num (fr_responseStatus result));
      ("responseBody", of_nullable (fr_responseBody result));
      ("error", of_nullable (fr_error result));
      ("duration", Some (JNum (fr_duration result))) ]).

(** The [message] listener of the monitor, as far as the socket goes:
    the frames it sends back.  [forward] is
    [forwardWebhookLocally(mach.forwardUrl, webhookMsg)] on the parsed
    message (a cast, nothing is checked); [socket_open] is whether
    [ws.send] goes through when the forward has settled. *)
Definition on_message (forward : Json -> ForwardResult) (socket_open : bool)
    (data : EndpointDO.Frame) : Outcome (list EndpointDO.Frame) :=
  match data with
  | EndpointDO.Binary => Returned []
  | EndpointDO.Text None => Returned []
  | EndpointDO.Text (Some parsed) =>
      match get_prop parsed "type" with
      | Threw => Threw
      | Returned type =>
          if is_string type "webhook" then
            let report := delivery_report parsed (forward parsed) in
            Returned (if socket_open
                      then [EndpointDO.Text (Some report)]
                      else [])
          else Returned []
      end
  end.

(** The state the monitor keeps about its connection, and the timers it
    has asked for. *)
Record Monitor : Type := {
  mon_connected : bool;
  mon_wsStatus : string;
  mon_timers : list Z
}.

Definition on_open (m : Monitor) : Monitor :=
  {| mon_connected := true; mon_wsStatus := "connected";
     mon_timers := mon_timers m |}.

Definition on_close (m : Monitor) : Monitor :=
  {| mon_connected := false; mon_wsStatus := "disconnected";
     mon_timers := mon_timers m |}.

Definition on_error (m : Monitor) : Monitor :=
  {| mon_connected := mon_connected m;
     mon_wsStatus := "connection error";
     mon_timers := mon_timers m |}.

End MachineClient.

(** ** The viewer hook (web dashboard): [useViewerWebSocket] *)

Module ViewerClient.

(** [connected], [wsRef.current], and the delays of the timers set with
    [setTimeout] so far, oldest first. *)
Record Hook : Type := {
  connected : bool;
  wsRef : option nat;
  next_socket : nat;
  timers : list Z
}.

Definition mounted : Hook :=
  {| connected := false; wsRef := None; next_socket := 0; timers := [] |}.

(** [connect()] for a defined slug: a new socket is opened. *)
Definition connect (h : Hook) : Hook :=
  {| connected := connected h;
     wsRef := Some (next_socket h);
     next_socket := S (next_socket h);
     timers := timers h |}.

Definition onopen (h : Hook) : Hook :=
  {| connected := true; wsRef := wsRef h;
     next_socket := next_socket h; timers := timers h |}.

Definition onclose (h : Hook) : Hook :=
  {| connected := false; wsRef := None;
     next_socket := next_socket h;
     timers := timers h ++ [3000%Z] |}.

(** [ws.onerror] closes the socket; the close event follows. *)
Definition onerror (h : Hook) : Hook := h.

Inductive Event : Type :=
| Opened
| Closed
| Errored
| TimerFired.

Definition handle (h : Hook) (e : Event) : Hook :=
  match e with
  | Opened => onopen h
  | Closed => onclose h
  | Errored => onerror h
  | TimerFired => connect h
  end.

Definition run (es : list Event) (h : Hook) : Hook :=
  fold_left handle es h.

(** The viewer's reading of a [delivery-result] frame: the two ids it
    files the result under. *)
Definition result_ids (data : EndpointDO.Frame) : option (JsVal * JsVal) :=
  match data with
  | EndpointDO.Text (Some msg) =>
      match get_prop msg "type" with
      | Returned type =>
          if is_string type "delivery-result"
          then Some (EndpointDO.field msg "eventId",
                     EndpointDO.field msg "deliveryId")
          else None
      | Threw => None
      end
  | _ => None
  end.

End ViewerClient.

(** ** Messages on the wire *)

Module Wire.
Import EndpointDO.

(** How [JSON.stringify] prints the value read from the deliveries
    record: a string as itself; an inherited function is left out, the
    inherited prototype object prints as an empty object. *)
Definition delivery_ref (r : DeliveryRef) : JsVal :=
  match r with
  | OwnId s => Some (JStr s)
  | InheritedMember k =>
      if String.eqb k "__proto__" then Some (JObj []) else None
  end.

Definition presence (s : PresenceStatus) : string :=
  match s with
  | online => "online"
  | offline => "offline"
  end.

(** The frame a client receives for [ws.send(JSON.stringify(m))]. *)
Definition stringify (m : ServerMessage) : Frame :=
  Text (Some (JObj (stringify_object
    match m with
    | Webhook w =>
        [ ("type", of_string "webhook");
          ("eventId", of_string (wh_eventId w));
          ("deliveryId", delivery_ref (wh_deliveryId w));
          ("method", of_string (wh_method w));
          ("headers", of_string (wh_headers w));
          ("body", of_nullable (wh_body w));
          ("query", of_nullable (wh_query w));
          ("contentType", of_nullable (wh_contentType w));
          ("sourceIp", of_nullable (wh_sourceIp w));
          ("createdAt", of_string (wh_createdAt w)) ]
    | DeliveryResult d =>
        [ ("type", of_string "delivery-result");
          ("eventId", dr_eventId d);
          ("deliveryId", dr_deliveryId d);
          ("machineId", of_string (dr_machineId d));
          ("machineName", of_string (dr_machineName d));
          ("status", dr_status d);
          ("responseStatus", dr_responseStatus d);
          ("responseBody", dr_responseBody d);
          ("error", dr_error d);
          ("duration", dr_duration d) ]
    | MachineStatus ms =>
        [ ("type", of_string "machine-status");
          ("machineId", of_string (ms_machineId ms));
          ("machineName", of_string (ms_machineName ms));
          ("status", of_string (presence (ms_status ms))) ]
    end))).

End Wire.

(** ** Sample connections and payloads *)

Module Scenario.
Import EndpointDO.

Definition machine_socket (id : nat) (machineId : string)
    (machineName : option string) : WebSocket :=
  {| ws_id := id;
     ws_attachment := Some {| att_role := "machine";
                              att_machineId := Some machineId;
                              att_machineName := machineName;
                              att_userId := "u1" |};
     ws_open := true |}.

Definition viewer_socket (id : nat) : WebSocket :=
  {| ws_id := id;
     ws_attachment := Some {| att_role := "viewer";
                              att_machineId := None;
                              att_machineName := None;
                              att_userId := "u1" |};
     ws_open := true |}.

Definition connect_machine (machineId : string)
    (machineName : option string) : Call :=
  Upgrade {| q_role := Some "machine"; q_machineId := Some machineId;
             q_machineName := machineName; q_userId := Some "u1" |}.

Definition viewer_request : UpgradeRequest :=
  {| q_role := Some "viewer"; q_machineId := None;
     q_machineName := None; q_userId := Some "u1" |}.

Definition payload (deliveries : gmap string string) : BroadcastPayload :=
  {| bp_body := Some "{}";
     bp_contentType := Some "application/json";
     bp_createdAt := "2026-02-19T00:00:00.000Z";
     bp_deliveries := deliveries;
     bp_eventId := "e1";
     bp_headers := "{}";
     bp_method := "POST";
     bp_query := None;
     bp_sourceIp := None |}.

(** One machine, [m1] named [Box], connected. *)
Definition one_machine : DOState :=
  run [connect_machine "m1" (Some "Box")] init.

(** A viewer, then the machine [m1]. *)
Definition viewer_and_machine : DOState :=
  run [Upgrade viewer_request; connect_machine "m1" (Some "Box")] init.

(** A machine that connected without a machine name. *)
Definition unnamed_machine : DOState :=
  run [connect_machine "m1" None] init.

Definition report : Json :=
  JObj [ ("type", JStr "delivery-report"); ("eventId", JStr "e1");
         ("deliveryId", JStr "d1"); ("status", JStr "delivered");
         ("responseStatus", JNum 200) ].

End Scenario.

(** ** The actor's HTTP entry point and what holds of its registry *)

Module Actor.
Import EndpointDO.

(** The body of a request as [handleBroadcast] finds it: [request.json()]
    rejects when there is no body or the body is not JSON; the parsed
    value may have no [deliveries] to index (the member is [undefined] or
    [null], or the value itself is [null] or no object); or it is an
    object with a record of deliveries.  A [deliveries] member of another
    type (a string, a number, an array) is outside this model. *)
Inductive Body : Type :=
| NotJson
| WithoutDeliveries
| Typed (payload : BroadcastPayload).

(** A request as [fetch] reads it: the path and method, the query
    parameters of an upgrade, and the body. *)
Record Request : Type := {
  req_pathname : string;
  req_method : string;
  req_query : UpgradeRequest;
  req_json : Body
}.

Inductive Reply : Type :=
| UpgradeReply (response : Response)
| BroadcastReply (sent : nat)
| NotFound.

Definition reply_status (r : Reply) : Z :=
  match r with
  | UpgradeReply response => resp_status response
  | BroadcastReply _ => 200
  | NotFound => 404
  end.

(** [handleBroadcast] on a parsed body without [deliveries]: the read
    [payload.deliveries[attachment.machineId]] throws a [TypeError] for
    the first machine socket that has a machine id; it is outside the
    [try]. *)
Definition handleBroadcast_without_deliveries : DO nat :=
  let* machines := getMachineWebSockets in
  for_of machines (fun ws =>
    match ws_attachment ws with
    | None => throw
    | Some attachment =>
        match att_machineId attachment with
        | None => ret tt
        | Some machineId =>
            if negb (truthy machineId) then ret tt else throw
        end
    end) ;;
  ret (List.length machines).

(** A machine socket whose attachment has a non-empty machine id. *)
Definition has_machineId (ws : WebSocket) : bool :=
  match ws_attachment ws with
  | Some attachment => truthy_opt (att_machineId attachment)
  | None => false
  end.

Definition fetch (request : Request) : DO Reply :=
  if String.eqb (req_pathname request) "/websocket" then
    let* response := handleWebSocketUpgrade (req_query request) in
    ret (UpgradeReply response)
  else if String.eqb (req_pathname request) "/broadcast"
          && String.eqb (req_method request) "POST" then
    match req_json request with
    | NotJson => throw
    | WithoutDeliveries =>
        let* sent := handleBroadcast_without_deliveries in
        ret (BroadcastReply sent)
    | Typed payload =>
        let* sent := handleBroadcast payload in
        ret (BroadcastReply sent)
    end
  else ret NotFound.

(** The attachment every accepted socket carries: a role and a user id,
    both non-empty. *)
Definition identified (ws : WebSocket) : Prop :=
  exists att, ws_attachment ws = Some att
              /\ truthy (att_role att) = true
              /\ truthy (att_userId att) = true.

(** Every send of [es] is on a socket of [l] or on socket [n]. *)
Definition targets_within (l : list WebSocket) (n : nat) (es : list Effect)
    : Prop :=
  Forall (fun e => match e with
                   | Send to _ _ => In to (map ws_id l) \/ to = n
                   | CloseSocket _ _ _ => True
                   end) es.

Definition sends (es : list Effect) : list Effect :=
  List.filter is_send es.

(** [{ machineId, machineName }] of [getConnectedMachines] as the presence
    message a viewer is sent for it. *)
Definition presence_of (entry : string * string) : ServerMessage :=
  online_status (fst entry) (snd entry).

End Actor.

(** ** The terminal client: command line, screens and the event list *)

Module Tui.
Import MachineClient.

(** *** [parseArgs] *)

(** What [parseArgs] ends with: one of the three commands, or
    [process.exit(1)] after the usage text. *)
Inductive CliArgs : Type :=
| Interactive
| Login
| Listen (slug : string) (forwardUrl : option string)
         (machineName : option string)
| Exit (code : Z).

Definition is_forward_flag (arg : string) : bool :=
  String.eqb arg "--forward" || String.eqb arg "-f".

Definition is_machine_flag (arg : string) : bool :=
  String.eqb arg "--machine" || String.eqb arg "-m".

(** The loop over [args] from index [i]: [rest] is [args.slice(i)]. *)
Fixpoint scan_flags (rest : list string)
    (forwardUrl machineName : option string)
    : option string * option string :=
  match rest with
  | [] => (forwardUrl, machineName)
  | arg :: rest' =>
      match rest' with
      | [] => (forwardUrl, machineName)
      | next :: rest'' =>
          if is_forward_flag arg && truthy next
          then scan_flags rest'' (Some next) machineName
          else if is_machine_flag arg && truthy next
          then scan_flags rest'' forwardUrl (Some next)
          else scan_flags rest' forwardUrl machineName
      end
  end.

(** [args] is [process.argv.slice(2)]. *)
Definition parseArgs (args : list string) : CliArgs :=
  match args with
  | [] => Interactive
  | first :: rest =>
      if String.eqb first "login" then Login
      else
        let '(forwardUrl, machineName) := scan_flags rest None None in
        if negb (truthy_opt forwardUrl) then Exit 1
        else Listen first forwardUrl machineName
  end.

(** [value] stands in [args] right after an argument that is a [flag]. *)
Definition follows (flag : string -> bool) (value : string)
    (args : list string) : Prop :=
  exists before f after,
    args = before ++ f :: value :: after /\ flag f = true.

(** A value the loop has kept is non-empty and follows its flag. *)
Definition found (flag : string -> bool) (value : option string)
    (args : list string) : Prop :=
  forall v, value = Some v -> v <> "" /\ follows flag v args.

(** The branch the bootstrap takes on the parsed arguments. *)
Inductive Mode : Type :=
| LoginCommand
| DirectMode (slug forwardUrl : string) (machineName : option string)
| InteractiveMode
| Exited (code : Z).

Definition bootstrap (cliArgs : CliArgs) : Mode :=
  match cliArgs with
  | Login => LoginCommand
  | Listen slug forwardUrl machineName =>
      if truthy slug && truthy_opt forwardUrl
      then DirectMode slug (nullish forwardUrl "") machineName
      else InteractiveMode
  | Interactive => InteractiveMode
  | Exit code => Exited code
  end.

(** *** [statusColor] *)

Definition COLORS_textDim : string := "#8b949e".
Definition COLORS_green : string := "#3fb950".
Definition COLORS_yellow : string := "#d29922".
Definition COLORS_red : string := "#f85149".

Definition statusColor (status : option Z) : string :=
  match status with
  | None => COLORS_textDim
  | Some status =>
      if (200 <=? status)%Z && (status <? 300)%Z then COLORS_green
      else if (300 <=? status)%Z && (status <? 400)%Z then COLORS_yellow
      else COLORS_red
  end.

(** *** The screens of [App] *)

Inductive Screen : Type :=
| login_screen
| endpoints_screen
| machine_setup_screen
| monitor_screen
| event_detail_screen.

Section Navigation.

(** The records the screens pass around. *)
Variables Endpoint Machine MonitorEvent : Type.

(** The state of [App], and the promises that are under way: the
    session check started on mounting, the [signIn] of the login screen
    (its [loading] flag), and the [registerMachine] calls of the set-up
    screen, whose continuations run whenever the promise settles, also
    after the screen that started them is gone. *)
Record App : Type := {
  app_screen : Screen;
  selectedEndpoint : option Endpoint;
  selectedMachine : option Machine;
  selectedEvent : option MonitorEvent;
  hasDirectMode : bool;
  destroyed : bool;
  sessionPending : bool;
  signingIn : bool;
  pendingRegister : nat
}.

Definition getStartScreen (hasDirectMode : bool) (authCookies : option string)
    : Screen :=
  if hasDirectMode then monitor_screen
  else if truthy_opt authCookies then endpoints_screen
  else login_screen.

Definition mount (initialEndpoint : option Endpoint)
    (initialMachine : option Machine) (authCookies : option string) : App :=
  let direct :=
    match initialEndpoint, initialMachine with
    | Some _, Some _ => true
    | _, _ => false
    end in
  {| app_screen := getStartScreen direct authCookies;
     selectedEndpoint := initialEndpoint;
     selectedMachine := initialMachine;
     selectedEvent := None;
     hasDirectMode := direct;
     destroyed := false;
     sessionPending := negb direct && truthy_opt authCookies;
     signingIn := false;
     pendingRegister := 0 |}.

(** What happens to the application: a key that a screen turns into one
    of its callbacks or into a request, and a promise that settles. *)
Inductive Action : Type :=
| SubmitLogin
| SignedIn (success : bool)
| OnSelectEndpoint (ep : Endpoint)
| SetupBack
| OnConnect (m : Machine)
| SubmitRegister
| Registered (m : option Machine)
| MonitorBack
| OnSelectEvent (evt : MonitorEvent)
| DetailBack
| SessionValidated (valid : bool)
| Quit.

(** The state with some of its parts replaced. *)
Definition select (a : App) (s : Screen) (ep : option Endpoint)
    (m : option Machine) (evt : option MonitorEvent) : App :=
  {| app_screen := s;
     selectedEndpoint := ep;
     selectedMachine := m;
     selectedEvent := evt;
     hasDirectMode := hasDirectMode a;
     destroyed := destroyed a;
     sessionPending := sessionPending a;
     signingIn := signingIn a;
     pendingRegister := pendingRegister a |}.

Definition set_screen (a : App) (s : Screen) : App :=
  select a s (selectedEndpoint a) (selectedMachine a) (selectedEvent a).

Definition quit (a : App) : App :=
  {| app_screen := app_screen a;
     selectedEndpoint := selectedEndpoint a;
     selectedMachine := selectedMachine a;
     selectedEvent := selectedEvent a;
     hasDirectMode := hasDirectMode a;
     destroyed := true;
     sessionPending := sessionPending a;
     signingIn := signingIn a;
     pendingRegister := pendingRegister a |}.

Definition promises (a : App) (session signIn : bool) (register : nat)
    : App :=
  {| app_screen := app_screen a;
     selectedEndpoint := selectedEndpoint a;
     selectedMachine := selectedMachine a;
     selectedEvent := selectedEvent a;
     hasDirectMode := hasDirectMode a;
     destroyed := destroyed a;
     sessionPending := session;
     signingIn := signIn;
     pendingRegister := register |}.

(** Which screen component is rendered: the conditions of the JSX. *)
Definition rendered (a : App) : option Screen :=
  match app_screen a with
  | login_screen => Some login_screen
  | endpoints_screen => Some endpoints_screen
  | machine_setup_screen =>
      match selectedEndpoint a with
      | Some _ => Some machine_setup_screen
      | None => None
      end
  | monitor_screen =>
      match selectedEndpoint a, selectedMachine a with
      | Some _, Some _ => Some monitor_screen
      | _, _ => None
      end
  | event_detail_screen =>
      match selectedEvent a with
      | Some _ => Some event_detail_screen
      | None => None
      end
  end.

(** A key reaches the screen that is rendered; a continuation runs when
    its promise settles, whatever is rendered then. *)
Definition act (a : App) (action : Action) : App :=
  match action with
  | SubmitLogin =>
      match rendered a with
      | Some login_screen =>
          if signingIn a then a
          else promises a (sessionPending a) true (pendingRegister a)
      | _ => a
      end
  | SignedIn success =>
      if signingIn a then
        let a' := promises a (sessionPending a) false (pendingRegister a) in
        if success then set_screen a' endpoints_screen else a'
      else a
  | OnSelectEndpoint ep =>
      match rendered a with
      | Some endpoints_screen =>
          select a machine_setup_screen (Some ep) (selectedMachine a)
                 (selectedEvent a)
      | _ => a
      end
  | SetupBack =>
      match rendered a with
      | Some machine_setup_screen =>
          select a endpoints_screen None (selectedMachine a)
                 (selectedEvent a)
      | _ => a
      end
  | OnConnect m =>
      match rendered a with
      | Some machine_setup_screen =>
          select a monitor_screen (selectedEndpoint a) (Some m)
                 (selectedEvent a)
      | _ => a
      end
  | SubmitRegister =>
      match rendered a with
      | Some machine_setup_screen =>
          promises a (sessionPending a) (signingIn a)
                   (S (pendingRegister a))
      | _ => a
      end
  | Registered result =>
      match pendingRegister a with
      | O => a
      | S n =>
          let a' := promises a (sessionPending a) (signingIn a) n in
          match result with
          | Some m =>
              select a' monitor_screen (selectedEndpoint a') (Some m)
                     (selectedEvent a')
          | None => a'
          end
      end
  | MonitorBack =>
      match rendered a with
      | Some monitor_screen =>
          if hasDirectMode a then quit a
          else select a machine_setup_screen (selectedEndpoint a) None
                      (selectedEvent a)
      | _ => a
      end
  | OnSelectEvent evt =>
      match rendered a with
      | Some monitor_screen =>
          select a event_detail_screen (selectedEndpoint a)
                 (selectedMachine a) (Some evt)
      | _ => a
      end
  | DetailBack =>
      match rendered a with
      | Some event_detail_screen =>
          select a monitor_screen (selectedEndpoint a) (selectedMachine a)
                 None
      | _ => a
      end
  | SessionValidated valid =>
      if sessionPending a then
        set_screen (promises a false (signingIn a) (pendingRegister a))
                   (if valid then endpoints_screen else login_screen)
      else a
  | Quit =>
      match rendered a with
      | Some (endpoints_screen | machine_setup_screen | monitor_screen
              | event_detail_screen) => quit a
      | _ => a
      end
  end.

Definition navigate (actions : list Action) (a : App) : App :=
  fold_left act actions a.

(** What each screen needs of the selections in order to be rendered, and
    to come back from. *)
Definition equipped (a : App) : Prop :=
  match app_screen a with
  | login_screen | endpoints_screen => True
  | machine_setup_screen => is_Some (selectedEndpoint a)
  | monitor_screen =>
      is_Some (selectedEndpoint a) /\ is_Some (selectedMachine a)
  | event_detail_screen =>
      is_Some (selectedEndpoint a) /\ is_Some (selectedMachine a)
      /\ is_Some (selectedEvent a)
  end.

(** What holds of the selections whatever promise settles late: every
    screen but the monitor has what it renders with, the monitor has its
    machine; and in direct mode no promise is under way and the endpoint
    stays selected. *)
Definition settled (a : App) : Prop :=
  match app_screen a with
  | login_screen | endpoints_screen => True
  | machine_setup_screen => is_Some (selectedEndpoint a)
  | monitor_screen => is_Some (selectedMachine a)
  | event_detail_screen =>
      is_Some (selectedMachine a) /\ is_Some (selectedEvent a)
  end
  /\ (hasDirectMode a = true ->
      is_Some (selectedEndpoint a)
      /\ sessionPending a = false /\ signingIn a = false
      /\ pendingRegister a = 0
      /\ (app_screen a = monitor_screen
          \/ app_screen a = event_detail_screen)).

Definition is_submit_register (action : Action) : bool :=
  match action with
  | SubmitRegister => true
  | _ => false
  end.

End Navigation.

Arguments app_screen {Endpoint Machine MonitorEvent}.
Arguments selectedEndpoint {Endpoint Machine MonitorEvent}.
Arguments selectedMachine {Endpoint Machine MonitorEvent}.
Arguments selectedEvent {Endpoint Machine MonitorEvent}.
Arguments hasDirectMode {Endpoint Machine MonitorEvent}.
Arguments destroyed {Endpoint Machine MonitorEvent}.
Arguments sessionPending {Endpoint Machine MonitorEvent}.
Arguments signingIn {Endpoint Machine MonitorEvent}.
Arguments pendingRegister {Endpoint Machine MonitorEvent}.
Arguments mount {Endpoint Machine} MonitorEvent.
Arguments rendered {Endpoint Machine MonitorEvent}.
Arguments act {Endpoint Machine MonitorEvent}.
Arguments navigate {Endpoint Machine MonitorEvent}.
Arguments equipped {Endpoint Machine MonitorEvent}.
Arguments settled {Endpoint Machine MonitorEvent}.
Arguments is_submit_register {Endpoint Machine MonitorEvent}.
Arguments set_screen {Endpoint Machine MonitorEvent}.
Arguments select {Endpoint Machine MonitorEvent}.
Arguments promises {Endpoint Machine MonitorEvent}.
Arguments quit {Endpoint Machine MonitorEvent}.
Arguments SubmitLogin {Endpoint Machine MonitorEvent}.
Arguments SignedIn {Endpoint Machine MonitorEvent}.
Arguments OnSelectEndpoint {Endpoint Machine MonitorEvent}.
Arguments SetupBack {Endpoint Machine MonitorEvent}.
Arguments OnConnect {Endpoint Machine MonitorEvent}.
Arguments SubmitRegister {Endpoint Machine MonitorEvent}.
Arguments Registered {Endpoint Machine MonitorEvent}.
Arguments MonitorBack {Endpoint Machine MonitorEvent}.
Arguments OnSelectEvent {Endpoint Machine MonitorEvent}.
Arguments DetailBack {Endpoint Machine MonitorEvent}.
Arguments SessionValidated {Endpoint Machine MonitorEvent}.
Arguments Quit {Endpoint Machine MonitorEvent}.

(** *** The monitor's list of events *)

(** A delivery result as the clients keep it. *)
Record DeliveryView : Type := {
  dv_deliveryId : string;
  dv_eventId : string;
  dv_machineId : string;
  dv_machineName : string;
  dv_status : DeliveryStatus;
  dv_responseStatus : option Z;
  dv_responseBody : option string;
  dv_error : option string;
  dv_duration : option Z
}.

Record MonitorEvent : Type := {
  me_deliveryId : string;
  me_eventId : string;
  me_event : WebhookMessage;
  me_deliveryResult : option DeliveryView
}.

Definition with_result (e : MonitorEvent) (r : DeliveryView) : MonitorEvent :=
  {| me_deliveryId := me_deliveryId e;
     me_eventId := me_eventId e;
     me_event := me_event e;
     me_deliveryResult := Some r |}.

(** [setEvents((prev) => [monitorEvent, ...prev])] on a webhook message. *)
Definition add_event (webhookMsg : WebhookMessage) (prev : list MonitorEvent)
    : list MonitorEvent :=
  {| me_deliveryId := whm_deliveryId webhookMsg;
     me_eventId := whm_eventId webhookMsg;
     me_event := webhookMsg;
     me_deliveryResult := None |} :: prev.

(** The update once the machine's own forward has settled. *)
Definition own_result (mach : Machine) (webhookMsg : WebhookMessage)
    (result : ForwardResult) : DeliveryView :=
  {| dv_deliveryId := whm_deliveryId webhookMsg;
     dv_eventId := whm_eventId webhookMsg;
     dv_machineId := m_id mach;
     dv_machineName := m_name mach;
     dv_status := fr_status result;
     dv_responseStatus := fr_responseStatus result;
     dv_responseBody := fr_responseBody result;
     dv_error := fr_error result;
     dv_duration := Some (fr_duration result) |}.

Definition set_own_result (mach : Machine) (webhookMsg : WebhookMessage)
    (result : ForwardResult) (prev : list MonitorEvent) : list MonitorEvent :=
  map (fun e =>
         if String.eqb (me_deliveryId e) (whm_deliveryId webhookMsg)
         then with_result e (own_result mach webhookMsg result)
         else e) prev.

(** The update on a [delivery-result] message from the actor. *)
Definition set_other_result (resultMsg : DeliveryView)
    (prev : list MonitorEvent) : list MonitorEvent :=
  map (fun e =>
         if String.eqb (me_eventId e) (dv_eventId resultMsg)
            && negb (match me_deliveryResult e with
                     | Some _ => true
                     | None => false
                     end)
         then with_result e resultMsg
         else e) prev.

(** The colour of an event's status in the list: [statusFg]. *)
Definition statusFg (dr : option DeliveryView) : string :=
  match dr with
  | None => COLORS_yellow
  | Some dr =>
      match dv_status dr with
      | delivered => statusColor (dv_responseStatus dr)
      | failed => COLORS_red
      end
  end.

(** An event of the list, and the two results that can reach it. *)
Definition sample_message : WebhookMessage :=
  {| whm_body := None; whm_contentType := None; whm_createdAt := "";
     whm_deliveryId := "d1"; whm_eventId := "e1"; whm_headers := "{}";
     whm_method := "GET"; whm_query := None; whm_sourceIp := None |}.

Definition sample_machine : Machine :=
  {| m_endpointId := "ep1"; m_forwardUrl := "http://localhost:3000";
     m_id := "m1"; m_name := "Box"; m_status := "online" |}.

Definition sample_result : ForwardResult :=
  {| fr_duration := 5; fr_error := None; fr_responseBody := None;
     fr_responseStatus := Some 204%Z; fr_status := delivered |}.

Definition sample_other : DeliveryView :=
  {| dv_deliveryId := "d2"; dv_eventId := "e1"; dv_machineId := "m2";
     dv_machineName := "Other"; dv_status := failed;
     dv_responseStatus := None; dv_responseBody := None;
     dv_error := Some "refused"; dv_duration := None |}.

Definition sample_event (r : option DeliveryView) : MonitorEvent :=
  {| me_deliveryId := "d1"; me_eventId := "e1";
     me_event := sample_message; me_deliveryResult := r |}.

End Tui.

(** ** The dashboard: what the viewer hook keeps of the messages *)

Module Dashboard.
Import EndpointDO.

(** [a === b], which is also how a [Map] and a [Set] compare keys, for
    two values read out of the JSON of different frames: primitives are
    compared by value; an object or an array is only equal to itself, and
    no two frames share one. *)
Definition same_value (a b : JsVal) : bool :=
  match a, b with
  | None, None => true
  | Some JNull, Some JNull => true
  | Some (JBool x), Some (JBool y) => Bool.eqb x y
  | Some (JNum x), Some (JNum y) => Z.eqb x y
  | Some (JStr x), Some (JStr y) => String.eqb x y
  | _, _ => false
  end.

(** A [Map] in insertion order: [get], and [set], which overwrites the
    value of a key that is there and appends a key that is not. *)
Fixpoint map_get {V : Type} (m : list (JsVal * V)) (k : JsVal) : option V :=
  match m with
  | [] => None
  | (k', v) :: m' => if same_value k' k then Some v else map_get m' k
  end.

Fixpoint map_set {V : Type} (m : list (JsVal * V)) (k : JsVal) (v : V)
    : list (JsVal * V) :=
  match m with
  | [] => [(k, v)]
  | (k', v') :: m' =>
      if same_value k' k then (k', v) :: m' else (k', v') :: map_set m' k v
  end.

Fixpoint findIndex {A : Type} (f : A -> bool) (l : list A) : option nat :=
  match l with
  | [] => None
  | x :: l' => if f x then Some 0 else option_map S (findIndex f l')
  end.

Record WebhookEvent : Type := {
  ev_id : JsVal;
  ev_endpointId : string;
  ev_method : JsVal;
  ev_headers : JsVal;
  ev_body : JsVal;
  ev_query : JsVal;
  ev_sourceIp : JsVal;
  ev_contentType : JsVal;
  ev_createdAt : JsVal
}.

Record DeliveryResult : Type := {
  dl_deliveryId : JsVal;
  dl_eventId : JsVal;
  dl_machineId : JsVal;
  dl_machineName : JsVal;
  dl_status : JsVal;
  dl_responseStatus : JsVal;
  dl_responseBody : JsVal;
  dl_error : JsVal;
  dl_duration : JsVal
}.

Record ConnectedMachine : Type := {
  cm_machineId : JsVal;
  cm_machineName : JsVal;
  cm_online : bool
}.

(** The three pieces of state the hook builds from the messages. *)
Record View : Type := {
  events : list WebhookEvent;
  deliveries : list (JsVal * list DeliveryResult);
  machines : list (JsVal * ConnectedMachine)
}.

Definition empty_view : View :=
  {| events := []; deliveries := []; machines := [] |}.

Definition webhook_event (endpointId : string) (msg : Json) : WebhookEvent :=
  {| ev_id := field msg "eventId";
     ev_endpointId := endpointId;
     ev_method := field msg "method";
     ev_headers := field msg "headers";
     ev_body := field msg "body";
     ev_query := field msg "query";
     ev_sourceIp := field msg "sourceIp";
     ev_contentType := field msg "contentType";
     ev_createdAt := field msg "createdAt" |}.

Definition delivery_of (msg : Json) : DeliveryResult :=
  {| dl_deliveryId := field msg "deliveryId";
     dl_eventId := field msg "eventId";
     dl_machineId := field msg "machineId";
     dl_machineName := field msg "machineName";
     dl_status := field msg "status";
     dl_responseStatus := field msg "responseStatus";
     dl_responseBody := field msg "responseBody";
     dl_error := field msg "error";
     dl_duration := field msg "duration" |}.

(** [existing[idx] = result] when a result with the delivery id is
    there, [existing.push(result)] when not. *)
Definition upsert (result : DeliveryResult) (existing : list DeliveryResult)
    : list DeliveryResult :=
  match findIndex (fun d => same_value (dl_deliveryId d)
                                       (dl_deliveryId result)) existing with
  | Some idx => <[idx := result]> existing
  | None => existing ++ [result]
  end.

(** The updater of [setDeliveries]: the map it returns.  (The array of
    the previous map is updated in place before it is copied.) *)
Definition setDeliveries (result : DeliveryResult)
    (prev : list (JsVal * list DeliveryResult))
    : list (JsVal * list DeliveryResult) :=
  let existing :=
    match map_get prev (dl_eventId result) with
    | Some existing => existing
    | None => []
    end in
  map_set prev (dl_eventId result) (upsert result existing).

(** The updater of [setMachines]. *)
Definition setMachines (msg : Json) (prev : list (JsVal * ConnectedMachine))
    : list (JsVal * ConnectedMachine) :=
  if is_string (field msg "status") "online" then
    map_set prev (field msg "machineId")
      {| cm_machineId := field msg "machineId";
         cm_machineName := field msg "machineName";
         cm_online := true |}
  else
    match map_get prev (field msg "machineId") with
    | Some existing =>
        map_set prev (field msg "machineId")
          {| cm_machineId := cm_machineId existing;
             cm_machineName := cm_machineName existing;
             cm_online := false |}
    | None => prev
    end.

(** [ws.onmessage]: a frame that does not parse, and the text [null],
    end in the [catch]. *)
Definition onmessage (endpointId : string) (paused : bool) (v : View)
    (data : Frame) : View :=
  match data with
  | Binary | Text None => v
  | Text (Some msg) =>
      match get_prop msg "type" with
      | Threw => v
      | Returned type =>
          let v1 :=
            if is_string type "webhook" && negb paused
            then {| events := webhook_event endpointId msg :: events v;
                    deliveries := deliveries v;
                    machines := machines v |}
            else v in
          let v2 :=
            if is_string type "delivery-result"
            then {| events := events v1;
                    deliveries := setDeliveries (delivery_of msg)
                                                (deliveries v1);
                    machines := machines v1 |}
            else v1 in
          if is_string type "machine-status"
          then {| events := events v2;
                  deliveries := deliveries v2;
                  machines := setMachines msg (machines v2) |}
          else v2
      end
  end.

(** The view after the frames [frames], oldest first. *)
Definition receive (endpointId : string) (paused : bool)
    (frames : list Frame) (v : View) : View :=
  fold_left (onmessage endpointId paused) frames v.

(** What the page shows for a delivery of an event. *)
Definition shown (ds : list (JsVal * list DeliveryResult))
    (eventId deliveryId : JsVal) : option DeliveryResult :=
  match map_get ds eventId with
  | Some results =>
      List.find (fun d => same_value (dl_deliveryId d) deliveryId) results
  | None => None
  end.

(** The delivery result a frame carries when it is a [delivery-result]
    message. *)
Definition result_in (data : Frame) : option DeliveryResult :=
  match data with
  | Text (Some msg) =>
      match get_prop msg "type" with
      | Returned type =>
          if is_string type "delivery-result" then Some (delivery_of msg)
          else None
      | Threw => None
      end
  | _ => None
  end.

(** *** [useMergedEvents] *)

(** [createdAt] of a stored event: a [Date], given by its ISO string, or
    a string. *)
Inductive Timestamp : Type :=
| DateObject (iso : string)
| DateString (s : string).

Record HistoricalItem : Type := {
  h_body : option string;
  h_contentType : option string;
  h_createdAt : Timestamp;
  h_endpointId : string;
  h_headers : string;
  h_id : string;
  h_method : string;
  h_query : option string;
  h_sourceIp : option string
}.

Definition of_historical (ev : HistoricalItem) : WebhookEvent :=
  {| ev_id := of_string (h_id ev);
     ev_endpointId := h_endpointId ev;
     ev_method := of_string (h_method ev);
     ev_headers := of_string (h_headers ev);
     ev_body := of_nullable (h_body ev);
     ev_query := of_nullable (h_query ev);
     ev_sourceIp := of_nullable (h_sourceIp ev);
     ev_contentType := of_nullable (h_contentType ev);
     ev_createdAt := of_string (match h_createdAt ev with
                                | DateObject iso => iso
                                | DateString s => s
                                end) |}.

(** One of the two loops: [seen] and [merged] are threaded through. *)
Fixpoint push_unseen {A : Type} (key : A -> JsVal) (conv : A -> WebhookEvent)
    (items : list A) (state : list JsVal * list WebhookEvent)
    : list JsVal * list WebhookEvent :=
  match items with
  | [] => state
  | ev :: items' =>
      if existsb (same_value (key ev)) (fst state)
      then push_unseen key conv items' state
      else push_unseen key conv items'
             (fst state ++ [key ev], snd state ++ [conv ev])
  end.

Definition useMergedEvents (liveEvents : list WebhookEvent)
    (historicalItems : list HistoricalItem) : list WebhookEvent :=
  snd (push_unseen (fun ev => of_string (h_id ev)) of_historical
         historicalItems
         (push_unseen ev_id (fun ev => ev) liveEvents ([], []))).

(** The merge as its comment words it: of the live events followed by
    the stored ones, those whose id no earlier event has; [earlier] are
    the events before [l]. *)
Fixpoint first_occurrences (earlier l : list WebhookEvent)
    : list WebhookEvent :=
  match l with
  | [] => []
  | ev :: l' =>
      if existsb (fun ev' => same_value (ev_id ev') (ev_id ev)) earlier
      then first_occurrences (earlier ++ [ev]) l'
      else ev :: first_occurrences (earlier ++ [ev]) l'
  end.

(** No two events of the list have the same id. *)
Fixpoint distinct_ids (l : list WebhookEvent) : bool :=
  match l with
  | [] => true
  | ev :: l' =>
      negb (existsb (fun ev' => same_value (ev_id ev) (ev_id ev')) l')
      && distinct_ids l'
  end.

(** Every webhook message in the effects so far was sent on a socket
    that, if it is still registered, is a machine's. *)
Definition webhooks_to_machines (st : DOState) : Prop :=
  forall to w delivered ws,
    In (Send to (Webhook w) delivered) (effects st) ->
    In ws (sockets st) -> ws_id ws = to ->
    has_role "machine" ws = true.

End Dashboard.

(** ** The worker in front of the actor: fan-out and upgrade *)

Module Worker.
Import EndpointDO.

(** Rows of the tables, with the columns the worker reads. *)
Record EndpointRow : Type := {
  ep_id : string;
  ep_slug : string;
  ep_userId : string;
  ep_enabled : bool;
  ep_forwardUrl : option string
}.

Record MachineRow : Type := {
  mr_id : string;
  mr_name : string;
  mr_endpointId : string;
  mr_userId : string;
  mr_forwardUrl : string;
  mr_status : string;
  mr_lastSeenAt : option Z
}.

Record DeliveryRow : Type := {
  del_id : string;
  del_eventId : string;
  del_machineId : string;
  del_status : string
}.

Record BroadcastParams : Type := {
  p_body : option string;
  p_contentType : option string;
  p_createdAt : string;
  p_endpointId : string;
  p_eventId : string;
  p_headers : string;
  p_method : string;
  p_query : option string;
  p_sourceIp : option string
}.

(** A request to the actor that has no query. *)
Definition no_query : UpgradeRequest :=
  {| q_role := None; q_machineId := None; q_machineName := None;
     q_userId := None |}.

(** [o[k] = v] on an object literal, for a string [v]: an own property,
    except under [__proto__], where the assignment of a string does
    nothing. *)
Definition assign (o : gmap string string) (k v : string)
    : gmap string string :=
  if String.eqb k "__proto__" then o else <[k := v]> o.

Section Broadcast.

(** [crypto.randomUUID()], by the number of calls made before, and the
    machine table. *)
Variable randomUUID : nat -> string.
Variable machineTable : list MachineRow.

Definition findMany (endpointId : string) : list MachineRow :=
  List.filter (fun m => String.eqb (mr_endpointId m) endpointId) machineTable.

(** [machines.map((m) => ({ id: crypto.randomUUID(), machineId: m.id }))] *)
Fixpoint deliveryRecords (calls : nat) (machines : list MachineRow)
    : list (string * string) :=
  match machines with
  | [] => []
  | m :: machines' =>
      (randomUUID calls, mr_id m) :: deliveryRecords (S calls) machines'
  end.

Definition deliveriesMap (records : list (string * string))
    : gmap string string :=
  fold_left (fun o d => assign o (snd d) (fst d)) records ∅.

(** [broadcastToMachines]: the rows inserted into the delivery table and
    the request made to the actor, if any. *)
Definition broadcastToMachines (calls : nat) (params : BroadcastParams)
    : list DeliveryRow * option Actor.Request :=
  let machines := findMany (p_endpointId params) in
  if Nat.eqb (List.length machines) 0 then ([], None)
  else
    let records := deliveryRecords calls machines in
    (map (fun d => {| del_id := fst d;
                      del_eventId := p_eventId params;
                      del_machineId := snd d;
                      del_status := "pending" |}) records,
     Some {| Actor.req_pathname := "/broadcast";
             Actor.req_method := "POST";
             Actor.req_query := no_query;
             Actor.req_json :=
               Actor.Typed
                 {| bp_body := p_body params;
                    bp_contentType := p_contentType params;
                    bp_createdAt := p_createdAt params;
                    bp_deliveries := deliveriesMap records;
                    bp_eventId := p_eventId params;
                    bp_headers := p_headers params;
                    bp_method := p_method params;
                    bp_query := p_query params;
                    bp_sourceIp := p_sourceIp params |} |}).

End Broadcast.

(** *** [handleWebSocketUpgrade] *)

(** How the upgrade ends: with an error response of the worker, or with
    the actor's response to the request passed on, after the machine
    named has been marked online. *)
Inductive UpgradeOutcome : Type :=
| Refused (status : Z) (error : string)
| PassedOn (markedOnline : option string) (request : Actor.Request).

Section Upgrade.

Variable endpointTable : list EndpointRow.
Variable machineTable : list MachineRow.

(** [session] is the id of [session.user] when there is one. *)
Definition handleWebSocketUpgrade (slug : string) (session : option string)
    (role machineId machineName : option string) : UpgradeOutcome :=
  match List.find (fun ep => String.eqb (ep_slug ep) slug) endpointTable with
  | None => Refused 404 "Endpoint not found"
  | Some ep =>
      match session with
      | None => Refused 401 "Unauthorized"
      | Some userId =>
          if negb (String.eqb (ep_userId ep) userId)
          then Refused 403 "Forbidden"
          else
            let pass (role : string) (machineId machineName : option string)
                     (markedOnline : option string) :=
              PassedOn markedOnline
                {| Actor.req_pathname := "/websocket";
                   Actor.req_method := "GET";
                   Actor.req_query :=
                     {| q_role := Some role;
                        q_machineId :=
                          if truthy_opt machineId then machineId else None;
                        q_machineName :=
                          if truthy_opt machineName then machineName
                          else None;
                        q_userId := Some userId |};
                   Actor.req_json := Actor.NotJson |} in
            match role with
            | Some role =>
                if String.eqb role "machine" then
                  if negb (truthy_opt machineId)
                  then Refused 400 "machineId is required for machine role"
                  else
                    match List.find
                            (fun m =>
                               String.eqb (mr_id m) (nullish machineId "")
                               && String.eqb (mr_endpointId m) (ep_id ep)
                               && String.eqb (mr_userId m) userId)
                            machineTable with
                    | None => Refused 404 "Machine not found"
                    | Some m =>
                        pass role machineId
                             (Some (nullish machineName (mr_name m)))
                             machineId
                    end
                else if String.eqb role "viewer" then pass role None None None
                else Refused 400 "Missing or invalid role query parameter"
            | None => Refused 400 "Missing or invalid role query parameter"
            end
      end
  end.

End Upgrade.

(** [db.update(machine).set({ status: "online", lastSeenAt: new Date() })
    .where(eq(machine.id, machineId))] *)
Definition markOnline (now : Z) (machineId : string)
    (machineTable : list MachineRow) : list MachineRow :=
  map (fun m => if String.eqb (mr_id m) machineId
                then {| mr_id := mr_id m; mr_name := mr_name m;
                        mr_endpointId := mr_endpointId m;
                        mr_userId := mr_userId m;
                        mr_forwardUrl := mr_forwardUrl m;
                        mr_status := "online";
                        mr_lastSeenAt := Some now |}
                else m) machineTable.

(** The machine table after the worker's upgrade. *)
Definition after_upgrade (now : Z) (outcome : UpgradeOutcome)
    (machineTable : list MachineRow) : list MachineRow :=
  match outcome with
  | PassedOn (Some machineId) _ => markOnline now machineId machineTable
  | _ => machineTable
  end.

(** The actor after the worker's upgrade, when it passes the request
    on. *)
Definition upgraded (outcome : UpgradeOutcome) (st : DOState)
    : option (Outcome Actor.Reply * DOState) :=
  match outcome with
  | Refused _ _ => None
  | PassedOn _ request => Some (Actor.fetch request st)
  end.

(** A sample machine table and fan-out. *)
Definition sample_table : list MachineRow :=
  [ {| mr_id := "m1"; mr_name := "Box"; mr_endpointId := "ep1";
       mr_userId := "u1"; mr_forwardUrl := "http://localhost:3000";
       mr_status := "online"; mr_lastSeenAt := Some 0%Z |} ].

Definition sample_endpoints : list EndpointRow :=
  [ {| ep_id := "ep1"; ep_slug := "hook"; ep_userId := "u1";
       ep_enabled := true; ep_forwardUrl := None |} ].

Definition sample_params : BroadcastParams :=
  {| p_body := Some "{}"; p_contentType := Some "application/json";
     p_createdAt := "2026-02-19T00:00:00.000Z"; p_endpointId := "ep1";
     p_eventId := "e1"; p_headers := "{}"; p_method := "POST";
     p_query := None; p_sourceIp := None |}.

End Worker.

(** ** The machine router, and who writes the machine table *)

Module Router.
Import MachineClient Worker.

(** How a procedure ends: with its result, with an [ORPCError], with a
    rejected input, or with an error of the database layer. *)
Inductive Rpc (A : Type) : Type :=
| Done (a : A)
| NOT_FOUND
| BAD_REQUEST
| DbError.
Arguments Done {A} a.
Arguments NOT_FOUND {A}.
Arguments BAD_REQUEST {A}.
Arguments DbError {A}.

(** [z.string().min(1).max(100)] *)
Definition valid_name (name : string) : bool :=
  (1 <=? String.length name)%nat && (String.length name <=? 100)%nat.

Definition optional {A : Type} (check : A -> bool) (o : option A) : bool :=
  match o with
  | Some a => check a
  | None => true
  end.

Definition findFirst {A : Type} (key : A -> string) (id : string)
    (table : list A) : option A :=
  List.find (fun row => String.eqb (key row) id) table.

Section MachineRouter.

(** [z.url()]; what [set({})] ends with (it touches no row); and the
    endpoint table. *)
Variable is_url : string -> bool.
Variable noValues : Rpc (option MachineRow).
Variable endpointTable : list EndpointRow.

Definition owns (userId endpointId : string) : bool :=
  match findFirst ep_id endpointId endpointTable with
  | Some ep => String.eqb (ep_userId ep) userId
  | None => false
  end.

(** [register]; [id] is what [crypto.randomUUID()] returned, and the
    insert of an id that is there violates the primary key. *)
Definition register (userId endpointId name forwardUrl id : string)
    (machineTable : list MachineRow)
    : Rpc (option MachineRow) * list MachineRow :=
  if negb (valid_name name && is_url forwardUrl)
  then (BAD_REQUEST, machineTable)
  else if negb (owns userId endpointId) then (NOT_FOUND, machineTable)
  else if existsb (fun m => String.eqb (mr_id m) id) machineTable
  then (DbError, machineTable)
  else
    let machineTable' :=
      machineTable ++ [ {| mr_id := id; mr_name := name;
                           mr_endpointId := endpointId;
                           mr_userId := userId;
                           mr_forwardUrl := forwardUrl;
                           mr_status := "offline";
                           mr_lastSeenAt := None |} ] in
    (Done (findFirst mr_id id machineTable'), machineTable').

Definition listMachines (userId endpointId : string)
    (machineTable : list MachineRow) : Rpc (list MachineRow) :=
  if negb (owns userId endpointId) then NOT_FOUND
  else Done (findMany machineTable endpointId).

Definition get (userId id : string) (machineTable : list MachineRow)
    : Rpc MachineRow :=
  match findFirst mr_id id machineTable with
  | Some result =>
      if negb (String.eqb (mr_userId result) userId) then NOT_FOUND
      else Done result
  | None => NOT_FOUND
  end.

Definition update (userId id : string) (name forwardUrl : option string)
    (machineTable : list MachineRow)
    : Rpc (option MachineRow) * list MachineRow :=
  if negb (optional valid_name name && optional is_url forwardUrl)
  then (BAD_REQUEST, machineTable)
  else
    match findFirst mr_id id machineTable with
    | Some existing =>
        if negb (String.eqb (mr_userId existing) userId)
        then (NOT_FOUND, machineTable)
        else
          match name, forwardUrl with
          | None, None => (noValues, machineTable)
          | _, _ =>
              let machineTable' :=
                map (fun m =>
                       if String.eqb (mr_id m) id
                       then {| mr_id := mr_id m;
                               mr_name := nullish name (mr_name m);
                               mr_endpointId := mr_endpointId m;
                               mr_userId := mr_userId m;
                               mr_forwardUrl :=
                                 nullish forwardUrl (mr_forwardUrl m);
                               mr_status := mr_status m;
                               mr_lastSeenAt := mr_lastSeenAt m |}
                       else m) machineTable in
              (Done (findFirst mr_id id machineTable'), machineTable')
          end
    | None => (NOT_FOUND, machineTable)
    end.

Definition deleteMachine (userId id : string)
    (machineTable : list MachineRow) : Rpc unit * list MachineRow :=
  match findFirst mr_id id machineTable with
  | Some existing =>
      if negb (String.eqb (mr_userId existing) userId)
      then (NOT_FOUND, machineTable)
      else (Done tt,
            List.filter (fun m => negb (String.eqb (mr_id m) id))
                        machineTable)
  | None => (NOT_FOUND, machineTable)
  end.

End MachineRouter.

(** *** [reportDelivery] *)

(** A row of the delivery table. *)
Record Delivery : Type := {
  d_id : string;
  d_eventId : string;
  d_machineId : string;
  d_status : string;
  d_responseStatus : option Z;
  d_responseBody : option string;
  d_error : option string;
  d_duration : option Z
}.

(** The row that the worker's insert creates: the other columns are
    null. *)
Definition inserted (row : DeliveryRow) : Delivery :=
  {| d_id := del_id row; d_eventId := del_eventId row;
     d_machineId := del_machineId row; d_status := del_status row;
     d_responseStatus := None; d_responseBody := None;
     d_error := None; d_duration := None |}.

Record ReportInput : Type := {
  in_deliveryId : string;
  in_status : DeliveryStatus;
  in_responseStatus : option Z;
  in_responseBody : option string;
  in_error : option string;
  in_duration : option Z
}.

(** [z.string().max(10_000).nullable()] and [z.string().max(2000)
    .nullable()]; the other fields are checked by their types. *)
Definition valid_report (input : ReportInput) : bool :=
  optional (fun body => (Z.of_nat (String.length body) <=? 10000)%Z)
           (in_responseBody input)
  && optional (fun error => (Z.of_nat (String.length error) <=? 2000)%Z)
              (in_error input).

Definition reported (input : ReportInput) (row : Delivery) : Delivery :=
  {| d_id := d_id row; d_eventId := d_eventId row;
     d_machineId := d_machineId row;
     d_status := status_string (in_status input);
     d_responseStatus := in_responseStatus input;
     d_responseBody := in_responseBody input;
     d_error := in_error input;
     d_duration := in_duration input |}.

Definition reportDelivery (userId : string) (input : ReportInput)
    (machineTable : list MachineRow) (deliveryTable : list Delivery)
    : Rpc unit * list Delivery :=
  if negb (valid_report input) then (BAD_REQUEST, deliveryTable)
  else
    match findFirst d_id (in_deliveryId input) deliveryTable with
    | None => (NOT_FOUND, deliveryTable)
    | Some existing =>
        match findFirst mr_id (d_machineId existing) machineTable with
        | None => (NOT_FOUND, deliveryTable)
        | Some m =>
            if negb (String.eqb (mr_userId m) userId)
            then (NOT_FOUND, deliveryTable)
            else
              (Done tt,
               map (fun row => if String.eqb (d_id row) (in_deliveryId input)
                               then reported input row else row)
                   deliveryTable)
        end
    end.

(** What the terminal client passes to [reportDeliveryResult]. *)
Definition report_input (webhookMsg : WebhookMessage)
    (result : ForwardResult) : ReportInput :=
  {| in_deliveryId := whm_deliveryId webhookMsg;
     in_status := fr_status result;
     in_responseStatus := fr_responseStatus result;
     in_responseBody := fr_responseBody result;
     in_error := fr_error result;
     in_duration := Some (fr_duration result) |}.

(** *** The writers of the machine table *)

(** The three writing procedures of the router, the worker's upgrade, and
    the deletion of an endpoint, on which the machine rows that refer to
    it are deleted with it. *)
Inductive Write : Type :=
| RegisterMachine (userId endpointId name forwardUrl id : string)
| UpdateMachine (userId id : string) (name forwardUrl : option string)
| DeleteMachine (userId id : string)
| Connect (now : Z) (slug : string) (session : option string)
          (role machineId machineName : option string)
| EndpointDeleted (endpointId : string).

(** One write, with the endpoint table as it is then. *)
Definition write (is_url : string -> bool)
    (noValues : Rpc (option MachineRow))
    (machineTable : list MachineRow)
    (w : list EndpointRow * Write) : list MachineRow :=
  let endpointTable := fst w in
  match snd w with
  | RegisterMachine userId endpointId name forwardUrl id =>
      snd (register is_url endpointTable userId endpointId name forwardUrl
             id machineTable)
  | UpdateMachine userId id name forwardUrl =>
      snd (update is_url noValues userId id name forwardUrl machineTable)
  | DeleteMachine userId id => snd (deleteMachine userId id machineTable)
  | Connect now slug session role machineId machineName =>
      after_upgrade now
        (handleWebSocketUpgrade endpointTable machineTable slug session
           role machineId machineName)
        machineTable
  | EndpointDeleted endpointId =>
      List.filter (fun m => negb (String.eqb (mr_endpointId m) endpointId))
                  machineTable
  end.

Definition writes (is_url : string -> bool)
    (noValues : Rpc (option MachineRow))
    (ws : list (list EndpointRow * Write)) (machineTable : list MachineRow)
    : list MachineRow :=
  fold_left (write is_url noValues) ws machineTable.

(** The id a write inserts a row under, if it inserts one. *)
Definition inserts (w : Write) : option string :=
  match w with
  | RegisterMachine _ _ _ _ id => Some id
  | _ => None
  end.

(** A machine row as the terminal client reads it. *)
Definition as_machine (m : MachineRow) : Machine :=
  {| m_endpointId := mr_endpointId m; m_forwardUrl := mr_forwardUrl m;
     m_id := mr_id m; m_name := mr_name m; m_status := mr_status m |}.

End Router.

(** * Properties of the relay actor *)

Module RelayFacts.
Import EndpointDO.

Lemma truthy_nonempty s : truthy s = true <-> s <> "".
Proof. destruct s; simpl; split; congruence. Qed.

(** ** The effects of the loops *)

Lemma add_effects_nil st : add_effects st [] = st.
Proof. destruct st. unfold add_effects. simpl. by rewrite app_nil_r. Qed.

Lemma add_effects_app st es es' :
  add_effects (add_effects st es) es' = add_effects st (es ++ es').
Proof. unfold add_effects. simpl. by rewrite app_assoc. Qed.

Lemma emitted_add_effects st es : emitted st (add_effects st es) = es.
Proof. unfold emitted. simpl. apply drop_app_length. Qed.

Lemma try_send_effect ws m st :
  try_catch (ws_send ws m) st
  = (Returned tt, add_effects st [Send (ws_id ws) m (ws_open ws)]).
Proof.
  unfold try_catch, ws_send, bind, emit, ret, throw.
  by destruct (ws_open ws).
Qed.

(** A loop whose body only appends effects appends them in order. *)
Lemma for_of_effects {X} (body : X -> DO unit) (f : X -> list Effect) :
  forall (l : list X),
    (forall x st, In x l -> body x st = (Returned tt, add_effects st (f x))) ->
    forall st,
      for_of l body st = (Returned tt, add_effects st (concat (map f l))).
Proof.
  induction l as [|x l IH]; intros Hbody st; simpl.
  - by rewrite add_effects_nil.
  - unfold bind. rewrite Hbody by (by left).
    rewrite IH by (intros; apply Hbody; by right).
    by rewrite add_effects_app.
Qed.

Lemma concat_singletons {X Y} (g : X -> Y) (l : list X) :
  concat (map (fun x => [g x]) l) = map g l.
Proof. induction l; simpl; congruence. Qed.

Lemma broadcastToViewers_effects m st :
  broadcastToViewers m st
  = (Returned tt, add_effects st (send_all m (viewers st))).
Proof.
  unfold broadcastToViewers, getViewerWebSockets, getWebSockets, bind, ret.
  rewrite (for_of_effects _ (fun ws => [Send (ws_id ws) m (ws_open ws)])).
  - by rewrite concat_singletons.
  - intros. apply try_send_effect.
Qed.

Lemma broadcastToMachines_effects m except st :
  broadcastToMachines m (Some except) st
  = (Returned tt, add_effects st (send_all m (others except (machines st)))).
Proof.
  unfold broadcastToMachines, getMachineWebSockets, getWebSockets, bind, ret.
  rewrite (for_of_effects _
    (fun ws => if Nat.eqb (ws_id ws) (ws_id except) then []
               else [Send (ws_id ws) m (ws_open ws)])).
  - f_equal. f_equal. unfold send_all, others, machines.
    induction (List.filter (has_role "machine") (sockets st)) as [|w l IH];
      simpl; [done|].
    destruct (Nat.eqb (ws_id w) (ws_id except)); simpl; congruence.
  - intros ws st' _. destruct (Nat.eqb (ws_id ws) (ws_id except)).
    + by rewrite add_effects_nil.
    + apply try_send_effect.
Qed.

Lemma handleBroadcast_effects payload st :
  handleBroadcast payload st
  = (Returned (List.length (machines st)),
     add_effects st (concat (map (fanout payload) (machines st)))).
Proof.
  unfold handleBroadcast, getMachineWebSockets, getWebSockets, bind, ret.
  fold (machines st).
  rewrite (for_of_effects _ (fanout payload)); [done|].
  intros ws st' Hin. apply filter_In in Hin as [_ Hrole].
  unfold has_role in Hrole. unfold fanout, target.
  destruct (ws_attachment ws) as [att|]; [|done].
  destruct (att_machineId att) as [machineId|];
    [|by rewrite add_effects_nil].
  destruct (truthy machineId); cbn [negb]; [|by rewrite add_effects_nil].
  destruct (record_get (bp_deliveries payload) machineId) as [d|];
    [|by rewrite add_effects_nil].
  destruct (ref_truthy (Some d)); cbn [negb].
  - apply try_send_effect.
  - by rewrite add_effects_nil.
Qed.

Lemma has_role_accepted r request st :
  has_role r (accepted_socket request st)
  = String.eqb (nullish (q_role request) "") r.
Proof. done. Qed.

Lemma filter_snoc_false {X} (f : X -> bool) l x :
  f x = false -> List.filter f (l ++ [x]) = List.filter f l.
Proof.
  intros Hx. rewrite List.filter_app. simpl. rewrite Hx. apply app_nil_r.
Qed.

Lemma eqb_other_role (a b c : string) :
  String.eqb a b = true -> b <> c -> String.eqb a c = false.
Proof.
  intros Hab Hbc. apply String.eqb_eq in Hab. subst.
  by apply String.eqb_neq.
Qed.

Lemma upgrade_rejected request st :
  truthy_opt (q_role request) && truthy (nullish (q_userId request) "")
    = false ->
  handleWebSocketUpgrade request st
  = (Returned {| resp_status := 400; resp_webSocket := None |}, st).
Proof. intros H. unfold handleWebSocketUpgrade. by rewrite H. Qed.

Lemma snapshot_loop server l st :
  ws_open server = true ->
  for_of l (fun ws =>
    match ws_attachment ws with
    | Some att =>
        if truthy_opt (att_machineId att) && truthy_opt (att_machineName att)
        then ws_send server
               (online_status (nullish (att_machineId att) "")
                              (nullish (att_machineName att) ""))
        else ret tt
    | None => ret tt
    end) st
  = (Returned tt,
     add_effects st
       (map (fun m => Send (ws_id server) m true)
            (map snapshot_message (List.filter named l)))).
Proof.
  intros Hopen.
  rewrite (for_of_effects _
    (fun ws => if named ws
               then [Send (ws_id server) (snapshot_message ws) true]
               else [])).
  - f_equal. f_equal. induction l as [|w l IH]; simpl; [done|].
    destruct (named w); simpl; congruence.
  - intros ws st' _. unfold named, snapshot_message.
    destruct (ws_attachment ws) as [att|]; [|by rewrite add_effects_nil].
    destruct (truthy_opt (att_machineId att)
              && truthy_opt (att_machineName att));
      [|by rewrite add_effects_nil].
    unfold ws_send, bind, emit, ret. by rewrite Hopen.
Qed.

Lemma upgrade_accepted request st :
  truthy_opt (q_role request) && truthy (nullish (q_userId request) "")
    = true ->
  handleWebSocketUpgrade request st
  = (Returned {| resp_status := 101;
                 resp_webSocket := Some (next_ws st) |},
     {| sockets := sockets st ++ [accepted_socket request st];
        next_ws := S (next_ws st);
        effects := effects st ++ upgrade_effects request st |}).
Proof.
  intros H. unfold handleWebSocketUpgrade. rewrite H. simpl.
  unfold bind at 1. unfold acceptWebSocket. fold (accepted_socket request st).
  set (server := accepted_socket request st).
  set (st1 := {| sockets := sockets st ++ [server];
                 next_ws := S (next_ws st); effects := effects st |}).
  unfold upgrade_effects.
  set (role := nullish (q_role request) "").
  assert (Hviewers : String.eqb role "viewer" = false ->
                     viewers st1 = viewers st).
  { intros Hr. unfold viewers, st1. simpl. by apply filter_snoc_false. }
  assert (Hmachines : String.eqb role "machine" = false ->
                      machines st1 = machines st).
  { intros Hr. unfold machines, st1. simpl. by apply filter_snoc_false. }
  unfold bind.
  destruct (String.eqb role "machine") eqn:Hm.
  - assert (Hv : String.eqb role "viewer" = false)
      by (by eapply eqb_other_role).
    rewrite Hv. simpl.
    destruct (truthy_opt (q_machineId request)
              && truthy_opt (q_machineName request)); simpl.
    + rewrite broadcastToViewers_effects, Hviewers by done.
      unfold ret, add_effects, st1. simpl. by rewrite app_nil_r.
    + unfold ret, st1. simpl. by rewrite app_nil_r.
  - simpl. unfold ret at 1.
    destruct (String.eqb role "viewer") eqn:Hv.
    + unfold getMachineWebSockets, getWebSockets, bind, ret.
      fold (machines st1). rewrite Hmachines by done.
      rewrite snapshot_loop by done.
      unfold add_effects, st1, snapshot. simpl. done.
    + unfold ret, st1. simpl. by rewrite app_nil_r.
Qed.

(** ** Reading the effects socket by socket *)

Lemma concat_filter_per_socket f g l :
  concat (map g (List.filter f l)) = per_socket f g l.
Proof.
  unfold per_socket. induction l as [|w l IH]; simpl; [done|].
  destruct (f w); simpl; congruence.
Qed.

Lemma send_all_per_socket f m l :
  send_all m (List.filter f l)
  = per_socket f (fun ws => [Send (ws_id ws) m (ws_open ws)]) l.
Proof.
  rewrite <- concat_filter_per_socket. unfold send_all.
  by rewrite concat_singletons.
Qed.

Lemma addressed_elsewhere b id ws es :
  sends_on ws es -> ws_id ws <> id -> omap (addressed b id) es = [].
Proof.
  intros Hes Hne. induction Hes as [|e es (m & d & ->) _ IH]; [done|].
  simpl. apply Nat.eqb_neq in Hne. by rewrite Hne.
Qed.

Lemma addressed_foreign b id f g l :
  (forall ws, sends_on ws (g ws)) ->
  ~ In id (map ws_id l) ->
  omap (addressed b id) (per_socket f g l) = [].
Proof.
  intros Hg. unfold per_socket.
  induction l as [|w l IH]; simpl; intros Hid; [done|].
  rewrite omap_app, IH by tauto.
  destruct (f w); [|done].
  rewrite (addressed_elsewhere b id w) by (auto; tauto). done.
Qed.

(** In a registry without duplicate identities, what a loop over the
    registry sends to a socket is what its body sends for that socket. *)
Lemma addressed_per_socket b f g l ws :
  (forall w, sends_on w (g w)) ->
  List.NoDup (map ws_id l) ->
  In ws l ->
  omap (addressed b (ws_id ws)) (per_socket f g l)
  = if f ws then omap (addressed b (ws_id ws)) (g ws) else [].
Proof.
  intros Hg. induction l as [|w l IH]; simpl; intros Hnd Hin; [done|].
  apply List.NoDup_cons_iff in Hnd as [Hw Hnd].
  change (per_socket f g (w :: l))
    with ((if f w then g w else []) ++ per_socket f g l)%list.
  rewrite omap_app. destruct Hin as [->|Hin].
  - rewrite (addressed_foreign b _ f g l) by done.
    rewrite app_nil_r. by destruct (f ws).
  - rewrite IH by done.
    assert (Hne : ws_id w <> ws_id ws).
    { intros Heq. apply Hw. rewrite Heq. by apply in_map. }
    destruct (f w); [|done].
    by rewrite (addressed_elsewhere b _ w).
Qed.

Lemma sends_on_single ws m d : sends_on ws [Send (ws_id ws) m d].
Proof. constructor; [by eexists _, _ | constructor]. Qed.

Lemma sends_on_fanout payload ws : sends_on ws (fanout payload ws).
Proof.
  unfold fanout. destruct (target payload ws).
  - apply sends_on_single.
  - constructor.
Qed.

(** ** The handlers' effects *)

Lemma announce_offline_effects ws st :
  announce_offline ws st
  = (Returned tt, add_effects st (offline_effects ws st)).
Proof.
  unfold announce_offline, offline_effects.
  destruct (ws_attachment ws) as [att|];
    [|by unfold ret; rewrite add_effects_nil].
  destruct (String.eqb (att_role att) "machine"
            && truthy_opt (att_machineId att)).
  - apply broadcastToViewers_effects.
  - by unfold ret; rewrite add_effects_nil.
Qed.

Lemma webSocketClose_effects ws code reason st :
  webSocketClose ws code reason st
  = (Returned tt,
     {| sockets := others ws (sockets st);
        next_ws := next_ws st;
        effects := effects st ++ offline_effects ws st
                   ++ [CloseSocket (ws_id ws) code reason] |}).
Proof.
  unfold webSocketClose, bind. rewrite announce_offline_effects.
  unfold ws_close, add_effects, others. simpl. by rewrite app_assoc.
Qed.

Lemma webSocketError_effects ws st :
  webSocketError ws st
  = (Returned tt,
     {| sockets := others ws (sockets st);
        next_ws := next_ws st;
        effects := effects st ++ offline_effects ws st
                   ++ [CloseSocket (ws_id ws) 1011 "WebSocket error"] |}).
Proof.
  unfold webSocketError, bind. rewrite announce_offline_effects.
  unfold ws_close, add_effects, others. simpl. by rewrite app_assoc.
Qed.

Lemma webSocketMessage_report ws att parsed st :
  ws_attachment ws = Some att ->
  get_prop parsed "type" = Returned (Some (JStr "delivery-report")) ->
  webSocketMessage ws (Text (Some parsed)) st
  = (Returned tt,
     add_effects st
       (send_all (delivery_result att parsed) (viewers st)
        ++ send_all (delivery_result att parsed)
                    (others ws (machines st)))).
Proof.
  intros Hatt Htype. unfold webSocketMessage. rewrite Htype, Hatt. simpl.
  unfold bind. rewrite broadcastToViewers_effects.
  rewrite broadcastToMachines_effects. by rewrite add_effects_app.
Qed.

(** A frame that is no delivery report leaves the actor as it was. *)
Lemma webSocketMessage_ignored ws message st :
  (forall parsed, message = Text (Some parsed) ->
     get_prop parsed "type" <> Returned (Some (JStr "delivery-report"))) ->
  snd (webSocketMessage ws message st) = st.
Proof.
  intros Hno. destruct message as [|[parsed|]]; [done| |done].
  specialize (Hno parsed eq_refl). simpl.
  destruct (get_prop parsed "type") as [type|]; [|done].
  destruct (is_string type "delivery-report") eqn:Hty; [|done].
  exfalso. apply Hno. f_equal. unfold is_string in Hty.
  destruct type as [[| | |s| |]|]; try done.
  apply String.eqb_eq in Hty. by subst.
Qed.

Lemma webSocketMessage_cases ws message st :
  snd (webSocketMessage ws message st) = st
  \/ exists att parsed,
       snd (webSocketMessage ws message st)
       = add_effects st
           (send_all (delivery_result att parsed) (viewers st)
            ++ send_all (delivery_result att parsed)
                        (others ws (machines st))).
Proof.
  destruct message as [|[parsed|]]; try by left. simpl.
  destruct (get_prop parsed "type") as [type|] eqn:Htype; [|by left].
  destruct (is_string type "delivery-report") eqn:Hty; [|by left].
  destruct (ws_attachment ws) as [att|] eqn:Hatt; [|by left].
  right. exists att, parsed. unfold bind.
  rewrite broadcastToViewers_effects.
  by rewrite broadcastToMachines_effects, add_effects_app.
Qed.

(** ** Invariants of the registry

    No two sockets of the registry share an identity, and identities are
    fresh, in every state the actor reaches from [init], whatever sockets
    the host passes to the callbacks.  The theorems below assume no more
    than that of the state. *)

Lemma in_ids_filter (p : WebSocket -> bool) l id :
  In id (map ws_id (List.filter p l)) -> In id (map ws_id l).
Proof.
  rewrite !in_map_iff. intros (ws & <- & Hin).
  apply filter_In in Hin as [Hin _]. by exists ws.
Qed.

Lemma nodup_ids_filter (p : WebSocket -> bool) l :
  List.NoDup (map ws_id l) -> List.NoDup (map ws_id (List.filter p l)).
Proof.
  induction l as [|w l IH]; simpl; [done|]. intros Hnd.
  apply List.NoDup_cons_iff in Hnd as [Hw Hnd].
  destruct (p w); simpl; [|by apply IH].
  apply List.NoDup_cons; [|by apply IH].
  intros Hin. by apply Hw, (in_ids_filter p).
Qed.

Lemma below_filter (p : WebSocket -> bool) n l :
  Forall (fun ws => ws_id ws < n) l ->
  Forall (fun ws => ws_id ws < n) (List.filter p l).
Proof.
  rewrite !List.Forall_forall. intros H ws Hin.
  apply filter_In in Hin as [Hin _]. by apply H.
Qed.

Lemma targets_send_all n m l :
  Forall (fun ws => ws_id ws < n) l -> targets_below n (send_all m l).
Proof.
  intros H. unfold targets_below, send_all. apply Forall_map.
  eapply Forall_impl; [exact H|]. done.
Qed.

Lemma targets_fanout n payload l :
  Forall (fun ws => ws_id ws < n) l ->
  targets_below n (concat (map (fanout payload) l)).
Proof.
  unfold targets_below. induction 1 as [|w l Hw _ IH]; simpl; [constructor|].
  apply Forall_app. split; [|done].
  unfold fanout. destruct (target payload w); repeat constructor. done.
Qed.

Lemma targets_offline_effects ws st :
  fresh_above st -> targets_below (next_ws st) (offline_effects ws st).
Proof.
  intros [Hs _]. unfold offline_effects.
  destruct (ws_attachment ws); [|constructor].
  destruct (_ && _); [|constructor].
  by apply targets_send_all, below_filter.
Qed.

Lemma targets_mono n n' es :
  n <= n' -> targets_below n es -> targets_below n' es.
Proof.
  intros Hle H. unfold targets_below in *.
  eapply Forall_impl; [exact H|]. intros [to m d|]; simpl; [lia|done].
Qed.

Lemma nodup_snoc {X} (l : list X) x :
  List.NoDup l -> ~ In x l -> List.NoDup (l ++ [x]).
Proof.
  induction l as [|y l IH]; simpl; intros Hnd Hx.
  - repeat constructor. by intros [].
  - apply List.NoDup_cons_iff in Hnd as [Hy Hnd].
    apply List.NoDup_cons.
    + rewrite in_app_iff. simpl. intros [?|[->|[]]]; tauto.
    + apply IH; tauto.
Qed.

Lemma registry_ok_init : registry_ok init.
Proof. repeat split; constructor. Qed.

Lemma registry_ok_step st c : registry_ok st -> registry_ok (step st c).
Proof.
  intros (Hnd & Hs & He).
  destruct c as [request|payload|ws message|ws code reason|ws|id]; simpl.
  - destruct (truthy_opt (q_role request)
              && truthy (nullish (q_userId request) "")) eqn:Hok;
      [|by rewrite upgrade_rejected].
    rewrite upgrade_accepted by done. simpl.
    split; [|split]; simpl.
    + rewrite map_app. simpl. apply nodup_snoc; [done|].
      intros Hin. apply in_map_iff in Hin as (w & Hid & Hin).
      rewrite List.Forall_forall in Hs. specialize (Hs w Hin).
      simpl in Hs. lia.
    + apply Forall_app. split.
      * eapply Forall_impl; [exact Hs|]. simpl. lia.
      * repeat constructor.
    + apply Forall_app. split; [by apply (targets_mono (next_ws st)); [lia|]|].
      unfold upgrade_effects. apply Forall_app. split.
      * destruct (String.eqb _ "machine" && _ && _); [|constructor].
        apply (targets_mono (next_ws st)); [lia|].
        by apply targets_send_all, below_filter.
      * destruct (String.eqb _ "viewer"); [|constructor].
        apply Forall_map, Forall_forall. intros m _. simpl. lia.
  - rewrite handleBroadcast_effects. simpl.
    split; [done|]. split; [done|]. simpl.
    apply Forall_app. split; [done|]. by apply targets_fanout, below_filter.
  - destruct (webSocketMessage_cases ws message st)
      as [->|(att & parsed & ->)]; [done|].
    split; [done|]. split; [done|]. simpl.
    apply Forall_app. split; [done|].
    apply Forall_app.
    split; apply targets_send_all; repeat apply below_filter; done.
  - rewrite webSocketClose_effects. simpl. split; [|split]; simpl.
    + by apply nodup_ids_filter.
    + by apply below_filter.
    + apply Forall_app. split; [done|]. apply Forall_app. split.
      * by apply targets_offline_effects.
      * by repeat constructor.
  - rewrite webSocketError_effects. simpl. split; [|split]; simpl.
    + by apply nodup_ids_filter.
    + by apply below_filter.
    + apply Forall_app. split; [done|]. apply Forall_app. split.
      * by apply targets_offline_effects.
      * by repeat constructor.
  - unfold sever. split; [|split]; simpl; [| |done].
    + rewrite map_map.
      erewrite map_ext; [exact Hnd|]. intros w. simpl.
      by destruct (Nat.eqb (ws_id w) id).
    + apply Forall_map. eapply Forall_impl; [exact Hs|]. intros w. simpl.
      by destruct (Nat.eqb (ws_id w) id).
Qed.

Lemma registry_ok_run cs : forall st, registry_ok st -> registry_ok (run cs st).
Proof.
  induction cs as [|c cs IH]; intros st Hst; [done|].
  simpl. by apply IH, registry_ok_step.
Qed.

Lemma reachable_registry_ok st : reachable st -> registry_ok st.
Proof. intros [cs ->]. apply registry_ok_run, registry_ok_init. Qed.

Lemma registry_ok_one_machine : registry_ok Scenario.one_machine.
Proof. apply reachable_registry_ok. by eexists. Qed.

Lemma registry_ok_viewer_and_machine :
  registry_ok Scenario.viewer_and_machine.
Proof. apply reachable_registry_ok. by eexists. Qed.

(** ** The fan-out's result *)

Lemma handleBroadcast_result payload st :
  fst (handleBroadcast payload st) = Returned (List.length (machines st)).
Proof. by rewrite handleBroadcast_effects. Qed.

(** Scenario A: no machine connected, an empty deliveries record. *)
Lemma handleBroadcast_no_machines :
  handleBroadcast (Scenario.payload ∅) init = (Returned 0, init).
Proof. vm_compute. reflexivity. Qed.

(** C1 (the code departs from the claim): with the machine [m1]
    connected and an empty deliveries record, the fan-out sends nothing
    and still answers [sent: 1]: the result is the number of machine
    sockets, not the number of machines it tried to send to. *)
Theorem handleBroadcast_counts_skipped_machine :
  handleBroadcast (Scenario.payload ∅) Scenario.one_machine
  = (Returned 1, Scenario.one_machine).
Proof. vm_compute. reflexivity. Qed.

(** ** Disconnects *)

Lemma viewer_is_no_machine ws :
  has_role "viewer" ws = true -> has_role "machine" ws = false.
Proof.
  unfold has_role. destruct (ws_attachment ws); [|done].
  intros H. by eapply eqb_other_role.
Qed.

Lemma attempted_offline_effects st ws v :
  List.NoDup (map ws_id (sockets st)) ->
  In v (viewers st) ->
  attempted (ws_id v) (offline_effects ws st) = offline_notice ws.
Proof.
  intros Hnd Hv. apply filter_In in Hv as [Hin Hrole].
  unfold offline_effects, offline_notice, attempted.
  destruct (ws_attachment ws) as [att|]; [|done].
  destruct (String.eqb (att_role att) "machine"
            && truthy_opt (att_machineId att)); [|done].
  unfold viewers. rewrite send_all_per_socket.
  rewrite addressed_per_socket; auto using sends_on_single.
  rewrite Hrole. simpl. by rewrite Nat.eqb_refl, orb_true_r.
Qed.

(** C2 (as stated, refuted): a close callback followed by an error
    callback for the same machine socket sends the viewer two offline
    messages. *)
Lemma offline_broadcast_twice :
  List.filter is_offline
    (attempted 0
       (emitted Scenario.viewer_and_machine
          (run [ Close (Scenario.machine_socket 1 "m1" (Some "Box")) 1000 "";
                 Error (Scenario.machine_socket 1 "m1" (Some "Box")) ]
               Scenario.viewer_and_machine)))
  = [ offline_status "m1" "Box"; offline_status "m1" "Box" ].
Proof. vm_compute. reflexivity. Qed.

(** C2 (amended): one invocation of the close callback, or of the error
    callback, for a socket whose attachment has role machine and a
    non-empty machine id tries to send exactly one offline
    machine-status message to every connected viewer; an invocation for
    any other socket sends a viewer nothing. *)
Theorem disconnect_announces_once_per_call st ws code reason v :
  List.NoDup (map ws_id (sockets st)) ->
  In v (viewers st) ->
  let on_close :=
    attempted (ws_id v) (emitted st (snd (webSocketClose ws code reason st))) in
  let on_error :=
    attempted (ws_id v) (emitted st (snd (webSocketError ws st))) in
  (forall att machineId,
     ws_attachment ws = Some att ->
     att_role att = "machine" ->
     att_machineId att = Some machineId -> machineId <> "" ->
     on_close = [offline_status machineId (nullish (att_machineName att) "")]
     /\ on_error
        = [offline_status machineId (nullish (att_machineName att) "")])
  /\ ((forall att, ws_attachment ws = Some att ->
         att_role att <> "machine" \/ att_machineId att = None
         \/ att_machineId att = Some "") ->
      on_close = [] /\ on_error = []).
Proof.
  intros Hnd Hv on_close on_error.
  assert (Hboth : on_close = offline_notice ws /\ on_error = offline_notice ws).
  { subst on_close on_error.
    rewrite webSocketClose_effects, webSocketError_effects. simpl.
    unfold emitted. simpl. rewrite !drop_app_length.
    unfold attempted. rewrite !omap_app.
    fold (attempted (ws_id v) (offline_effects ws st)).
    rewrite attempted_offline_effects by done. simpl.
    by rewrite app_nil_r. }
  destruct Hboth as [-> ->]. unfold offline_notice. split.
  - intros att machineId -> Hrole -> Hne. rewrite Hrole. simpl.
    apply truthy_nonempty in Hne. by rewrite Hne.
  - intros Hother. destruct (ws_attachment ws) as [att|]; [|done].
    destruct (Hother att eq_refl) as [Hrole|[-> | ->]].
    + apply String.eqb_neq in Hrole. by rewrite Hrole.
    + by rewrite andb_false_r.
    + by rewrite andb_false_r.
Qed.

Lemma nodup_viewer_and_machine :
  List.NoDup (map ws_id (sockets Scenario.viewer_and_machine)).
Proof. apply registry_ok_viewer_and_machine. Qed.

Lemma disconnect_announces_once_per_call_witness :
  attempted 0
    (emitted Scenario.viewer_and_machine
       (snd (webSocketClose (Scenario.machine_socket 1 "m1" (Some "Box"))
               1000 "" Scenario.viewer_and_machine)))
  = [offline_status "m1" "Box"]
  /\ attempted 0
       (emitted Scenario.viewer_and_machine
          (snd (webSocketError (Scenario.machine_socket 1 "m1" (Some "Box"))
                  Scenario.viewer_and_machine)))
     = [offline_status "m1" "Box"].
Proof.
  refine (proj1 (disconnect_announces_once_per_call
                   Scenario.viewer_and_machine
                   (Scenario.machine_socket 1 "m1" (Some "Box")) 1000 ""
                   (Scenario.viewer_socket 0) _ _)
            _ "m1" eq_refl eq_refl eq_refl _).
  - apply nodup_viewer_and_machine.
  - vm_compute. left. reflexivity.
  - discriminate.
Defined.

(** ** Who the fan-out sends to *)

Lemma attempted_fanout payload st ws :
  List.NoDup (map ws_id (sockets st)) ->
  In ws (sockets st) ->
  attempted (ws_id ws) (emitted st (snd (handleBroadcast payload st)))
  = if has_role "machine" ws
    then match target payload ws with
         | Some deliveryId => [webhook_message payload deliveryId]
         | None => []
         end
    else [].
Proof.
  intros Hnd Hin. rewrite handleBroadcast_effects. simpl.
  rewrite emitted_add_effects. unfold machines, attempted.
  rewrite concat_filter_per_socket.
  rewrite addressed_per_socket; auto using sends_on_fanout.
  destruct (has_role "machine" ws); [|done].
  unfold fanout. destruct (target payload ws); [|done].
  simpl. by rewrite Nat.eqb_refl, orb_true_r.
Qed.

(** C3 (as stated, refuted): the machine [m1] is registered and [m1] is
    a key of the deliveries record, yet nothing is sent to it, because
    the delivery id stored under the key is the empty string. *)
Lemma fanout_skips_empty_delivery_id :
  has_role "machine" (Scenario.machine_socket 0 "m1" (Some "Box")) = true
  /\ In (Scenario.machine_socket 0 "m1" (Some "Box"))
        (sockets Scenario.one_machine)
  /\ bp_deliveries (Scenario.payload {[ "m1" := "" ]}) !! "m1" = Some ""
  /\ attempted 0
       (emitted Scenario.one_machine
          (snd (handleBroadcast (Scenario.payload {[ "m1" := "" ]})
                  Scenario.one_machine)))
     = [].
Proof. vm_compute. repeat split. by left. Qed.

(** C3 (amended): for a registered socket whose machine id is not the
    name of a member that every record inherits, the fan-out tries to
    send a webhook message on it if and only if the socket has role
    machine, its machine id is non-empty and the deliveries record holds
    a non-empty delivery id under that machine id; it sends at most one,
    and the message sent carries exactly that delivery id. *)
Theorem fanout_targets payload st ws :
  List.NoDup (map ws_id (sockets st)) ->
  In ws (sockets st) ->
  (forall att machineId,
     ws_attachment ws = Some att -> att_machineId att = Some machineId ->
     inherited machineId = false) ->
  let sent :=
    attempted (ws_id ws) (emitted st (snd (handleBroadcast payload st))) in
  (sent <> [] <->
     has_role "machine" ws = true /\
     exists att machineId deliveryId,
       ws_attachment ws = Some att /\
       att_machineId att = Some machineId /\ machineId <> "" /\
       bp_deliveries payload !! machineId = Some deliveryId /\
       deliveryId <> "")
  /\ (forall m, In m sent ->
        exists att machineId deliveryId,
          ws_attachment ws = Some att /\
          att_machineId att = Some machineId /\
          bp_deliveries payload !! machineId = Some deliveryId /\
          m = webhook_message payload (OwnId deliveryId))
  /\ List.length sent <= 1.
Proof.
  intros Hnd Hin Hown sent. subst sent.
  rewrite attempted_fanout by done.
  assert (Hsome : forall m,
    In m (if has_role "machine" ws
          then match target payload ws with
               | Some d => [webhook_message payload d]
               | None => []
               end
          else []) ->
    has_role "machine" ws = true /\
    exists att machineId deliveryId,
      ws_attachment ws = Some att /\
      att_machineId att = Some machineId /\ machineId <> "" /\
      bp_deliveries payload !! machineId = Some deliveryId /\
      deliveryId <> "" /\
      m = webhook_message payload (OwnId deliveryId)).
  { intros m Hm. destruct (has_role "machine" ws); [|done].
    unfold target in Hm.
    destruct (ws_attachment ws) as [att|] eqn:Hatt; [|done].
    destruct (att_machineId att) as [machineId|] eqn:Hid; [|done].
    destruct (truthy machineId) eqn:Hmid; [|done].
    unfold record_get in Hm. rewrite (Hown att machineId) in Hm by done.
    destruct (bp_deliveries payload !! machineId) as [deliveryId|] eqn:Hd;
      [|done].
    simpl in Hm. destruct (truthy deliveryId) eqn:Hdid; [|done].
    destruct Hm as [<-|[]]. split; [done|].
    exists att, machineId, deliveryId.
    repeat split; try done; by apply truthy_nonempty. }
  split; [split|split].
  - intros Hne.
    destruct (if has_role "machine" ws then _ else _) as [|m l] eqn:Hsent;
      [done|].
    destruct (Hsome m) as (Hrole & att & machineId & deliveryId & H);
      [by left|].
    split; [done|]. exists att, machineId, deliveryId. tauto.
  - intros (Hrole & att & machineId & deliveryId & Ha & Hi & Hne & Hd & Hne').
    rewrite Hrole. unfold target, record_get. rewrite Ha, Hi, Hd.
    apply truthy_nonempty in Hne, Hne'. rewrite Hne. simpl.
    by rewrite Hne'.
  - intros m Hm.
    destruct (Hsome m Hm) as (_ & att & machineId & deliveryId & H).
    exists att, machineId, deliveryId. tauto.
  - destruct (has_role "machine" ws); [|simpl; lia].
    destruct (target payload ws); simpl; lia.
Qed.

(** The case the amended claim leaves aside: a machine id that names a
    member every record inherits from [Object.prototype] passes the
    guards with an empty deliveries record, and a webhook message without
    a delivery id of the record is sent. *)
Lemma fanout_inherited_member :
  snd (handleBroadcast (Scenario.payload ∅)
         (run [Scenario.connect_machine "constructor" (Some "Box")] init))
  = add_effects
      (run [Scenario.connect_machine "constructor" (Some "Box")] init)
      [Send 0 (webhook_message (Scenario.payload ∅)
                 (InheritedMember "constructor")) true].
Proof. vm_compute. reflexivity. Qed.

Lemma nodup_one_machine :
  List.NoDup (map ws_id (sockets Scenario.one_machine)).
Proof. apply registry_ok_one_machine. Qed.

Lemma fanout_targets_witness :
  attempted 0
    (emitted Scenario.one_machine
       (snd (handleBroadcast (Scenario.payload {[ "m1" := "d1" ]})
               Scenario.one_machine)))
  <> [] <->
  has_role "machine" (Scenario.machine_socket 0 "m1" (Some "Box")) = true /\
  exists att machineId deliveryId,
    ws_attachment (Scenario.machine_socket 0 "m1" (Some "Box")) = Some att /\
    att_machineId att = Some machineId /\ machineId <> "" /\
    bp_deliveries (Scenario.payload {[ "m1" := "d1" ]}) !! machineId
      = Some deliveryId /\
    deliveryId <> "".
Proof.
  refine (proj1 (fanout_targets (Scenario.payload {[ "m1" := "d1" ]})
                   Scenario.one_machine
                   (Scenario.machine_socket 0 "m1" (Some "Box")) _ _ _)).
  - apply nodup_one_machine.
  - vm_compute. by left.
  - intros att machineId [= <-] [= <-]. reflexivity.
Defined.

(** ** The snapshot for a viewer that joins late *)

Lemma quiet_send_all n m l :
  is_online m = false -> Forall (quiet_below n) (send_all m l).
Proof.
  intros Hm. unfold send_all. apply Forall_map, Forall_forall.
  intros ws _. simpl. done.
Qed.

Lemma quiet_fanout n payload l :
  Forall (quiet_below n) (concat (map (fanout payload) l)).
Proof.
  induction l as [|w l IH]; simpl; [constructor|].
  apply Forall_app. split; [|done].
  unfold fanout. destruct (target payload w); constructor; [done|constructor].
Qed.

Lemma quiet_offline_effects n ws st :
  Forall (quiet_below n) (offline_effects ws st).
Proof.
  unfold offline_effects. destruct (ws_attachment ws); [|constructor].
  destruct (_ && _); [|constructor]. by apply quiet_send_all.
Qed.

Lemma webSocketMessage_quiet n ws message st :
  exists es,
    snd (webSocketMessage ws message st) = add_effects st es
    /\ Forall (quiet_below n) es.
Proof.
  destruct (webSocketMessage_cases ws message st) as [->|(att & parsed & ->)].
  - exists []. by rewrite add_effects_nil.
  - eexists. split; [done|]. apply Forall_app. split; by apply quiet_send_all.
Qed.

(** A handler other than the upgrade of a machine sends no online
    message to a socket that exists already. *)
Lemma step_quiet st c :
  is_machine_upgrade c = false ->
  exists es,
    effects (step st c) = effects st ++ es
    /\ next_ws st <= next_ws (step st c)
    /\ Forall (quiet_below (next_ws st)) es.
Proof.
  intros Hc. destruct c as [request|payload|ws message|ws code reason|ws|id];
    simpl.
  - destruct (truthy_opt (q_role request)
              && truthy (nullish (q_userId request) "")) eqn:Hok.
    + rewrite upgrade_accepted by done. simpl.
      exists (upgrade_effects request st). split; [done|].
      split; [lia|]. unfold upgrade_effects. simpl in Hc. rewrite Hc. simpl.
      destruct (String.eqb _ "viewer"); [|constructor].
      apply Forall_map, Forall_forall. intros m _. simpl. lia.
    + rewrite upgrade_rejected by done. simpl.
      exists []. by rewrite app_nil_r.
  - rewrite handleBroadcast_effects. simpl. eexists. split; [done|].
    split; [lia|]. apply quiet_fanout.
  - destruct (webSocketMessage_quiet (next_ws st) ws message st)
      as (es & -> & Hes).
    exists es. simpl. by split; [|split].
  - rewrite webSocketClose_effects. simpl. eexists. split; [done|].
    split; [lia|]. apply Forall_app. split.
    + apply quiet_offline_effects.
    + by repeat constructor.
  - rewrite webSocketError_effects. simpl. eexists. split; [done|].
    split; [lia|]. apply Forall_app. split.
    + apply quiet_offline_effects.
    + by repeat constructor.
  - exists []. by rewrite app_nil_r.
Qed.

Lemma received_quiet v n es :
  v < n -> Forall (quiet_below n) es ->
  Forall (fun m => is_online m = false) (received v es).
Proof.
  intros Hv Hes. induction Hes as [|e es He _ IH]; [constructor|].
  unfold received. simpl. destruct e as [to m d|]; simpl; [|done].
  destruct (Nat.eqb to v && (d || false)) eqn:Hto; [|done].
  constructor; [|done]. apply He.
  apply andb_prop in Hto as [Hto _]. apply Nat.eqb_eq in Hto. lia.
Qed.

Lemma run_quiet cs :
  forall st v,
    v < next_ws st ->
    forallb (fun c => negb (is_machine_upgrade c)) cs = true ->
    exists es,
      effects (run cs st) = effects st ++ es
      /\ Forall (fun m => is_online m = false) (received v es).
Proof.
  induction cs as [|c cs IH]; intros st v Hv Hcs; simpl in *.
  - exists []. split; [by rewrite app_nil_r | constructor].
  - apply andb_prop in Hcs as [Hc Hcs]. apply negb_true_iff in Hc.
    destruct (step_quiet st c Hc) as (es1 & Hes1 & Hnext & Hq).
    destruct (IH (step st c) v) as (es2 & Hes2 & Hq2); [lia|done|].
    exists (es1 ++ es2). unfold run in *. rewrite Hes2, Hes1.
    split; [by rewrite app_assoc|].
    unfold received. rewrite omap_app. apply Forall_app. split; [|done].
    by eapply received_quiet.
Qed.

Lemma received_before_accept st :
  fresh_above st -> received (next_ws st) (effects st) = [].
Proof.
  intros [_ Hes]. unfold received.
  induction Hes as [|e es He _ IH]; [done|]. simpl.
  destruct e as [to m d|]; simpl; [|done].
  assert (Hne : Nat.eqb to (next_ws st) = false) by (apply Nat.eqb_neq; lia).
  by rewrite Hne.
Qed.

Lemma received_own v (l : list ServerMessage) :
  received v (map (fun m => Send v m true) l) = l.
Proof.
  unfold received. induction l as [|m l IH]; [done|].
  cbn [map omap list_omap addressed]. rewrite Nat.eqb_refl.
  cbn [andb orb]. f_equal. exact IH.
Qed.

(** C4 (as stated, refuted): a machine that connected without a machine
    name is a registered machine connection, yet a viewer joining
    afterwards is sent no online message for it. *)
Lemma snapshot_skips_unnamed_machine :
  List.length (machines Scenario.unnamed_machine) = 1
  /\ received (next_ws Scenario.unnamed_machine)
       (emitted Scenario.unnamed_machine
          (snd (handleWebSocketUpgrade Scenario.viewer_request
                  Scenario.unnamed_machine)))
     = [].
Proof. vm_compute. done. Qed.

Lemma named_spec ws :
  named ws = true <->
  exists att machineId machineName,
    ws_attachment ws = Some att
    /\ att_machineId att = Some machineId /\ machineId <> ""
    /\ att_machineName att = Some machineName /\ machineName <> "".
Proof.
  unfold named. split.
  - destruct (ws_attachment ws) as [att|]; [|done].
    destruct (att_machineId att) as [machineId|] eqn:Hmid; [|done].
    destruct (att_machineName att) as [machineName|] eqn:Hmname;
      [|by rewrite andb_false_r].
    simpl. intros [Hid Hname]%andb_prop.
    exists att, machineId, machineName.
    apply truthy_nonempty in Hid, Hname. done.
  - intros (att & machineId & machineName & -> & -> & Hid & -> & Hname).
    apply truthy_nonempty in Hid, Hname. simpl. by rewrite Hid, Hname.
Qed.

Lemma snapshot_message_named ws att machineId machineName :
  ws_attachment ws = Some att ->
  att_machineId att = Some machineId ->
  att_machineName att = Some machineName ->
  snapshot_message ws = online_status machineId machineName.
Proof. intros Hatt Hid Hname. unfold snapshot_message. by rewrite Hatt, Hid, Hname. Qed.

Lemma filter_all {X} (f : X -> bool) l :
  Forall (fun x => f x = true) l -> List.filter f l = l.
Proof.
  induction 1 as [|x l Hx _ IH]; simpl; [done|]. rewrite Hx. by f_equal.
Qed.

(** C4 (amended): a viewer that connects is sent by the upgrade
    handler, before anything else, exactly one online machine-status
    message for every registered machine connection whose attachment
    carries a non-empty machine id and a non-empty machine name (see
    [named_spec], [snapshot_message_named]), in registration order, and as
    long as no further machine connects it is sent no other online
    message; when every registered machine connection carries both, these
    are as many messages as there are machine connections. *)
Theorem viewer_snapshot st request cs :
  fresh_above st ->
  q_role request = Some "viewer" ->
  truthy (nullish (q_userId request) "") = true ->
  forallb (fun c => negb (is_machine_upgrade c)) cs = true ->
  exists later,
    received (next_ws st)
      (effects (run cs (snd (handleWebSocketUpgrade request st))))
    = map snapshot_message (List.filter named (machines st)) ++ later
    /\ Forall (fun m => is_online m = false) later
    /\ (Forall (fun ws => named ws = true) (machines st) ->
        List.length (map snapshot_message (List.filter named (machines st)))
        = List.length (machines st)).
Proof.
  intros Hfresh Hrole Huser Hcs.
  rewrite upgrade_accepted by (by rewrite Hrole, Huser). simpl.
  set (st1 := {| sockets := _; next_ws := _; effects := _ |}).
  destruct (run_quiet cs st1 (next_ws st)) as (es & Hes & Hq);
    [simpl; lia | done |].
  exists (received (next_ws st) es). split; [|split; [done|]].
  - rewrite Hes. unfold st1, upgrade_effects. simpl. rewrite Hrole. simpl.
    unfold received at 1. rewrite !omap_app.
    fold (received (next_ws st) (effects st)).
    rewrite received_before_accept by done.
    fold (received (next_ws st)
            (map (fun m => Send (next_ws st) m true) (snapshot st))).
    by rewrite received_own.
  - intros Hall. by rewrite length_map, filter_all.
Qed.

Lemma fresh_above_one_machine : fresh_above Scenario.one_machine.
Proof. apply registry_ok_one_machine. Qed.

Lemma viewer_snapshot_witness :
  exists later,
    received 1
      (effects (run [Broadcast (Scenario.payload {[ "m1" := "d1" ]})]
                  (snd (handleWebSocketUpgrade Scenario.viewer_request
                          Scenario.one_machine))))
    = [online_status "m1" "Box"] ++ later
    /\ Forall (fun m => is_online m = false) later
    /\ (Forall (fun ws => named ws = true) (machines Scenario.one_machine) ->
        List.length [online_status "m1" "Box"]
        = List.length (machines Scenario.one_machine)).
Proof.
  exact (viewer_snapshot Scenario.one_machine Scenario.viewer_request
           [Broadcast (Scenario.payload {[ "m1" := "d1" ]})]
           fresh_above_one_machine eq_refl eq_refl eq_refl).
Defined.

(** ** Delivery reports *)

Lemma filter_both {X} (f g : X -> bool) l :
  List.filter g (List.filter f l) = List.filter (fun x => f x && g x) l.
Proof.
  induction l as [|x l IH]; simpl; [done|].
  destruct (f x); simpl; [|done]. destruct (g x); congruence.
Qed.

Lemma send_all_one_message m l :
  Forall (fun e => exists to d, e = Send to m d) (send_all m l).
Proof.
  unfold send_all. apply Forall_map, Forall_forall.
  intros ws _. by eexists _, _.
Qed.

(** C5: a delivery report received on a socket makes the actor build one
    delivery-result message, with the machine id and name of the
    reporter's attachment and the fields of the report, and try to send
    it once to every viewer and once to every machine but the reporter;
    nothing else is sent and the registry is unchanged. *)
Theorem delivery_report_broadcast st ws att parsed :
  ws_attachment ws = Some att ->
  get_prop parsed "type" = Returned (Some (JStr "delivery-report")) ->
  List.NoDup (map ws_id (sockets st)) ->
  let result :=
    DeliveryResult
      {| dr_eventId := field parsed "eventId";
         dr_deliveryId := field parsed "deliveryId";
         dr_machineId := nullish (att_machineId att) "";
         dr_machineName := nullish (att_machineName att) "";
         dr_status := field parsed "status";
         dr_responseStatus := field parsed "responseStatus";
         dr_responseBody := field parsed "responseBody";
         dr_error := field parsed "error";
         dr_duration := field parsed "duration" |} in
  let after := webSocketMessage ws (Text (Some parsed)) st in
  fst after = Returned tt
  /\ sockets (snd after) = sockets st
  /\ Forall (fun e => exists to d, e = Send to result d)
            (emitted st (snd after))
  /\ forall s, In s (sockets st) ->
       attempted (ws_id s) (emitted st (snd after))
       = if has_role "viewer" s
            || (has_role "machine" s && negb (Nat.eqb (ws_id s) (ws_id ws)))
         then [result] else [].
Proof.
  intros Hatt Htype Hnd result after. subst after.
  rewrite (webSocketMessage_report ws att parsed st Hatt Htype). simpl.
  rewrite emitted_add_effects. fold result.
  split; [done|]. split; [done|]. split.
  - apply Forall_app. split; apply send_all_one_message.
  - intros s Hs. unfold attempted. rewrite omap_app.
    unfold viewers, others, machines. rewrite filter_both.
    rewrite !send_all_per_socket.
    rewrite !addressed_per_socket; auto using sends_on_single.
    simpl. rewrite Nat.eqb_refl, orb_true_r. simpl.
    destruct (has_role "viewer" s) eqn:Hv.
    + by rewrite (viewer_is_no_machine s Hv).
    + simpl. by destruct (has_role "machine" s && _).
Qed.

Lemma delivery_report_broadcast_witness :
  attempted 0
    (emitted Scenario.viewer_and_machine
       (snd (webSocketMessage (Scenario.machine_socket 1 "m1" (Some "Box"))
               (Text (Some Scenario.report)) Scenario.viewer_and_machine)))
  = [ DeliveryResult
        {| dr_eventId := Some (JStr "e1");
           dr_deliveryId := Some (JStr "d1");
           dr_machineId := "m1";
           dr_machineName := "Box";
           dr_status := Some (JStr "delivered");
           dr_responseStatus := Some (JNum 200);
           dr_responseBody := None;
           dr_error := None;
           dr_duration := None |} ].
Proof.
  refine (proj2 (proj2 (proj2
    (delivery_report_broadcast Scenario.viewer_and_machine
       (Scenario.machine_socket 1 "m1" (Some "Box")) _ Scenario.report
       eq_refl eq_refl nodup_viewer_and_machine)))
    (Scenario.viewer_socket 0) _).
  vm_compute. by left.
Defined.

(** ** Malformed frames *)

(** The one frame on which the handler does not return: the JSON text
    [null], whose [type] cannot be read. *)
Lemma webSocketMessage_null ws st :
  webSocketMessage ws (Text (Some JNull)) st = (Threw, st).
Proof. reflexivity. Qed.

(** C9: a frame that is not a string, is not valid JSON, or has no
    [type] equal to [delivery-report] leaves the actor exactly as it
    was: nothing is sent, the registry is unchanged and no socket is
    closed; for a frame that is not a string or not valid JSON the
    handler returns. *)
Theorem malformed_message_dropped ws message st :
  (message = Binary \/ message = Text None \/
   exists parsed, message = Text (Some parsed) /\
     get_prop parsed "type" <> Returned (Some (JStr "delivery-report"))) ->
  snd (webSocketMessage ws message st) = st
  /\ (message = Binary \/ message = Text None ->
      webSocketMessage ws message st = (Returned tt, st)).
Proof.
  intros Hbad. split.
  - apply webSocketMessage_ignored. intros parsed ->.
    destruct Hbad as [?|[?|(p & [= <-] & Hp)]]; done.
  - by intros [->| ->].
Qed.

Lemma malformed_message_dropped_witness :
  snd (webSocketMessage (Scenario.machine_socket 1 "m1" (Some "Box"))
         (Text (Some (JObj [("type", JStr "ping")])))
         Scenario.viewer_and_machine)
  = Scenario.viewer_and_machine.
Proof.
  refine (proj1 (malformed_message_dropped
                   (Scenario.machine_socket 1 "m1" (Some "Box"))
                   (Text (Some (JObj [("type", JStr "ping")])))
                   Scenario.viewer_and_machine _)).
  right. right. eexists. split; [reflexivity|]. simpl. discriminate.
Defined.

(** ** The scenarios of the specification *)

(** Scenario B: a viewer connects, then the machine [m1]: the viewer is
    told that [m1] is online. *)
Example scenario_viewer_then_machine :
  received 0 (effects Scenario.viewer_and_machine)
  = [online_status "m1" "Box"].
Proof. reflexivity. Qed.

(** Scenario C: with [m1] connected, a broadcast whose deliveries record
    maps [m1] to [d1] sends [m1] the webhook message with that id. *)
Example scenario_broadcast_to_machine :
  handleBroadcast (Scenario.payload {[ "m1" := "d1" ]}) Scenario.one_machine
  = (Returned 1,
     add_effects Scenario.one_machine
       [Send 0 (webhook_message (Scenario.payload {[ "m1" := "d1" ]})
                  (OwnId "d1")) true]).
Proof. vm_compute. reflexivity. Qed.

(** Scenario E: [m1] disconnects: the viewer is told that it is offline and
    the registry lists no machine any more. *)
Example scenario_machine_disconnects :
  let after :=
    run [Close (Scenario.machine_socket 1 "m1" (Some "Box")) 1000 ""]
        Scenario.viewer_and_machine in
  received 0 (emitted Scenario.viewer_and_machine after)
  = [offline_status "m1" "Box"]
  /\ machines after = []
  /\ fst (getConnectedMachines after) = Returned [].
Proof. vm_compute. done. Qed.

End RelayFacts.

(** * From the webhook message to the viewer's delivery result *)

Module RoundTripFacts.
Import EndpointDO.

Lemma received_send_all v m l es :
  In v l -> ws_open v = true ->
  In m (received (ws_id v) (send_all m l ++ es)).
Proof.
  intros Hin Hopen. unfold received. rewrite omap_app.
  apply in_or_app. left.
  induction l as [|w l IH]; [done|]. destruct Hin as [->|Hin].
  - cbn [send_all map omap list_omap addressed].
    rewrite Nat.eqb_refl, Hopen. by left.
  - cbn [send_all map omap list_omap].
    destruct (addressed true (ws_id v) _); [right|]; by apply IH.
Qed.

(** C6: the machine client answers a webhook message with a delivery
    report; the delivery-result message that the actor then sends to a
    viewer, and the ids the viewer files it under, are the event id and
    the delivery id of the webhook message. *)
Theorem webhook_report_round_trip
    (w : WebhookEventMessage) (deliveryId : string)
    (forward : Json -> MachineClient.ForwardResult)
    (st : DOState) (ws : WebSocket) (att : WsAttachment) (v : WebSocket) :
  wh_deliveryId w = OwnId deliveryId ->
  ws_attachment ws = Some att ->
  In v (viewers st) ->
  ws_open v = true ->
  exists report result,
    MachineClient.on_message forward true (Wire.stringify (Webhook w))
      = Returned [report]
    /\ In (DeliveryResult result)
          (received (ws_id v)
             (emitted st (snd (webSocketMessage ws report st))))
    /\ dr_eventId result = Some (JStr (wh_eventId w))
    /\ dr_deliveryId result = Some (JStr deliveryId)
    /\ ViewerClient.result_ids (Wire.stringify (DeliveryResult result))
       = Some (Some (JStr (wh_eventId w)), Some (JStr deliveryId)).
Proof.
  intros Hid Hatt Hv Hopen.
  set (parsed := JObj (stringify_object
         [ ("type", of_string "webhook");
           ("eventId", of_string (wh_eventId w));
           ("deliveryId", Wire.delivery_ref (wh_deliveryId w));
           ("method", of_string (wh_method w));
           ("headers", of_string (wh_headers w));
           ("body", of_nullable (wh_body w));
           ("query", of_nullable (wh_query w));
           ("contentType", of_nullable (wh_contentType w));
           ("sourceIp", of_nullable (wh_sourceIp w));
           ("createdAt", of_string (wh_createdAt w)) ])).
  set (report := MachineClient.delivery_report parsed (forward parsed)).
  assert (Hevent : field report "eventId" = Some (JStr (wh_eventId w)))
    by reflexivity.
  assert (Hdelivery : field report "deliveryId" = Some (JStr deliveryId)).
  { unfold report, parsed. rewrite Hid. reflexivity. }
  exists (Text (Some report)).
  eexists {| dr_eventId := field report "eventId";
             dr_deliveryId := field report "deliveryId" |}.
  split; [reflexivity|]. split; [|split; [|split]].
  - rewrite (RelayFacts.webSocketMessage_report ws att report st Hatt)
      by reflexivity.
    simpl. rewrite RelayFacts.emitted_add_effects.
    by apply received_send_all.
  - exact Hevent.
  - exact Hdelivery.
  - rewrite Hevent, Hdelivery. reflexivity.
Qed.

Lemma webhook_report_round_trip_witness :
  exists report result,
    MachineClient.on_message
      (fun _ => {| MachineClient.fr_duration := 12;
                   MachineClient.fr_error := None;
                   MachineClient.fr_responseBody := Some "ok";
                   MachineClient.fr_responseStatus := Some 200%Z;
                   MachineClient.fr_status := MachineClient.delivered |})
      true
      (Wire.stringify
         (webhook_message (Scenario.payload {[ "m1" := "d1" ]})
            (OwnId "d1")))
      = Returned [report]
    /\ In (DeliveryResult result)
          (received 0
             (emitted Scenario.viewer_and_machine
                (snd (webSocketMessage
                        (Scenario.machine_socket 1 "m1" (Some "Box"))
                        report Scenario.viewer_and_machine))))
    /\ dr_eventId result = Some (JStr "e1")
    /\ dr_deliveryId result = Some (JStr "d1")
    /\ ViewerClient.result_ids (Wire.stringify (DeliveryResult result))
       = Some (Some (JStr "e1"), Some (JStr "d1")).
Proof.
  refine (webhook_report_round_trip
            {| wh_eventId := "e1"; wh_deliveryId := OwnId "d1";
               wh_method := "POST"; wh_headers := "{}";
               wh_body := Some "{}"; wh_query := None;
               wh_contentType := Some "application/json";
               wh_sourceIp := None;
               wh_createdAt := "2026-02-19T00:00:00.000Z" |}
            "d1" _ Scenario.viewer_and_machine
            (Scenario.machine_socket 1 "m1" (Some "Box")) _
            (Scenario.viewer_socket 0) eq_refl eq_refl _ eq_refl).
  vm_compute. by left.
Defined.

End RoundTripFacts.

(** * Properties of the machine client *)

Module MachineFacts.
Import MachineClient.

(** ** The name pattern *)

Lemma digit_is_dot c : is_digit c = true -> is_dot c = true.
Proof.
  destruct c as [[] [] [] [] [] [] [] []]; vm_compute; congruence.
Qed.

Lemma digit_is_no_dash c : is_digit c = true -> c <> "-"%char.
Proof.
  destruct c as [[] [] [] [] [] [] [] []]; vm_compute; congruence.
Qed.

Lemma dash_is_dot : is_dot "-" = true.
Proof. reflexivity. Qed.

Lemma dash_digits_of_digits s : all_digits s = true -> dash_digits s = false.
Proof.
  destruct s as [|c s]; [done|]. simpl. intros H.
  apply andb_prop in H as [Hc _]. apply digit_is_no_dash in Hc.
  destruct c as [[] [] [] [] [] [] [] []]; try done.
Qed.

(** A run of digits has no hyphen to split at. *)
Lemma no_match_in_digits s :
  all_digits s = true -> MACHINE_NAME_SUFFIX_RE s = None.
Proof.
  induction s as [|c s IH]; [done|]. simpl. intros H.
  apply andb_prop in H as [Hc Hs].
  rewrite (digit_is_dot c Hc), (IH Hs), (dash_digits_of_digits s Hs). done.
Qed.

Lemma dash_digits_spec s :
  dash_digits s = true <->
  exists digits, digits <> "" /\ all_digits digits = true
                 /\ s = "-" +:+ digits.
Proof.
  split.
  - destruct s as [|c [|d ds]]; try done.
    + simpl. by destruct c as [[] [] [] [] [] [] [] []].
    + intros H. assert (c = "-"%char) as ->.
      { simpl in H. by destruct c as [[] [] [] [] [] [] [] []]. }
      exists (String d ds). by repeat split.
  - intros (digits & Hne & Hd & ->). destruct digits as [|d ds]; done.
Qed.

(** The first capture group is [g] exactly when the name is [g], a
    hyphen and a non-empty run of digits, for a non-empty [g] without
    line terminators. *)
Lemma MACHINE_NAME_SUFFIX_RE_spec name g :
  MACHINE_NAME_SUFFIX_RE name = Some g <->
  g <> "" /\ all_dot g = true /\
  exists digits, digits <> "" /\ all_digits digits = true
                 /\ name = g +:+ "-" +:+ digits.
Proof.
  split.
  - revert g. induction name as [|c rest IH]; [done|]. simpl. intros g.
    destruct (is_dot c) eqn:Hc; [|done].
    destruct (MACHINE_NAME_SUFFIX_RE rest) as [g'|] eqn:Hrest.
    + intros [= <-].
      destruct (IH g' eq_refl) as (_ & Hdots & digits & ? & ? & ->).
      split; [done|]. split; [by simpl; rewrite Hc|].
      by exists digits.
    + destruct (dash_digits rest) eqn:Hdd; [|done]. intros [= <-].
      apply dash_digits_spec in Hdd as (digits & ? & ? & ->).
      split; [done|]. split; [by simpl; rewrite Hc|].
      by exists digits.
  - intros (Hne & Hdots & digits & Hdne & Hd & ->).
    induction g as [|c g IH]; [done|].
    change (String c g +:+ "-" +:+ digits)
      with (String c (g +:+ "-" +:+ digits)).
    simpl in *.
    apply andb_prop in Hdots as [Hc Hdots]. rewrite Hc.
    destruct g as [|c' g'].
    + change ("" +:+ "-" +:+ digits) with (String "-" digits).
      simpl. rewrite (no_match_in_digits digits Hd).
      rewrite (dash_digits_of_digits digits Hd).
      destruct digits as [|d ds]; [done|]. simpl in *. by rewrite Hd.
    + by rewrite IH.
Qed.

Lemma own_machine_spec baseName m :
  own_machine baseName m = true <->
  m_name m = baseName \/
  (baseName <> "" /\ all_dot baseName = true /\
   exists digits, digits <> "" /\ all_digits digits = true
                  /\ m_name m = baseName +:+ "-" +:+ digits).
Proof.
  unfold own_machine.
  destruct (String.eqb (m_name m) baseName) eqn:Heq.
  - apply String.eqb_eq in Heq. tauto.
  - apply String.eqb_neq in Heq.
    destruct (MACHINE_NAME_SUFFIX_RE (m_name m)) as [g|] eqn:Hre.
    + apply MACHINE_NAME_SUFFIX_RE_spec in Hre. split.
      * intros ->%String.eqb_eq. by right.
      * intros [?|(Hne & Hdots & Hex)]; [done|].
        apply MACHINE_NAME_SUFFIX_RE_spec in Hre.
        assert (Hb : MACHINE_NAME_SUFFIX_RE (m_name m) = Some baseName)
          by (by apply MACHINE_NAME_SUFFIX_RE_spec).
        rewrite Hre in Hb. injection Hb as ->. apply String.eqb_refl.
    + split; [done|]. intros [?|(Hne & Hdots & Hex)]; [done|].
      assert (Hb : MACHINE_NAME_SUFFIX_RE (m_name m) = Some baseName)
        by (by apply MACHINE_NAME_SUFFIX_RE_spec).
      congruence.
Qed.

(** ** Machine resolution *)

Lemma find_first {X} (f : X -> bool) l x :
  List.find f l = Some x ->
  exists before after,
    l = before ++ x :: after /\ f x = true
    /\ Forall (fun y => f y = false) before.
Proof.
  induction l as [|y l IH]; [done|]. simpl.
  destruct (f y) eqn:Hy.
  - intros [= <-]. by exists [], l.
  - intros H. destruct (IH H) as (before & after & -> & Hx & Hb).
    exists (y :: before), after. repeat split; [done|]. by constructor.
Qed.

Lemma find_none_iff {X} (f : X -> bool) l :
  List.find f l = None <-> Forall (fun y => f y = false) l.
Proof.
  induction l as [|y l IH]; simpl.
  - split; [constructor|done].
  - destruct (f y) eqn:Hy.
    + split; [done|]. intros H. inversion H. congruence.
    + rewrite IH. split; [by constructor|]. intros H. by inversion H.
Qed.

(** C7 (as stated, refuted): with no record known for the endpoint the
    matching partition is empty, and the record registered is named by
    the base name alone, not by the base name suffixed with [-1]. *)
Lemma first_machine_keeps_base_name :
  ownMachines (fun _ => []) "ep1" "box" = []
  /\ findOrCreateMachine "box.local" (fun _ => []) "ep1"
       "http://localhost:3000" None
     = Registered "ep1" "box" "http://localhost:3000"
  /\ String.eqb "box" ("box" +:+ "-" +:+ pretty (0 + 1)%nat) = false.
Proof. vm_compute. done. Qed.

(** C7 (amended): the matching partition holds the known records whose
    name is the base name B, or B followed by a hyphen and one or more
    digits (B non-empty and without line breaks).  If a record of the
    partition is offline the first such record is reused, with an update
    of its forward URL only when that differs from the requested one,
    and nothing is registered; if none is offline and the partition is
    not empty, a record named B-(count+1) is registered; if the
    partition is empty, a record named B is registered. *)
Theorem findOrCreateMachine_resolution
    (hostname : string) (fetchMachines : string -> list Machine)
    (endpointId forwardUrl : string) (nameOverride : option string) :
  let baseName := nullish nameOverride (getMachineName hostname) in
  let own := ownMachines fetchMachines endpointId baseName in
  let resolution :=
    findOrCreateMachine hostname fetchMachines endpointId forwardUrl
      nameOverride in
  (forall m, In m own <->
     In m (fetchMachines endpointId) /\
     (m_name m = baseName \/
      (baseName <> "" /\ all_dot baseName = true /\
       exists digits, digits <> "" /\ all_digits digits = true
                      /\ m_name m = baseName +:+ "-" +:+ digits)))
  /\ (Exists (fun m => m_status m = "offline") own ->
      exists before offlineMachine after,
        own = before ++ offlineMachine :: after
        /\ Forall (fun m => m_status m <> "offline") before
        /\ m_status offlineMachine = "offline"
        /\ resolution
           = if String.eqb (m_forwardUrl offlineMachine) forwardUrl
             then Reused offlineMachine
             else Updated (m_id offlineMachine) forwardUrl)
  /\ (Forall (fun m => m_status m <> "offline") own -> own <> [] ->
      resolution
      = Registered endpointId
          (baseName +:+ "-" +:+ pretty (List.length own + 1)%nat)
          forwardUrl)
  /\ (own = [] -> resolution = Registered endpointId baseName forwardUrl).
Proof.
  intros baseName own resolution.
  split; [|split; [|split]].
  - intros m. unfold own, ownMachines. rewrite filter_In.
    by rewrite own_machine_spec.
  - intros Hex.
    destruct (List.find (fun m => String.eqb (m_status m) "offline") own)
      as [offlineMachine|] eqn:Hfind.
    + destruct (find_first _ _ _ Hfind) as (before & after & Hown & Hoff & Hb).
      exists before, offlineMachine, after.
      split; [done|]. split; [|split].
      * eapply Forall_impl; [exact Hb|]. simpl.
        intros m Hm. by apply String.eqb_neq.
      * by apply String.eqb_eq.
      * unfold resolution, findOrCreateMachine. fold baseName. fold own.
        rewrite Hfind.
        by destruct (String.eqb (m_forwardUrl offlineMachine) forwardUrl).
    + exfalso. apply find_none_iff in Hfind.
      apply Exists_exists in Hex as (m & Hm & Hoff).
      rewrite Forall_forall in Hfind. specialize (Hfind m Hm).
      simpl in Hfind. apply String.eqb_neq in Hfind. done.
  - intros Hnone Hne.
    unfold resolution, findOrCreateMachine. fold baseName. fold own.
    assert (Hfind : List.find (fun m => String.eqb (m_status m) "offline")
                              own = None).
    { apply find_none_iff. eapply Forall_impl; [exact Hnone|]. simpl.
      intros m Hm. by apply String.eqb_neq. }
    rewrite Hfind. destruct own; [done|]. done.
  - intros Hempty.
    unfold resolution, findOrCreateMachine. fold baseName. fold own.
    by rewrite Hempty.
Qed.

(** ** Local forwarding *)

Lemma substring_prefix_length n s :
  String.length (substring 0 n s) <= n.
Proof.
  revert s. induction n as [|n IH]; intros [|c s]; simpl; try lia.
  specialize (IH s). lia.
Qed.

Lemma truncate_length body :
  (Z.of_nat (String.length (truncate body)) <= 10000)%Z.
Proof.
  unfold truncate.
  destruct (10000 <? Z.of_nat (String.length body))%Z eqn:Hlen.
  - pose proof (substring_prefix_length (Z.to_nat 10000) body). lia.
  - apply Z.ltb_ge in Hlen. lia.
Qed.






End MachineFacts.

(** * The clients' reconnection *)

Module ReconnectFacts.

(** Every timer the viewer hook sets waits 3000 ms. *)
Lemma viewer_delays_constant es :
  forall h,
    Forall (fun d => d = 3000%Z) (ViewerClient.timers h) ->
    Forall (fun d => d = 3000%Z)
           (ViewerClient.timers (ViewerClient.run es h)).
Proof.
  induction es as [|e es IH]; intros h Hh; [done|].
  simpl. apply IH. destruct e; simpl; try done.
  apply Forall_app. split; [done|]. by repeat constructor.
Qed.

(** The monitor of the machine client sets no timer at all. *)
Lemma monitor_sets_no_timer m :
  MachineClient.mon_timers (MachineClient.on_close m)
    = MachineClient.mon_timers m
  /\ MachineClient.mon_timers (MachineClient.on_error m)
    = MachineClient.mon_timers m.
Proof. done. Qed.

(** C8 (the code departs from the claim): a viewer hook that connects,
    loses its socket and then fails to reconnect twice waits 3000 ms
    before each attempt, where the claim has 1, 2 and 4 units; the
    machine client's monitor, on losing its socket, schedules no
    reconnect. *)
Theorem reconnect_delays_do_not_back_off :
  ViewerClient.timers
    (ViewerClient.run
       [ ViewerClient.Opened; ViewerClient.Closed;
         ViewerClient.TimerFired; ViewerClient.Closed;
         ViewerClient.TimerFired; ViewerClient.Closed ]
       (ViewerClient.connect ViewerClient.mounted))
  = [3000; 3000; 3000]%Z
  /\ MachineClient.mon_timers
       (MachineClient.on_close
          (MachineClient.on_open
             {| MachineClient.mon_connected := false;
                MachineClient.mon_wsStatus := "connecting...";
                MachineClient.mon_timers := [] |}))
     = [].
Proof. split; reflexivity. Qed.

End ReconnectFacts.

(** * Further properties of the relay actor *)

Module ActorFacts.
Import EndpointDO Actor RelayFacts.

(** ** What every reachable registry looks like *)

Lemma identified_accepted request st :
  truthy_opt (q_role request) && truthy (nullish (q_userId request) "") = true ->
  identified (accepted_socket request st).
Proof.
  intros [Hrole Huser]%andb_prop. eexists. split; [reflexivity|]. simpl.
  split; [|done]. by destruct (q_role request).
Qed.

Lemma identified_step st c :
  Forall identified (sockets st) -> Forall identified (sockets (step st c)).
Proof.
  intros Hs. destruct c as [request|payload|ws message|ws code reason|ws|id];
    simpl.
  - destruct (truthy_opt (q_role request)
              && truthy (nullish (q_userId request) "")) eqn:Hok;
      [|by rewrite upgrade_rejected].
    rewrite upgrade_accepted by done. simpl.
    apply Forall_app. split; [done|].
    constructor; [by apply identified_accepted | constructor].
  - by rewrite handleBroadcast_effects.
  - by destruct (webSocketMessage_cases ws message st)
      as [->|(att & parsed & ->)].
  - rewrite webSocketClose_effects. simpl. unfold others.
    rewrite List.Forall_forall in *. intros w [Hw _]%filter_In. by apply Hs.
  - rewrite webSocketError_effects. simpl. unfold others.
    rewrite List.Forall_forall in *. intros w [Hw _]%filter_In. by apply Hs.
  - simpl. apply Forall_map. eapply Forall_impl; [exact Hs|].
    intros w Hw. by destruct (Nat.eqb (ws_id w) id).
Qed.

Lemma identified_run cs :
  forall st, Forall identified (sockets st) ->
             Forall identified (sockets (run cs st)).
Proof.
  induction cs as [|c cs IH]; intros st Hst; [done|].
  simpl. by apply IH, identified_step.
Qed.

(** X1: in every state the actor reaches from its initial state, whatever
    the order of upgrades, broadcasts, messages, closes and errors, no two
    registered sockets share an identity, every identity is below the
    next one to hand out, and every registered socket carries an
    attachment with a non-empty role and a non-empty user id. *)
Theorem reachable_registry st :
  reachable st ->
  List.NoDup (map ws_id (sockets st))
  /\ Forall (fun ws => ws_id ws < next_ws st) (sockets st)
  /\ Forall identified (sockets st).
Proof.
  intros Hst. destruct (reachable_registry_ok st Hst) as (Hnd & Hbelow & _).
  split; [done|]. split; [done|].
  destruct Hst as [cs ->]. apply identified_run. constructor.
Qed.

Lemma reachable_registry_witness :
  List.NoDup (map ws_id (sockets Scenario.viewer_and_machine))
  /\ Forall (fun ws => ws_id ws < next_ws Scenario.viewer_and_machine)
            (sockets Scenario.viewer_and_machine)
  /\ Forall identified (sockets Scenario.viewer_and_machine).
Proof.
  apply (reachable_registry Scenario.viewer_and_machine).
  by eexists.
Defined.

(** X2: on a socket of a reachable registry the message handler returns
    for every frame but one: the JSON text [null], on which it throws;
    whether it returns or throws, a frame that is no delivery report
    leaves the whole state as it was, and no frame at all changes the
    registry. *)
Theorem message_handler_throws_only_on_null st ws message :
  reachable st ->
  In ws (sockets st) ->
  (message <> Text (Some JNull) ->
   fst (webSocketMessage ws message st) = Returned tt)
  /\ (message = Text (Some JNull) ->
      webSocketMessage ws message st = (Threw, st))
  /\ ((forall parsed, message = Text (Some parsed) ->
        get_prop parsed "type" <> Returned (Some (JStr "delivery-report"))) ->
      snd (webSocketMessage ws message st) = st)
  /\ sockets (snd (webSocketMessage ws message st)) = sockets st
  /\ next_ws (snd (webSocketMessage ws message st)) = next_ws st.
Proof.
  intros Hst Hin. split; [|split; [by intros ->|split]].
  2: { apply webSocketMessage_ignored. }
  2: { by destruct (webSocketMessage_cases ws message st)
         as [->|(att & parsed & ->)]. }
  intros Hnull.
  assert (Hid : identified ws).
  { destruct Hst as [cs ->].
    pose proof (identified_run cs init (List.Forall_nil _)) as Hall.
    rewrite List.Forall_forall in Hall. by apply Hall. }
  destruct Hid as (att & Hatt & _).
  destruct message as [|[parsed|]]; [done| |done]. simpl.
  destruct parsed; try done. simpl.
  destruct (is_string _ "delivery-report"); [|done].
  rewrite Hatt. unfold bind.
  rewrite broadcastToViewers_effects.
  by rewrite broadcastToMachines_effects.
Qed.

Lemma message_handler_throws_only_on_null_witness :
  fst (webSocketMessage (Scenario.machine_socket 1 "m1" (Some "Box"))
         (Text (Some Scenario.report)) Scenario.viewer_and_machine)
  = Returned tt.
Proof.
  refine (proj1 (message_handler_throws_only_on_null
                   Scenario.viewer_and_machine
                   (Scenario.machine_socket 1 "m1" (Some "Box"))
                   (Text (Some Scenario.report)) _ _) _).
  - by eexists.
  - vm_compute. right. by left.
  - discriminate.
Defined.

(** ** Requests *)

Lemma guard_loop (l : list WebSocket) st :
  Forall (fun ws => has_role "machine" ws = true) l ->
  for_of l (fun ws =>
    match ws_attachment ws with
    | None => throw
    | Some attachment =>
        match att_machineId attachment with
        | None => ret tt
        | Some machineId =>
            if negb (truthy machineId) then ret tt else throw
        end
    end) st
  = if existsb has_machineId l then (Threw, st) else (Returned tt, st).
Proof.
  induction 1 as [|ws l Hrole _ IH]; [done|].
  cbn [for_of existsb]. unfold bind at 1. unfold has_machineId at 1.
  unfold has_role in Hrole.
  destruct (ws_attachment ws) as [att|]; [|done].
  destruct (att_machineId att) as [machineId|]; simpl; [|exact IH].
  destruct (truthy machineId); simpl; [done|exact IH].
Qed.

Lemma handleBroadcast_without_deliveries_result st :
  handleBroadcast_without_deliveries st
  = if existsb has_machineId (machines st) then (Threw, st)
    else (Returned (List.length (machines st)), st).
Proof.
  unfold handleBroadcast_without_deliveries, getMachineWebSockets,
    getWebSockets, bind, ret.
  fold (machines st). rewrite guard_loop.
  - by destruct (existsb has_machineId (machines st)).
  - apply List.Forall_forall. by intros ws [_ ?]%filter_In.
Qed.

(** X3: [fetch] throws exactly when a broadcast's body is not JSON, or
    has no deliveries to index while a machine socket with a machine id is
    registered, and then nothing has changed.  Otherwise it answers: a
    request answered with anything but 101 leaves the registry as it
    was, and is answered 400 exactly when it is an upgrade whose role or
    user id is missing or empty, in which case nothing at all changes; a
    request answered 101 is an upgrade that added exactly one socket,
    open, under the next free identity, with the attachment read off the
    query. *)
Theorem fetch_changes_registry_only_on_101 request st :
  exists outcome st',
    fetch request st = (outcome, st')
    /\ (outcome = Threw <->
        req_pathname request = "/broadcast"
        /\ req_method request = "POST"
        /\ (req_json request = NotJson
            \/ (req_json request = WithoutDeliveries
                /\ existsb has_machineId (machines st) = true)))
    /\ (outcome = Threw -> st' = st)
    /\ forall reply, outcome = Returned reply ->
        (reply_status reply <> 101%Z ->
         sockets st' = sockets st /\ next_ws st' = next_ws st)
        /\ (reply_status reply = 400%Z <->
            req_pathname request = "/websocket"
            /\ truthy_opt (q_role (req_query request))
               && truthy (nullish (q_userId (req_query request)) "") = false)
        /\ (reply_status reply = 400%Z -> st' = st)
        /\ (reply_status reply = 101%Z ->
            req_pathname request = "/websocket"
            /\ reply = UpgradeReply {| resp_status := 101;
                                       resp_webSocket := Some (next_ws st) |}
            /\ sockets st' = sockets st ++ [accepted_socket (req_query request) st]
            /\ next_ws st' = S (next_ws st)).
Proof.
  unfold fetch.
  destruct (String.eqb (req_pathname request) "/websocket") eqn:Hpath.
  - apply String.eqb_eq in Hpath. unfold bind.
    destruct (truthy_opt (q_role (req_query request))
              && truthy (nullish (q_userId (req_query request)) "")) eqn:Hok.
    + rewrite upgrade_accepted by done. eexists _, _. split; [reflexivity|].
      split; [|split; [done|]].
      { split; [done|]. intros [Hp _]. by rewrite Hpath in Hp. }
      intros reply [= <-]. simpl. repeat split; try done. by intros [_ ?].
    + rewrite upgrade_rejected by done. eexists _, _. split; [reflexivity|].
      split; [|split; [done|]].
      { split; [done|]. intros [Hp _]. by rewrite Hpath in Hp. }
      intros reply [= <-]. simpl. repeat split; try done.
  - apply String.eqb_neq in Hpath.
    destruct (String.eqb (req_pathname request) "/broadcast") eqn:Hb.
    2: { eexists _, _. split; [reflexivity|]. apply String.eqb_neq in Hb.
         split; [|split; [done|]].
         { split; [done|]. by intros [? _]. }
         intros reply [= <-]. simpl. repeat split; try done.
         by intros [? _]. }
    apply String.eqb_eq in Hb.
    destruct (String.eqb (req_method request) "POST") eqn:Hm; simpl.
    2: { eexists _, _. split; [reflexivity|]. apply String.eqb_neq in Hm.
         split; [|split; [done|]].
         { split; [done|]. by intros (_ & ? & _). }
         intros reply [= <-]. simpl. repeat split; try done.
         by intros [? _]. }
    apply String.eqb_eq in Hm.
    destruct (req_json request) as [| |payload] eqn:Hbody.
    + eexists _, _. split; [reflexivity|].
      split; [|split; [done|done]].
      split; [|done]. intros _. repeat split; try done. by left.
    + unfold bind. rewrite handleBroadcast_without_deliveries_result.
      destruct (existsb has_machineId (machines st)) eqn:Hany.
      * eexists _, _. split; [reflexivity|].
        split; [|split; [done|done]].
        split; [|done]. intros _. repeat split; try done. by right.
      * eexists _, _. split; [reflexivity|].
        split; [|split; [done|]].
        { split; [done|]. by intros (_ & _ & [?|[_ ?]]). }
        intros reply [= <-]. simpl. repeat split; try done.
        by intros [? _].
    + unfold bind. rewrite handleBroadcast_effects.
      eexists _, _. split; [reflexivity|].
      split; [|split; [done|]].
      { split; [done|]. by intros (_ & _ & [?|[? _]]). }
      intros reply [= <-]. simpl. repeat split; try done.
      by intros [? _].
Qed.

(** ** Presence *)

Lemma attempted_send_all f m l ws :
  List.NoDup (map ws_id l) ->
  In ws l ->
  attempted (ws_id ws) (send_all m (List.filter f l))
  = if f ws then [m] else [].
Proof.
  intros Hnd Hin. unfold attempted. rewrite send_all_per_socket.
  rewrite addressed_per_socket; auto using sends_on_single.
  destruct (f ws); [|done]. simpl. by rewrite Nat.eqb_refl, orb_true_r.
Qed.

Lemma attempted_send_all_foreign f m l id :
  ~ In id (map ws_id l) ->
  attempted id (send_all m (List.filter f l)) = [].
Proof.
  intros Hid. unfold attempted. rewrite send_all_per_socket.
  apply addressed_foreign; auto using sends_on_single.
Qed.

(** X4: when a machine connects with a non-empty machine id and machine
    name, every viewer of the registry is sent exactly one online
    machine-status message with that id and name, and nothing is sent to
    any other socket, the newcomer included; when the id or the name is
    missing or empty, nothing is sent to anyone. *)
Theorem machine_upgrade_announces_to_viewers request st :
  registry_ok st ->
  q_role request = Some "machine" ->
  truthy (nullish (q_userId request) "") = true ->
  let sent := emitted st (snd (handleWebSocketUpgrade request st)) in
  let announced :=
    truthy_opt (q_machineId request) && truthy_opt (q_machineName request) in
  (forall ws, In ws (sockets st) ->
     attempted (ws_id ws) sent
     = if has_role "viewer" ws && announced
       then [online_status (nullish (q_machineId request) "")
                           (nullish (q_machineName request) "")]
       else [])
  /\ attempted (next_ws st) sent = []
  /\ (announced = false -> sent = []).
Proof.
  intros (Hnd & Hbelow & _) Hrole Huser sent announced. subst sent.
  rewrite upgrade_accepted by (by rewrite Hrole, Huser). simpl.
  unfold emitted. simpl. rewrite drop_app_length.
  unfold upgrade_effects. rewrite Hrole. simpl. rewrite app_nil_r.
  fold announced. destruct announced.
  - split; [|split; [|done]].
    + intros ws Hin. unfold viewers. rewrite attempted_send_all by done.
      by rewrite andb_true_r.
    + unfold viewers. apply attempted_send_all_foreign.
      intros (w & Hid & Hw)%in_map_iff.
      rewrite List.Forall_forall in Hbelow. specialize (Hbelow w Hw).
      simpl in Hbelow. lia.
  - split; [|done]. intros ws _. by rewrite andb_false_r.
Qed.

Lemma machine_upgrade_announces_to_viewers_witness :
  attempted 0
    (emitted (run [Upgrade Scenario.viewer_request] init)
       (snd (handleWebSocketUpgrade
               {| q_role := Some "machine"; q_machineId := Some "m1";
                  q_machineName := Some "Box"; q_userId := Some "u1" |}
               (run [Upgrade Scenario.viewer_request] init))))
  = [online_status "m1" "Box"].
Proof.
  refine (proj1 (machine_upgrade_announces_to_viewers
                   {| q_role := Some "machine"; q_machineId := Some "m1";
                      q_machineName := Some "Box"; q_userId := Some "u1" |}
                   (run [Upgrade Scenario.viewer_request] init)
                   _ eq_refl eq_refl)
            (Scenario.viewer_socket 0) _).
  - apply reachable_registry_ok. by eexists.
  - vm_compute. by left.
Defined.

(** X5: [getConnectedMachines] changes nothing and lists, in registry
    order, exactly the machines whose presence a viewer connecting at that
    moment is told: the online messages the upgrade handler sends the new
    viewer are those of the listed entries, and every listed entry has a
    non-empty id and a non-empty name. *)
Theorem connected_machines_are_the_snapshot request st :
  q_role request = Some "viewer" ->
  truthy (nullish (q_userId request) "") = true ->
  exists listed,
    getConnectedMachines st = (Returned listed, st)
    /\ received (next_ws st)
         (emitted st (snd (handleWebSocketUpgrade request st)))
       = map presence_of listed
    /\ Forall (fun entry => fst entry <> "" /\ snd entry <> "") listed.
Proof.
  intros Hrole Huser. eexists. split; [reflexivity|].
  rewrite upgrade_accepted by (by rewrite Hrole, Huser). simpl.
  unfold emitted. simpl. rewrite drop_app_length.
  unfold upgrade_effects. rewrite Hrole. simpl.
  rewrite received_own. unfold snapshot. fold (machines st).
  induction (machines st) as [|w l [IH1 IH2]]; [by split|].
  simpl. unfold named at 1. unfold named at 1 in IH1.
  destruct (ws_attachment w) as [att|] eqn:Hatt; [|done].
  destruct (truthy_opt (att_machineId att)
            && truthy_opt (att_machineName att)) eqn:Hnamed; [|done].
  simpl. split.
  - f_equal; [|done]. unfold snapshot_message. by rewrite Hatt.
  - constructor; [|done]. simpl.
    apply andb_prop in Hnamed as [Hid Hname].
    destruct (att_machineId att) as [i|]; [|done].
    destruct (att_machineName att) as [n|]; [|done].
    simpl in *. by split; apply truthy_nonempty.
Qed.

Lemma connected_machines_are_the_snapshot_witness :
  exists listed,
    getConnectedMachines Scenario.one_machine
      = (Returned listed, Scenario.one_machine)
    /\ received 1
         (emitted Scenario.one_machine
            (snd (handleWebSocketUpgrade Scenario.viewer_request
                    Scenario.one_machine)))
       = map presence_of listed
    /\ Forall (fun entry => fst entry <> "" /\ snd entry <> "") listed.
Proof.
  exact (connected_machines_are_the_snapshot Scenario.viewer_request
           Scenario.one_machine eq_refl eq_refl).
Defined.

(** ** After a disconnect *)

Lemma within_send_all f m l n :
  targets_within l n (send_all m (List.filter f l)).
Proof.
  unfold targets_within, send_all. apply Forall_map, List.Forall_forall.
  intros ws [Hin _]%filter_In. simpl. left. by apply in_map.
Qed.

Lemma within_fanout payload f l n :
  targets_within l n (concat (map (fanout payload) (List.filter f l))).
Proof.
  unfold targets_within. rewrite concat_filter_per_socket. unfold per_socket.
  apply Forall_concat, Forall_map, List.Forall_forall. intros ws Hin.
  destruct (f ws); [|constructor]. unfold fanout.
  destruct (target payload ws); [|constructor].
  constructor; [|constructor]. simpl. left. by apply in_map.
Qed.

Lemma within_offline_effects ws st :
  targets_within (sockets st) (next_ws st) (offline_effects ws st).
Proof.
  unfold offline_effects. destruct (ws_attachment ws); [|constructor].
  destruct (_ && _); [|constructor]. apply within_send_all.
Qed.

Lemma filter_ids_subset (f : WebSocket -> bool) l id :
  In id (map ws_id (List.filter f l)) -> In id (map ws_id l).
Proof.
  intros (w & <- & [Hw _]%filter_In)%in_map_iff. by apply in_map.
Qed.

(** One handler call sends only on sockets of the registry it starts from,
    or on the socket it accepts, and adds no identity but that one. *)
Lemma step_frame st c :
  exists es,
    effects (step st c) = effects st ++ es
    /\ targets_within (sockets st) (next_ws st) es
    /\ next_ws st <= next_ws (step st c)
    /\ (forall id, In id (map ws_id (sockets (step st c))) ->
          In id (map ws_id (sockets st)) \/ id = next_ws st).
Proof.
  destruct c as [request|payload|ws message|ws code reason|ws|id]; simpl.
  - destruct (truthy_opt (q_role request)
              && truthy (nullish (q_userId request) "")) eqn:Hok.
    + rewrite upgrade_accepted by done. simpl. eexists. split; [done|].
      split; [|split; [lia|]].
      * unfold upgrade_effects. apply Forall_app. split.
        -- destruct (String.eqb _ "machine" && _ && _); [|constructor].
           apply within_send_all.
        -- destruct (String.eqb _ "viewer"); [|constructor].
           apply Forall_map, List.Forall_forall. intros m _. simpl. by right.
      * intros id. rewrite map_app, in_app_iff. simpl.
        intros [?|[?|[]]]; [by left | by right].
    + rewrite upgrade_rejected by done. simpl. exists [].
      rewrite app_nil_r. split; [done|]. split; [constructor|].
      split; [lia|]. intros id Hid. by left.
  - rewrite handleBroadcast_effects. simpl. eexists. split; [done|].
    split; [apply within_fanout|]. split; [lia|]. intros id Hid. by left.
  - destruct (webSocketMessage_cases ws message st)
      as [->|(att & parsed & ->)].
    + exists []. rewrite app_nil_r. split; [done|]. split; [constructor|].
      split; [lia|]. intros id Hid. by left.
    + simpl. eexists. split; [done|].
      split; [|split; [lia|intros id Hid; by left]].
      apply Forall_app. split; [apply within_send_all|].
      unfold others, machines. rewrite filter_both. apply within_send_all.
  - rewrite webSocketClose_effects. simpl. eexists. split; [done|].
    split; [|split; [lia|]].
    + apply Forall_app. split; [apply within_offline_effects|].
      by repeat constructor.
    + intros id Hid. left. by eapply filter_ids_subset.
  - rewrite webSocketError_effects. simpl. eexists. split; [done|].
    split; [|split; [lia|]].
    + apply Forall_app. split; [apply within_offline_effects|].
      by repeat constructor.
    + intros id Hid. left. by eapply filter_ids_subset.
  - exists []. rewrite app_nil_r. split; [done|]. split; [constructor|].
    split; [lia|]. intros i Hi. left. rewrite map_map in Hi.
    erewrite map_ext in Hi; [exact Hi|]. intros w. simpl.
    by destruct (Nat.eqb (ws_id w) id).
Qed.

Lemma attempted_outside l n es id :
  targets_within l n es -> ~ In id (map ws_id l) -> id <> n ->
  attempted id es = [].
Proof.
  intros Hes Hid Hn. unfold attempted.
  induction Hes as [|e es He _ IH]; [done|]. simpl.
  destruct e as [to m d|]; simpl; [|done].
  destruct (Nat.eqb to id) eqn:Hto; [|done].
  apply Nat.eqb_eq in Hto. subst. tauto.
Qed.

Lemma run_extends_effects cs :
  forall st, exists es, effects (run cs st) = effects st ++ es.
Proof.
  induction cs as [|c cs IH]; intros st; simpl.
  - exists []. by rewrite app_nil_r.
  - destruct (step_frame st c) as (es & Hes & _).
    destruct (IH (step st c)) as (es' & Hes').
    exists (es ++ es'). unfold run in *. by rewrite Hes', Hes, app_assoc.
Qed.

Lemma gone_stays_gone cs :
  forall st id,
    ~ In id (map ws_id (sockets st)) -> id < next_ws st ->
    attempted id (emitted st (run cs st)) = [].
Proof.
  induction cs as [|c cs IH]; intros st id Hid Hbelow.
  - simpl. unfold emitted. by rewrite drop_all.
  - simpl. destruct (step_frame st c) as (es & Hes & Hwithin & Hnext & Hids).
    destruct (run_extends_effects cs (step st c)) as (es' & Hes').
    assert (Hnone : attempted id es' = []).
    { specialize (IH (step st c) id). unfold emitted in IH.
      rewrite Hes', drop_app_length in IH. apply IH; [|lia].
      intros Hin. destruct (Hids id Hin); [done|lia]. }
    unfold emitted, run in *. rewrite Hes', Hes, <- app_assoc.
    rewrite drop_app_length. unfold attempted in *. rewrite omap_app.
    fold (attempted id es). rewrite (attempted_outside _ _ es id Hwithin);
      [by rewrite Hnone | done | lia].
Qed.

(** X6: once the close callback, or the error callback, has run for a
    socket, the actor never again tries to send on it, whatever is called
    afterwards: upgrades hand out new identities, and every loop goes over
    the registry, which the socket has left. *)
Theorem closed_socket_is_never_sent_to st ws code reason cs :
  ws_id ws < next_ws st ->
  (let closed := snd (webSocketClose ws code reason st) in
   ~ In (ws_id ws) (map ws_id (sockets closed))
   /\ attempted (ws_id ws) (emitted closed (run cs closed)) = [])
  /\ (let errored := snd (webSocketError ws st) in
      ~ In (ws_id ws) (map ws_id (sockets errored))
      /\ attempted (ws_id ws) (emitted errored (run cs errored)) = []).
Proof.
  intros Hbelow.
  assert (Hgone : ~ In (ws_id ws) (map ws_id (others ws (sockets st)))).
  { intros (w & Hid & [_ Hw]%filter_In)%in_map_iff.
    apply negb_true_iff, Nat.eqb_neq in Hw. done. }
  rewrite webSocketClose_effects, webSocketError_effects. simpl.
  split; (split; [done|]); by apply gone_stays_gone.
Qed.

Lemma closed_socket_is_never_sent_to_witness :
  attempted 1
    (emitted
       (snd (webSocketClose (Scenario.machine_socket 1 "m1" (Some "Box"))
               1000 "" Scenario.viewer_and_machine))
       (run [Broadcast (Scenario.payload {[ "m1" := "d1" ]})]
          (snd (webSocketClose (Scenario.machine_socket 1 "m1" (Some "Box"))
                  1000 "" Scenario.viewer_and_machine))))
  = [].
Proof.
  refine (proj2 (proj1 (closed_socket_is_never_sent_to
                          Scenario.viewer_and_machine
                          (Scenario.machine_socket 1 "m1" (Some "Box"))
                          1000 ""
                          [Broadcast (Scenario.payload {[ "m1" := "d1" ]})]
                          _))).
  vm_compute. lia.
Defined.

(** ** The fan-out *)

Lemma addressed_fanout b payload st ws :
  List.NoDup (map ws_id (sockets st)) ->
  In ws (sockets st) ->
  omap (addressed b (ws_id ws))
       (emitted st (snd (handleBroadcast payload st)))
  = if has_role "machine" ws
    then match target payload ws with
         | Some deliveryId =>
             if ws_open ws || negb b
             then [webhook_message payload deliveryId] else []
         | None => []
         end
    else [].
Proof.
  intros Hnd Hin. rewrite handleBroadcast_effects. simpl.
  rewrite emitted_add_effects. unfold machines.
  rewrite concat_filter_per_socket.
  rewrite addressed_per_socket; auto using sends_on_fanout.
  destruct (has_role "machine" ws); [|done].
  unfold fanout. destruct (target payload ws); [|done].
  simpl. rewrite Nat.eqb_refl. simpl.
  by destruct (ws_open ws || negb b).
Qed.

Lemma target_own payload ws att machineId deliveryId :
  ws_attachment ws = Some att ->
  att_machineId att = Some machineId -> machineId <> "" ->
  bp_deliveries payload !! machineId = Some deliveryId -> deliveryId <> "" ->
  target payload ws = Some (OwnId deliveryId).
Proof.
  intros Hatt Hid Hne Hd Hdne. unfold target, record_get.
  rewrite Hatt, Hid, Hd. apply truthy_nonempty in Hne, Hdne.
  rewrite Hne. simpl. by rewrite Hdne.
Qed.

(** X7: the fan-out always returns and leaves the registry as it was; a
    registered machine socket whose machine id is non-empty and has a
    non-empty delivery id in the deliveries record is sent its webhook
    message exactly once, and the message goes through whenever that
    socket is open, whatever the state of the other sockets: a send that
    throws on a dead socket stops nothing. *)
Theorem fanout_reaches_every_open_target
    payload st ws att machineId deliveryId :
  List.NoDup (map ws_id (sockets st)) ->
  In ws (sockets st) ->
  ws_attachment ws = Some att ->
  att_role att = "machine" ->
  att_machineId att = Some machineId -> machineId <> "" ->
  bp_deliveries payload !! machineId = Some deliveryId -> deliveryId <> "" ->
  let after := handleBroadcast payload st in
  fst after = Returned (List.length (machines st))
  /\ sockets (snd after) = sockets st
  /\ attempted (ws_id ws) (emitted st (snd after))
     = [webhook_message payload (OwnId deliveryId)]
  /\ received (ws_id ws) (emitted st (snd after))
     = if ws_open ws then [webhook_message payload (OwnId deliveryId)]
       else [].
Proof.
  intros Hnd Hin Hatt Hrole Hid Hne Hd Hdne after. subst after.
  assert (Hmachine : has_role "machine" ws = true).
  { unfold has_role. rewrite Hatt, Hrole. reflexivity. }
  pose proof (target_own payload ws att machineId deliveryId
                Hatt Hid Hne Hd Hdne) as Htarget.
  split; [by rewrite handleBroadcast_effects|].
  split; [by rewrite handleBroadcast_effects|].
  unfold attempted, received. rewrite !addressed_fanout by done.
  rewrite Hmachine, Htarget. simpl. rewrite orb_true_r, orb_false_r. done.
Qed.

Lemma fanout_reaches_every_open_target_witness :
  received 0
    (emitted Scenario.one_machine
       (snd (handleBroadcast (Scenario.payload {[ "m1" := "d1" ]})
               Scenario.one_machine)))
  = [webhook_message (Scenario.payload {[ "m1" := "d1" ]}) (OwnId "d1")].
Proof.
  refine (proj2 (proj2 (proj2
    (fanout_reaches_every_open_target
       (Scenario.payload {[ "m1" := "d1" ]}) Scenario.one_machine
       (Scenario.machine_socket 0 "m1" (Some "Box")) _ "m1" "d1"
       nodup_one_machine _ eq_refl eq_refl eq_refl _ eq_refl _)))).
  - vm_compute. by left.
  - discriminate.
  - discriminate.
Defined.

Lemma length_fanout payload l :
  List.length (concat (map (fanout payload) l))
  = List.length (List.filter (fun ws => bool_decide (is_Some (target payload ws))) l).
Proof.
  induction l as [|w l IH]; [done|]. simpl. rewrite length_app, IH.
  unfold fanout. by destruct (target payload w).
Qed.

(** X8: the count the fan-out returns is never smaller than the number
    of sends it attempted: it is the number of machine sockets, and the
    sends are as many as the machine sockets that pass the guards (a
    non-empty machine id with a non-empty entry in the deliveries
    record); the two agree when every machine socket passes them. *)
Theorem sent_bounds_the_sends payload st :
  exists n st',
    handleBroadcast payload st = (Returned n, st')
    /\ n = List.length (machines st)
    /\ List.length (emitted st st')
       = List.length
           (List.filter (fun ws => bool_decide (is_Some (target payload ws)))
                        (machines st))
    /\ List.length (emitted st st') <= n
    /\ ((forall ws, In ws (machines st) -> is_Some (target payload ws)) ->
        List.length (emitted st st') = n).
Proof.
  rewrite handleBroadcast_effects. eexists _, _. split; [reflexivity|].
  rewrite emitted_add_effects, length_fanout.
  split; [done|]. split; [done|]. split.
  - apply List.filter_length_le.
  - intros Hall. f_equal. apply filter_all.
    apply List.Forall_forall. intros ws Hws. by apply bool_decide_true, Hall.
Qed.

(** ** Who is sent what *)

Lemma in_send_all to m d m' l :
  In (Send to m d) (send_all m' l) ->
  m = m' /\ exists ws, In ws l /\ ws_id ws = to.
Proof.
  unfold send_all. intros (ws & [= <- <- <-] & Hin)%in_map_iff.
  split; [done|]. by exists ws.
Qed.

Lemma webhook_sends st c to w delivered :
  In (Send to (Webhook w) delivered) (emitted st (step st c)) ->
  exists payload ws,
    c = Broadcast payload
    /\ In ws (sockets st)
    /\ has_role "machine" ws = true
    /\ has_role "viewer" ws = false
    /\ ws_id ws = to
    /\ wh_eventId w = bp_eventId payload.
Proof.
  destruct c as [request|payload|ws message|ws code reason|ws|id]; simpl.
  - destruct (truthy_opt (q_role request)
              && truthy (nullish (q_userId request) "")) eqn:Hok.
    + rewrite upgrade_accepted by done. unfold emitted. simpl.
      rewrite drop_app_length. unfold upgrade_effects.
      intros [Hin|Hin]%in_app_iff.
      * destruct (_ && _ && _); [|done].
        by apply in_send_all in Hin as [? _].
      * destruct (String.eqb _ "viewer"); [|done].
        apply in_map_iff in Hin as (m & [= _ -> _] & Hm).
        unfold snapshot in Hm. apply in_map_iff in Hm as (x & Hx & _).
        unfold snapshot_message in Hx. by destruct (ws_attachment x).
    + rewrite upgrade_rejected by done. unfold emitted. simpl.
      by rewrite drop_all.
  - rewrite handleBroadcast_effects. simpl. rewrite emitted_add_effects.
    intros (es & (ws & <- & Hws)%in_map_iff & Hin)%in_concat.
    apply filter_In in Hws as [Hws Hrole].
    unfold fanout in Hin. destruct (target payload ws); [|done].
    destruct Hin as [[= <- <- <-]|[]].
    exists payload, ws. repeat split; try done.
    unfold has_role in *. destruct (ws_attachment ws); [|done].
    by eapply eqb_other_role.
  - destruct (webSocketMessage_cases ws message st)
      as [->|(att & parsed & ->)].
    + unfold emitted. by rewrite drop_all.
    + rewrite emitted_add_effects.
      by intros [[? _]%in_send_all|[? _]%in_send_all]%in_app_iff.
  - rewrite webSocketClose_effects. unfold emitted. simpl.
    rewrite drop_app_length. intros [Hin|[?|[]]]%in_app_iff; [|done].
    unfold offline_effects in Hin. destruct (ws_attachment ws); [|done].
    destruct (_ && _); [|done]. by apply in_send_all in Hin as [? _].
  - rewrite webSocketError_effects. unfold emitted. simpl.
    rewrite drop_app_length. intros [Hin|[?|[]]]%in_app_iff; [|done].
    unfold offline_effects in Hin. destruct (ws_attachment ws); [|done].
    destruct (_ && _); [|done]. by apply in_send_all in Hin as [? _].
  - unfold emitted. simpl. by rewrite drop_all.
Qed.

(** X9: a webhook message is only ever sent by the fan-out, on a socket
    of the registry whose role is machine, and it carries the event id of
    the payload being fanned out; upgrades, delivery reports, closes and
    errors send no webhook message, and no viewer socket is ever sent
    one. *)
Theorem webhook_only_on_machine_sockets st c to w delivered :
  In (Send to (Webhook w) delivered) (emitted st (step st c)) ->
  exists payload ws,
    c = Broadcast payload
    /\ In ws (sockets st)
    /\ has_role "machine" ws = true
    /\ has_role "viewer" ws = false
    /\ ws_id ws = to
    /\ wh_eventId w = bp_eventId payload.
Proof. apply webhook_sends. Qed.

Lemma webhook_only_on_machine_sockets_witness :
  exists payload ws,
    Broadcast (Scenario.payload {[ "m1" := "d1" ]}) = Broadcast payload
    /\ In ws (sockets Scenario.one_machine)
    /\ has_role "machine" ws = true
    /\ has_role "viewer" ws = false
    /\ ws_id ws = 0
    /\ "e1" = bp_eventId payload.
Proof.
  refine (webhook_only_on_machine_sockets Scenario.one_machine
            (Broadcast (Scenario.payload {[ "m1" := "d1" ]})) 0
            {| wh_eventId := "e1"; wh_deliveryId := OwnId "d1";
               wh_method := "POST"; wh_headers := "{}";
               wh_body := Some "{}"; wh_query := None;
               wh_contentType := Some "application/json";
               wh_sourceIp := None;
               wh_createdAt := "2026-02-19T00:00:00.000Z" |}
            true _).
  vm_compute. by left.
Defined.

End ActorFacts.

(** * Properties of the terminal client *)

Module TuiFacts.
Import MachineClient Tui.

(** ** The command line *)

Lemma scan_flags_step arg next rest forwardUrl machineName :
  scan_flags (arg :: next :: rest) forwardUrl machineName
  = if is_forward_flag arg && truthy next
    then scan_flags rest (Some next) machineName
    else if is_machine_flag arg && truthy next
    then scan_flags rest forwardUrl (Some next)
    else scan_flags (next :: rest) forwardUrl machineName.
Proof. reflexivity. Qed.

Lemma follows_here flag before f v after :
  flag f = true -> follows flag v (before ++ f :: v :: after).
Proof. intros Hf. by exists before, f, after. Qed.

Lemma scan_flags_sound n :
  forall rest before forwardUrl machineName,
    List.length rest <= n ->
    found is_forward_flag forwardUrl (before ++ rest) ->
    found is_machine_flag machineName (before ++ rest) ->
    found is_forward_flag
          (fst (scan_flags rest forwardUrl machineName)) (before ++ rest)
    /\ found is_machine_flag
             (snd (scan_flags rest forwardUrl machineName)) (before ++ rest).
Proof.
  induction n as [|n IH]; intros rest before f m Hlen Hf Hm.
  - destruct rest; [done|simpl in Hlen; lia].
  - destruct rest as [|arg [|next rest'']]; [done|done|].
    simpl in Hlen. rewrite scan_flags_step.
    destruct (is_forward_flag arg && truthy next) eqn:Hfwd.
    + apply andb_prop in Hfwd as [Hflag Hnext].
      replace (before ++ arg :: next :: rest'')
        with ((before ++ [arg; next]) ++ rest'') in *
        by (by rewrite <- app_assoc).
      apply IH; [lia| |done].
      intros v [= <-]. split; [by apply RelayFacts.truthy_nonempty|].
      rewrite <- app_assoc. by apply follows_here.
    + destruct (is_machine_flag arg && truthy next) eqn:Hmach.
      * apply andb_prop in Hmach as [Hflag Hnext].
        replace (before ++ arg :: next :: rest'')
          with ((before ++ [arg; next]) ++ rest'') in *
          by (by rewrite <- app_assoc).
        apply IH; [lia|done|].
        intros v [= <-]. split; [by apply RelayFacts.truthy_nonempty|].
        rewrite <- app_assoc. by apply follows_here.
      * replace (before ++ arg :: next :: rest'')
          with ((before ++ [arg]) ++ next :: rest'') in *
          by (by rewrite <- app_assoc).
        apply IH; [simpl; lia|done|done].
Qed.

(** X10: the client starts in direct mode only when the first argument
    is a non-empty endpoint slug other than [login] and a non-empty
    forward URL stands right after a [--forward] or [-f] among the
    remaining arguments; a machine name, when one is given, is non-empty
    and stands right after a [--machine] or [-m]. *)
Theorem direct_mode_needs_slug_and_forward args slug forwardUrl machineName :
  bootstrap (parseArgs args) = DirectMode slug forwardUrl machineName ->
  exists rest,
    args = slug :: rest
    /\ slug <> "" /\ slug <> "login"
    /\ forwardUrl <> ""
    /\ follows is_forward_flag forwardUrl rest
    /\ (forall name, machineName = Some name ->
          name <> "" /\ follows is_machine_flag name rest).
Proof.
  destruct args as [|first rest]; [done|]. unfold parseArgs.
  destruct (String.eqb first "login") eqn:Hlogin; [done|].
  apply String.eqb_neq in Hlogin.
  destruct (scan_flags_sound (List.length rest) rest [] None None)
    as [Hf Hm]; [done|done|done|].
  destruct (scan_flags rest None None) as [f m]. simpl in Hf, Hm.
  destruct (truthy_opt f) eqn:Hfu; [|done]. simpl.
  destruct (truthy first) eqn:Hslug; [|done]. simpl. rewrite Hfu.
  intros [= <- <- <-]. exists rest.
  destruct f as [url|]; [|done]. destruct (Hf url eq_refl) as [Hne Hfol].
  split; [done|]. split; [by apply RelayFacts.truthy_nonempty|].
  repeat split; try done; by apply Hm.
Qed.

Lemma direct_mode_needs_slug_and_forward_witness :
  exists rest,
    [ "my-endpoint"; "-m"; "box"; "--forward"; "http://localhost:3000" ]
      = "my-endpoint" :: rest
    /\ "my-endpoint" <> "" /\ "my-endpoint" <> "login"
    /\ "http://localhost:3000" <> ""
    /\ follows is_forward_flag "http://localhost:3000" rest
    /\ (forall name, Some "box" = Some name ->
          name <> "" /\ follows is_machine_flag name rest).
Proof.
  exact (direct_mode_needs_slug_and_forward
           [ "my-endpoint"; "-m"; "box"; "--forward";
             "http://localhost:3000" ]
           "my-endpoint" "http://localhost:3000" (Some "box") eq_refl).
Defined.

(** ** Colours *)

(** X11: once the machine's own forward has settled, the status of the
    event is shown green exactly when the forward is reported
    [delivered] and red exactly when it is reported [failed], so never
    dimmed and never yellow, which is the colour of an event whose result
    is still pending: [statusColor] is applied to delivered results
    only, and a delivered forward has a status from 200 to 299. *)
Theorem own_forward_is_shown_green_or_red
    (JSON_parse : string -> option Json)
    (url_host : string -> Try string)
    (fetch : string -> RequestInit -> Try FetchResponse)
    (startTime endTime : Z) (destructure_null : string)
    (mach : Machine) (webhookMsg : WebhookMessage) :
  let result :=
    forwardWebhookLocally JSON_parse url_host fetch startTime endTime
      destructure_null (m_forwardUrl mach) webhookMsg in
  let shown := statusFg (Some (own_result mach webhookMsg result)) in
  (shown = COLORS_green <-> fr_status result = delivered)
  /\ (shown = COLORS_red <-> fr_status result = failed)
  /\ shown <> COLORS_yellow
  /\ shown <> COLORS_textDim
  /\ statusFg None = COLORS_yellow.
Proof.
  intros result shown. unfold shown, statusFg, own_result. simpl.
  unfold result, forwardWebhookLocally.
  destruct (send_request _ _ _ _ _ _) as [res|err]; simpl; [|done].
  unfold res_ok.
  destruct (200 <=? res_status res)%Z eqn:Hlo;
    destruct (res_status res <=? 299)%Z eqn:Hhi; simpl; try done.
  assert (Hlt : (res_status res <? 300)%Z = true) by lia.
  by rewrite Hlt.
Qed.

(** ** Screens *)

Section NavigationFacts.

Context {Endpoint Machine MonitorEvent : Type}.

Lemma equipped_rendered (a : App Endpoint Machine MonitorEvent) :
  equipped a -> rendered a = Some (app_screen a).
Proof.
  unfold equipped, rendered. destruct (app_screen a); try done.
  - by intros [? ->].
  - by intros [[? ->] [? ->]].
  - by intros (_ & _ & [? ->]).
Qed.

Lemma mount_equipped (initialEndpoint : option Endpoint)
    (initialMachine : option Machine) (authCookies : option string) :
  equipped (mount MonitorEvent initialEndpoint initialMachine authCookies).
Proof.
  unfold equipped, mount, getStartScreen.
  destruct initialEndpoint, initialMachine; simpl;
    try (destruct (truthy_opt authCookies); done).
Qed.

Lemma mount_settled (initialEndpoint : option Endpoint)
    (initialMachine : option Machine) (authCookies : option string) :
  settled (mount MonitorEvent initialEndpoint initialMachine authCookies).
Proof.
  unfold settled, mount, getStartScreen.
  destruct initialEndpoint, initialMachine; simpl;
    try (destruct (truthy_opt authCookies); done).
  split; [done|]. intros _. repeat split; try done. by left.
Qed.

(** While no register is under way, every action keeps the selected
    screen equipped. *)
Lemma act_equipped (a : App Endpoint Machine MonitorEvent) action :
  is_submit_register action = false ->
  equipped a /\ pendingRegister a = 0 ->
  equipped (act a action) /\ pendingRegister (act a action) = 0.
Proof.
  intros Hno [Ha Hp]. pose proof (equipped_rendered a Ha) as Hr.
  unfold act. rewrite Hr, Hp. unfold equipped in *.
  destruct action, (app_screen a) eqn:Hs; simpl; rewrite ?Hs; try done;
    repeat match goal with
           | |- context [if ?b then _ else _] =>
               destruct b; simpl; rewrite ?Hs
           end; try done; try tauto; eauto;
    try (destruct Ha as (? & ? & ?); repeat split; eauto).
Qed.

Lemma navigate_equipped actions :
  forallb (fun action => negb (is_submit_register action)) actions = true ->
  forall a : App Endpoint Machine MonitorEvent,
    equipped a /\ pendingRegister a = 0 ->
    equipped (navigate actions a).
Proof.
  induction actions as [|action actions IH]; intros Hno a Ha.
  - by destruct Ha.
  - simpl in Hno. apply andb_prop in Hno as [Hhere Hno].
    simpl. apply IH; [done|]. apply act_equipped; [|done].
    by destruct (is_submit_register action).
Qed.

Lemma act_settled (a : App Endpoint Machine MonitorEvent) action :
  settled a -> settled (act a action).
Proof.
  intros [Hs Hd]. unfold settled, act, rendered in *.
  destruct (hasDirectMode a) eqn:Hdirect.
  - destruct (Hd eq_refl) as ([ep Hep] & Hsp & Hsi & Hpr & Hscreen).
    clear Hd. destruct Hscreen as [Hm|Hm]; rewrite Hm in Hs |- *.
    + destruct Hs as [m Hmach].
      destruct action; simpl;
        rewrite ?Hep, ?Hmach, ?Hsp, ?Hsi, ?Hpr, ?Hdirect; simpl;
        rewrite ?Hm, ?Hdirect, ?Hep, ?Hmach, ?Hsp, ?Hsi, ?Hpr;
        (split; [eauto|intros _; repeat split; eauto]).
    + destruct Hs as [[m Hmach] [evt Hevt]].
      destruct action; simpl;
        rewrite ?Hep, ?Hmach, ?Hevt, ?Hsp, ?Hsi, ?Hpr, ?Hdirect; simpl;
        rewrite ?Hm, ?Hdirect, ?Hep, ?Hmach, ?Hevt, ?Hsp, ?Hsi, ?Hpr;
        (split; [eauto|intros _; repeat split; eauto]).
  - clear Hd.
    assert (Hfree : forall P : Prop, false = true -> P) by done.
    destruct action, (app_screen a) eqn:Hscreen; simpl;
      repeat match goal with
             | |- context [match selectedEndpoint a with _ => _ end] =>
                 destruct (selectedEndpoint a) eqn:?; simpl
             | |- context [match selectedMachine a with _ => _ end] =>
                 destruct (selectedMachine a) eqn:?; simpl
             | |- context [match selectedEvent a with _ => _ end] =>
                 destruct (selectedEvent a) eqn:?; simpl
             | |- context [if signingIn a then _ else _] =>
                 destruct (signingIn a) eqn:?; simpl
             | |- context [if sessionPending a then _ else _] =>
                 destruct (sessionPending a) eqn:?; simpl
             | |- context [match pendingRegister a with _ => _ end] =>
                 destruct (pendingRegister a) eqn:?; simpl
             | |- context [if ?b then _ else _] => destruct b; simpl
             | |- context [match ?m with Some _ => _ | None => _ end] =>
                 destruct m; simpl
             end;
      rewrite ?Hscreen, ?Hdirect; simpl;
      (split; [|by apply Hfree]);
      try done; try tauto; eauto;
      try (destruct Hs; split; eauto; fail);
      try (exfalso; destruct Hs as [_ [? ?]]; congruence).
Qed.

Lemma navigate_settled actions :
  forall a : App Endpoint Machine MonitorEvent,
    settled a -> settled (navigate actions a).
Proof.
  induction actions as [|action actions IH]; intros a Ha; [done|].
  simpl. by apply IH, act_settled.
Qed.

(** X12: whatever the user does and whenever a promise settles, the
    login, endpoints, set-up and event-detail screens are rendered when
    they are selected.  The monitor is the one screen that can be
    selected without being rendered, and only with no endpoint selected,
    outside direct mode: that takes the continuation of a register that
    settles after the user has left the set-up screen.  In direct mode,
    and as long as no register is submitted, the selected screen is
    always rendered. *)
Theorem only_the_monitor_goes_blank
    (initialEndpoint : option Endpoint) (initialMachine : option Machine)
    (authCookies : option string)
    (actions : list (Action Endpoint Machine MonitorEvent)) :
  let app :=
    navigate actions
      (mount MonitorEvent initialEndpoint initialMachine authCookies) in
  (rendered app = None ->
   app_screen app = monitor_screen
   /\ selectedEndpoint app = None
   /\ is_Some (selectedMachine app)
   /\ hasDirectMode app = false)
  /\ (hasDirectMode app = true -> rendered app = Some (app_screen app))
  /\ (forallb (fun action => negb (is_submit_register action)) actions
      = true ->
      rendered app = Some (app_screen app)).
Proof.
  intros app.
  assert (Hs : settled app).
  { apply navigate_settled, mount_settled. }
  assert (Hblank : rendered app = None ->
            app_screen app = monitor_screen
            /\ selectedEndpoint app = None
            /\ is_Some (selectedMachine app)
            /\ hasDirectMode app = false).
  { destruct Hs as [Hscreen Hdirect]. unfold rendered.
    destruct (app_screen app) eqn:Hsc; try done.
    - by destruct Hscreen as [? ->].
    - destruct Hscreen as [m Hm]. rewrite Hm.
      destruct (selectedEndpoint app) eqn:Hep; [done|]. intros _.
      split; [done|]. split; [done|]. split; [by eexists|].
      destruct (hasDirectMode app); [|done].
      by destruct (Hdirect eq_refl) as ([? ?] & _).
    - by destruct Hscreen as [_ [? ->]]. }
  split; [done|]. split.
  - intros Hdirect. destruct (rendered app) eqn:Hr.
    + revert Hr. unfold rendered. destruct (app_screen app); try done.
      * by destruct (selectedEndpoint app).
      * by destruct (selectedEndpoint app), (selectedMachine app).
      * by destruct (selectedEvent app).
    + destruct (Hblank eq_refl) as (_ & _ & _ & Hno). congruence.
  - intros Hno. apply equipped_rendered. apply navigate_equipped; [done|].
    split; [apply mount_equipped|done].
Qed.

End NavigationFacts.

(** The blank monitor is reached: after signing in, the user picks an
    endpoint, submits a new machine and leaves the set-up screen before
    the register settles. *)
Example late_register_blanks_the_monitor :
  rendered
    (navigate [SubmitLogin; SignedIn true; OnSelectEndpoint 7;
               SubmitRegister; SetupBack; Registered (Some 3)]
       (mount nat (@None nat) (@None nat) None))
  = None.
Proof. reflexivity. Qed.


(** ** The event list of the monitor *)

Lemma with_result_twice e r r' :
  with_result (with_result e r) r' = with_result e r'.
Proof. done. Qed.

(** X13: the machine's own result and another machine's result for the
    same event may arrive in either order: the event list ends up the
    same, every event with the delivery id of the forward shows the
    machine's own result, and no update adds, drops or reorders events. *)
Theorem own_result_wins_in_either_order
    (mach : Machine) (webhookMsg : WebhookMessage) (result : ForwardResult)
    (other : DeliveryView) (events : list MonitorEvent) :
  set_own_result mach webhookMsg result (set_other_result other events)
  = set_other_result other (set_own_result mach webhookMsg result events)
  /\ map me_deliveryId
         (set_own_result mach webhookMsg result
            (set_other_result other events))
     = map me_deliveryId events
  /\ (forall e,
        In e (set_own_result mach webhookMsg result
                (set_other_result other events)) ->
        me_deliveryId e = whm_deliveryId webhookMsg ->
        me_deliveryResult e = Some (own_result mach webhookMsg result)).
Proof.
  unfold set_own_result, set_other_result. split; [|split].
  - rewrite !map_map. apply map_ext. intros e.
    destruct (String.eqb (me_eventId e) (dv_eventId other)) eqn:Hev;
      destruct (me_deliveryResult e) eqn:Hres;
      destruct (String.eqb (me_deliveryId e) (whm_deliveryId webhookMsg))
        eqn:Hdel; simpl; rewrite ?Hev, ?Hres, ?Hdel; simpl; try done.
  - rewrite !map_map. apply map_ext. intros e.
    destruct (String.eqb (me_eventId e) (dv_eventId other) && _);
      simpl; by destruct (String.eqb _ _).
  - intros e Hin Hid. rewrite map_map in Hin.
    apply in_map_iff in Hin as (e0 & <- & _).
    destruct (String.eqb (me_eventId e0) (dv_eventId other) && _);
      simpl in *.
    + destruct (String.eqb (me_deliveryId e0) (whm_deliveryId webhookMsg))
        eqn:Hdel; [done|]. simpl in Hid. by apply String.eqb_neq in Hdel.
    + destruct (String.eqb (me_deliveryId e0) (whm_deliveryId webhookMsg))
        eqn:Hdel; [done|]. by apply String.eqb_neq in Hdel.
Qed.

Lemma own_result_wins_in_either_order_witness :
  me_deliveryResult
    (with_result (sample_event None)
       (own_result sample_machine sample_message sample_result))
  = Some (own_result sample_machine sample_message sample_result).
Proof.
  refine (proj2 (proj2 (own_result_wins_in_either_order
    sample_machine sample_message sample_result sample_other
    [sample_event None]))
    (with_result (sample_event None)
       (own_result sample_machine sample_message sample_result))
    _ eq_refl).
  vm_compute. by left.
Defined.

End TuiFacts.

(** * Further properties of the machine client *)

Module ClientFacts.
Import MachineClient.

(** ** The host name *)

Lemma length_append s t :
  String.length (s +:+ t) = String.length s + String.length t.
Proof.
  induction s as [|c s IH]; [done|].
  change (String c s +:+ t) with (String c (s +:+ t)). simpl. by rewrite IH.
Qed.

Lemma strip_local_suffix s : strip_local (s +:+ ".local") = s.
Proof.
  induction s as [|c s IH]; [done|].
  change (String c s +:+ ".local") with (String c (s +:+ ".local")).
  cbn [strip_local].
  destruct (String.eqb (String c (s +:+ ".local")) ".local") eqn:Heq.
  - apply String.eqb_eq in Heq. apply (f_equal String.length) in Heq.
    cbn [String.length] in Heq. rewrite length_append in Heq. simpl in Heq.
    lia.
  - by rewrite IH.
Qed.

Lemma strip_local_other s :
  (forall prefix, s <> prefix +:+ ".local") -> strip_local s = s.
Proof.
  induction s as [|c s IH]; [done|]. intros Hno. cbn [strip_local].
  destruct (String.eqb (String c s) ".local") eqn:Heq.
  - apply String.eqb_eq in Heq. by destruct (Hno "").
  - f_equal. apply IH. intros prefix ->. by apply (Hno (String c prefix)).
Qed.

(** X14: the machine name taken from the host name is the host name
    without one trailing [.local]: a host name that ends in [.local]
    loses exactly that suffix (a second [.local] before it stays), and
    any other host name, also one with [.local] in the middle, is kept
    as it is. *)
Theorem getMachineName_strips_one_suffix (hostname : string) :
  (forall name, hostname = name +:+ ".local" -> getMachineName hostname = name)
  /\ ((forall name, hostname <> name +:+ ".local") ->
      getMachineName hostname = hostname).
Proof.
  unfold getMachineName. split.
  - intros name ->. apply strip_local_suffix.
  - apply strip_local_other.
Qed.

(** ** Names the resolver registers *)

Lemma pretty_N_char_digit d : is_digit (pretty_N_char d) = true.
Proof. unfold pretty_N_char. repeat case_match; reflexivity. Qed.

Lemma pretty_N_go_digits x :
  forall s, all_digits s = true -> all_digits (pretty_N_go x s) = true.
Proof.
  induction x as [x IH] using (well_founded_induction N.lt_wf_0).
  intros s Hs. destruct (decide (x = 0)%N) as [->|Hx].
  - by rewrite pretty_N_go_0.
  - rewrite pretty_N_go_step by lia. apply IH.
    + apply N.div_lt; lia.
    + simpl. by rewrite pretty_N_char_digit, Hs.
Qed.

Lemma pretty_N_go_nonempty x :
  forall s, s <> "" -> pretty_N_go x s <> "".
Proof.
  induction x as [x IH] using (well_founded_induction N.lt_wf_0).
  intros s Hs. destruct (decide (x = 0)%N) as [->|Hx].
  - by rewrite pretty_N_go_0.
  - rewrite pretty_N_go_step by lia. apply IH; [apply N.div_lt; lia|done].
Qed.

(** A number printed in decimal is a non-empty run of digits. *)
Lemma pretty_nat_digits (n : nat) :
  pretty n <> "" /\ all_digits (pretty n) = true.
Proof.
  unfold pretty, pretty_nat, pretty, pretty_N.
  destruct (decide (N.of_nat n = 0)%N) as [_|Hn]; [done|].
  split.
  - rewrite pretty_N_go_step by lia. by apply pretty_N_go_nonempty.
  - by apply pretty_N_go_digits.
Qed.

Lemma append_prefix_inj (b s t : string) : b +:+ s = b +:+ t -> s = t.
Proof.
  induction b as [|c b IH]; [done|].
  change (String c b +:+ s) with (String c (b +:+ s)).
  change (String c b +:+ t) with (String c (b +:+ t)).
  intros [= H]. by apply IH.
Qed.

Lemma suffixed_is_longer (b s : string) : s <> "" -> b +:+ s <> b.
Proof.
  intros Hs Heq. apply (f_equal String.length) in Heq.
  rewrite length_append in Heq. destruct s; [done|]. simpl in Heq. lia.
Qed.

(** X15: for a base name that is not empty and has no line break, the
    name under which the resolver registers a new record belongs to the
    partition of that base name, so the next resolution counts the new
    record; the record is registered for the endpoint and with the
    forward URL of the call. *)
Theorem registered_name_joins_partition
    (hostname : string) (fetchMachines : string -> list Machine)
    (endpointId forwardUrl : string) (nameOverride : option string)
    (endpoint name url : string) :
  let baseName := nullish nameOverride (getMachineName hostname) in
  baseName <> "" ->
  all_dot baseName = true ->
  findOrCreateMachine hostname fetchMachines endpointId forwardUrl
    nameOverride = Registered endpoint name url ->
  endpoint = endpointId /\ url = forwardUrl
  /\ forall m, m_name m = name -> own_machine baseName m = true.
Proof.
  intros baseName Hne Hdots. unfold findOrCreateMachine. fold baseName.
  destruct (List.find _ _) as [offlineMachine|].
  { by destruct (negb _). }
  intros [= <- <- <-]. split; [done|]. split; [done|].
  intros m Hm. apply MachineFacts.own_machine_spec.
  destruct (0 <? _)%nat; [right|by left].
  split; [done|]. split; [done|].
  destruct (pretty_nat_digits
              (List.length (ownMachines fetchMachines endpointId baseName) + 1))
    as [Hd1 Hd2].
  by eexists.
Qed.

Lemma registered_name_joins_partition_witness :
  "ep1" = "ep1" /\ "http://localhost:3000" = "http://localhost:3000"
  /\ forall m, m_name m = "box-2" -> own_machine "box" m = true.
Proof.
  refine (registered_name_joins_partition "box.local"
            (fun _ => [ {| m_endpointId := "ep1";
                           m_forwardUrl := "http://localhost:3000";
                           m_id := "m1"; m_name := "box";
                           m_status := "online" |} ])
            "ep1" "http://localhost:3000" None
            "ep1" "box-2" "http://localhost:3000" _ _ _); done.
Defined.

(** X16: as long as the records of the partition carry the names the
    resolver itself hands out (the base name, and the base name suffixed
    with 2, 3, ... up to the size of the partition), a newly registered
    record gets a name that no record of the partition has. *)
Theorem registered_name_is_new
    (hostname : string) (fetchMachines : string -> list Machine)
    (endpointId forwardUrl : string) (nameOverride : option string)
    (endpoint name url : string) :
  let baseName := nullish nameOverride (getMachineName hostname) in
  let own := ownMachines fetchMachines endpointId baseName in
  Forall (fun m =>
            m_name m = baseName
            \/ exists k, 2 <= k <= List.length own
                         /\ m_name m = baseName +:+ "-" +:+ pretty k) own ->
  findOrCreateMachine hostname fetchMachines endpointId forwardUrl
    nameOverride = Registered endpoint name url ->
  Forall (fun m => m_name m <> name) own.
Proof.
  intros baseName own Hnames. unfold findOrCreateMachine.
  fold baseName. fold own.
  destruct (List.find _ _) as [offlineMachine|].
  { by destruct (negb _). }
  intros [= <- <- <-].
  destruct (0 <? List.length own)%nat eqn:Hlen.
  - eapply Forall_impl; [exact Hnames|]. simpl.
    intros m [Hm|(k & Hk & Hm)] Heq; rewrite Hm in Heq.
    + symmetry in Heq. revert Heq. by apply suffixed_is_longer.
    + apply append_prefix_inj in Heq. injection Heq as Heq.
      apply (append_prefix_inj "") in Heq.
      apply (inj pretty) in Heq. lia.
  - apply Nat.ltb_ge in Hlen. destruct own; [constructor|simpl in Hlen; lia].
Qed.

Lemma registered_name_is_new_witness :
  Forall (fun m => m_name m <> "box-3")
    (ownMachines
       (fun _ => [ {| m_endpointId := "ep1";
                      m_forwardUrl := "http://localhost:3000";
                      m_id := "m1"; m_name := "box";
                      m_status := "online" |};
                   {| m_endpointId := "ep1";
                      m_forwardUrl := "http://localhost:3000";
                      m_id := "m2"; m_name := "box-2";
                      m_status := "online" |} ])
       "ep1" "box").
Proof.
  refine (registered_name_is_new "box.local"
            (fun _ => [ {| m_endpointId := "ep1";
                           m_forwardUrl := "http://localhost:3000";
                           m_id := "m1"; m_name := "box";
                           m_status := "online" |};
                        {| m_endpointId := "ep1";
                           m_forwardUrl := "http://localhost:3000";
                           m_id := "m2"; m_name := "box-2";
                           m_status := "online" |} ])
            "ep1" "http://localhost:3000" None
            "ep1" "box-3" "http://localhost:3000" _ _).
  - vm_compute. constructor; [by left|]. constructor; [|constructor].
    right. exists 2. split; [lia|done].
  - done.
Defined.

(** ** The request sent to the local server *)

Lemma assoc_set_prop k v o : assoc k (set_prop k v o) = Some v.
Proof.
  induction o as [|[k' v'] o IH]; simpl.
  - by rewrite String.eqb_refl.
  - destruct (String.eqb k k') eqn:Heq; simpl.
    + by rewrite String.eqb_refl.
    + by rewrite Heq.
Qed.

Lemma assoc_set_prop_other k k' v o :
  k <> k' -> assoc k (set_prop k' v o) = assoc k o.
Proof.
  intros Hne. pose proof Hne as Hneb. apply String.eqb_neq in Hneb.
  induction o as [|[k2 v2] o IH]; simpl.
  - by rewrite Hneb.
  - destruct (String.eqb k' k2) eqn:Heq; simpl.
    + apply String.eqb_eq in Heq as <-. by rewrite Hneb.
    + by destruct (String.eqb k k2).
Qed.

Lemma assoc_remove_prop_other k k' o :
  k <> k' -> assoc k (remove_prop k' o) = assoc k o.
Proof.
  intros Hne. pose proof Hne as Hneb. apply String.eqb_neq in Hneb.
  induction o as [|[k2 v2] o IH]; [done|]. simpl.
  destruct (String.eqb k2 k') eqn:Heq; simpl.
  - apply String.eqb_eq in Heq as ->. by rewrite Hneb.
  - by destruct (String.eqb k k2).
Qed.

Lemma in_set_prop k v k' v' o :
  In (k, v) (set_prop k' v' o) -> (k = k' /\ v = v') \/ In (k, v) o.
Proof.
  induction o as [|[k2 v2] o IH]; simpl.
  - intros [[= <- <-]|[]]. by left.
  - destruct (String.eqb k' k2).
    + intros [[= <- <-]|Hin]; [by left|]. right. by right.
    + intros [Heq|Hin]; [right; by left|].
      destruct (IH Hin) as [?|?]; [by left|]. right. by right.
Qed.

Lemma not_in_remove_prop k v o : ~ In (k, v) (remove_prop k o).
Proof.
  unfold remove_prop. intros [_ Hk]%filter_In. simpl in Hk.
  by rewrite String.eqb_refl in Hk.
Qed.

(** X17: when the headers of the webhook message are not the JSON text
    [null] and the forward URL parses, the forward hands [fetch] one and
    the same request whatever [fetch] then does: to the forward URL, with
    the method of the message; its only [host] header is the host of the
    forward URL, not the one the webhook came with; it carries the event
    id and the delivery id of the message; every other header of the
    message is passed on unchanged; and a GET or a HEAD has no body. *)
Theorem forwarded_request
    (JSON_parse : string -> option Json) (url_host : string -> Try string)
    (destructure_null : string) (forwardUrl : string) (msg : WebhookMessage)
    (props : list (string * Json)) (host : string) :
  own_enumerable destructure_null
    (match JSON_parse (whm_headers msg) with
     | Some v => v
     | None => JObj []
     end) = Ok props ->
  url_host forwardUrl = Ok host ->
  exists init,
    (forall fetch,
       send_request JSON_parse url_host fetch destructure_null forwardUrl msg
       = fetch forwardUrl init)
    /\ ri_method init = whm_method msg
    /\ assoc "host" (ri_headers init) = Some (JStr host)
    /\ (forall v, In ("host", v) (ri_headers init) -> v = JStr host)
    /\ assoc "x-tunnelhook-event-id" (ri_headers init)
       = Some (JStr (whm_eventId msg))
    /\ assoc "x-tunnelhook-delivery-id" (ri_headers init)
       = Some (JStr (whm_deliveryId msg))
    /\ (forall k, k <> "host" -> k <> "x-tunnelhook-event-id" ->
                  k <> "x-tunnelhook-delivery-id" ->
                  assoc k (ri_headers init) = assoc k props)
    /\ ri_body init
       = if String.eqb (whm_method msg) "GET"
            || String.eqb (whm_method msg) "HEAD"
         then None else Some (whm_body msg).
Proof.
  intros Hprops Hhost. eexists. split.
  { intros fetch. unfold send_request. rewrite Hprops, Hhost. reflexivity. }
  cbn [ri_method ri_headers ri_body].
  split; [done|]. split; [|split; [|split; [|split; [|split]]]].
  - rewrite !assoc_set_prop_other by done. apply assoc_set_prop.
  - intros v Hin.
    apply in_set_prop in Hin as [[? _]|Hin]; [done|].
    apply in_set_prop in Hin as [[? _]|Hin]; [done|].
    apply in_set_prop in Hin as [[_ ->]|Hin]; [done|].
    by apply not_in_remove_prop in Hin.
  - rewrite assoc_set_prop_other by done. apply assoc_set_prop.
  - apply assoc_set_prop.
  - intros k H1 H2 H3. rewrite !assoc_set_prop_other by done.
    by apply assoc_remove_prop_other.
  - by destruct (String.eqb (whm_method msg) "GET"),
         (String.eqb (whm_method msg) "HEAD").
Qed.

Lemma forwarded_request_witness :
  exists init,
    (forall fetch,
       send_request (fun _ => Some (JObj [("host", JStr "hooks.example.com");
                                          ("x-signature", JStr "abc")]))
         (fun _ => Ok "localhost:3000") fetch "" "http://localhost:3000"
         Tui.sample_message
       = fetch "http://localhost:3000" init)
    /\ ri_method init = "GET"
    /\ assoc "host" (ri_headers init) = Some (JStr "localhost:3000")
    /\ (forall v, In ("host", v) (ri_headers init)
                  -> v = JStr "localhost:3000")
    /\ assoc "x-tunnelhook-event-id" (ri_headers init) = Some (JStr "e1")
    /\ assoc "x-tunnelhook-delivery-id" (ri_headers init) = Some (JStr "d1")
    /\ (forall k, k <> "host" -> k <> "x-tunnelhook-event-id" ->
                  k <> "x-tunnelhook-delivery-id" ->
                  assoc k (ri_headers init)
                  = assoc k [("host", JStr "hooks.example.com");
                             ("x-signature", JStr "abc")])
    /\ ri_body init = None.
Proof.
  refine (forwarded_request
            (fun _ => Some (JObj [("host", JStr "hooks.example.com");
                                  ("x-signature", JStr "abc")]))
            (fun _ => Ok "localhost:3000") "" "http://localhost:3000"
            Tui.sample_message
            [("host", JStr "hooks.example.com"); ("x-signature", JStr "abc")]
            "localhost:3000" eq_refl eq_refl).
Defined.

End ClientFacts.

(** * Properties of the dashboard *)

Module DashboardFacts.
Import EndpointDO Dashboard.

(** ** Keys *)

Lemma same_value_eq a b : same_value a b = true -> a = b.
Proof.
  destruct a as [[| | | | |]|], b as [[| | | | |]|]; simpl; try done.
  - intros H. apply Bool.eqb_prop in H. by subst.
  - intros H. apply Z.eqb_eq in H. by subst.
  - intros H. apply String.eqb_eq in H. by subst.
Qed.

Lemma same_value_sym a b : same_value a b = same_value b a.
Proof.
  destruct a as [[| | | | |]|], b as [[| | | | |]|]; simpl; try done.
  - by destruct b0, b.
  - apply Z.eqb_sym.
  - apply String.eqb_sym.
Qed.

Lemma map_get_set {V} (m : list (JsVal * V)) k v k' :
  map_get (map_set m k v) k'
  = if same_value k k' then Some v else map_get m k'.
Proof.
  induction m as [|[k2 v2] m IH]; simpl; [done|].
  destruct (same_value k2 k) eqn:H2; simpl.
  - apply same_value_eq in H2 as Heq. subst k2.
    destruct (same_value k k') eqn:Hk; [done|]. done.
  - rewrite IH. destruct (same_value k k') eqn:Hk; [|done].
    apply same_value_eq in Hk. subst k'. by rewrite H2.
Qed.

(** ** Delivery results *)

Lemma upsert_cons result x existing :
  same_value (dl_deliveryId x) (dl_deliveryId result) = false ->
  upsert result (x :: existing) = x :: upsert result existing.
Proof.
  intros Hx. unfold upsert. simpl. rewrite Hx.
  by destruct (findIndex _ existing).
Qed.

Lemma upsert_here result x existing :
  same_value (dl_deliveryId x) (dl_deliveryId result) = true ->
  upsert result (x :: existing) = result :: existing.
Proof. intros Hx. unfold upsert. simpl. by rewrite Hx. Qed.

Lemma find_upsert result existing d :
  List.find (fun x => same_value (dl_deliveryId x) d) (upsert result existing)
  = if same_value (dl_deliveryId result) d then Some result
    else List.find (fun x => same_value (dl_deliveryId x) d) existing.
Proof.
  induction existing as [|x l IH]; [done|].
  destruct (same_value (dl_deliveryId x) (dl_deliveryId result)) eqn:Hx.
  - rewrite upsert_here by done. simpl.
    apply same_value_eq in Hx. rewrite Hx.
    by destruct (same_value (dl_deliveryId result) d).
  - rewrite upsert_cons by done. simpl. rewrite IH.
    destruct (same_value (dl_deliveryId x) d) eqn:Hd; [|done].
    destruct (same_value (dl_deliveryId result) d) eqn:Hr; [|done].
    pose proof (same_value_eq _ _ Hr) as Heq. rewrite Heq in Hx. congruence.
Qed.

Lemma filter_upsert_other result existing d :
  same_value (dl_deliveryId result) d = false ->
  List.filter (fun x => same_value (dl_deliveryId x) d) (upsert result existing)
  = List.filter (fun x => same_value (dl_deliveryId x) d) existing.
Proof.
  intros Hr. induction existing as [|x l IH]; simpl.
  - unfold upsert. simpl. by rewrite Hr.
  - destruct (same_value (dl_deliveryId x) (dl_deliveryId result)) eqn:Hx.
    + rewrite upsert_here by done. simpl. rewrite Hr.
      apply same_value_eq in Hx. by rewrite Hx, Hr.
    + rewrite upsert_cons by done. simpl. by rewrite IH.
Qed.

Lemma count_upsert result existing :
  (forall d, List.length
               (List.filter (fun x => same_value (dl_deliveryId x) d) existing)
             <= 1) ->
  forall d, List.length
              (List.filter (fun x => same_value (dl_deliveryId x) d)
                 (upsert result existing)) <= 1.
Proof.
  induction existing as [|x l IH]; intros Hl d.
  - unfold upsert. simpl. destruct (same_value _ d); simpl; lia.
  - assert (Hl' : forall d, List.length
                    (List.filter (fun x => same_value (dl_deliveryId x) d) l)
                  <= 1).
    { intros d'. specialize (Hl d'). simpl in Hl.
      destruct (same_value (dl_deliveryId x) d'); simpl in Hl; lia. }
    specialize (Hl d). simpl in Hl.
    destruct (same_value (dl_deliveryId x) (dl_deliveryId result)) eqn:Hx.
    + rewrite upsert_here by done. simpl.
      apply same_value_eq in Hx. rewrite Hx in Hl.
      destruct (same_value (dl_deliveryId result) d); simpl in *; lia.
    + rewrite upsert_cons by done. simpl.
      destruct (same_value (dl_deliveryId x) d) eqn:Hd; [|by apply IH].
      simpl in *. rewrite filter_upsert_other; [lia|].
      apply same_value_eq in Hd. subst d. by rewrite same_value_sym.
Qed.

Lemma shown_setDeliveries result ds eventId deliveryId :
  shown (setDeliveries result ds) eventId deliveryId
  = if same_value (dl_eventId result) eventId
       && same_value (dl_deliveryId result) deliveryId
    then Some result
    else shown ds eventId deliveryId.
Proof.
  unfold shown, setDeliveries. rewrite map_get_set.
  destruct (same_value (dl_eventId result) eventId) eqn:He; [|done].
  apply same_value_eq in He. subst eventId. rewrite find_upsert.
  destruct (same_value (dl_deliveryId result) deliveryId); [done|]. simpl.
  by destruct (map_get ds (dl_eventId result)).
Qed.

Lemma deliveries_onmessage endpointId paused v data :
  deliveries (onmessage endpointId paused v data)
  = match result_in data with
    | Some result => setDeliveries result (deliveries v)
    | None => deliveries v
    end.
Proof.
  destruct data as [|[msg|]]; try done. simpl.
  destruct (get_prop msg "type") as [type|]; [|done].
  by destruct (is_string type "webhook" && negb paused),
       (is_string type "delivery-result"),
       (is_string type "machine-status").
Qed.

Lemma find_snoc {X} (f : X -> bool) l x :
  List.find f (l ++ [x])
  = match List.find f l with
    | Some y => Some y
    | None => if f x then Some x else None
    end.
Proof. induction l as [|y l IH]; simpl; [done|]. by destruct (f y). Qed.

(** Every list of the map has at most one result per delivery id. *)
Lemma tidy_setDeliveries result ds :
  (forall e results d,
     map_get ds e = Some results ->
     List.length
       (List.filter (fun x => same_value (dl_deliveryId x) d) results) <= 1) ->
  forall e results d,
    map_get (setDeliveries result ds) e = Some results ->
    List.length
      (List.filter (fun x => same_value (dl_deliveryId x) d) results) <= 1.
Proof.
  intros Hds e results d. unfold setDeliveries. rewrite map_get_set.
  destruct (same_value (dl_eventId result) e); [|by apply Hds].
  intros [= <-]. apply count_upsert. intros d'.
  destruct (map_get ds (dl_eventId result)) as [existing|] eqn:Hget.
  - by eapply Hds.
  - simpl. lia.
Qed.

(** X18: for every event id and delivery id, the result the dashboard
    shows after any frames is the last delivery result received under
    those two ids (and what it showed before when none was received);
    and starting from the empty view, no event ever lists two results
    with the same delivery id, however often a result is sent again. *)
Theorem dashboard_shows_latest_result
    (endpointId : string) (paused : bool) (frames : list Frame) :
  (forall v eventId deliveryId,
     shown (deliveries (receive endpointId paused frames v))
           eventId deliveryId
     = match List.find (fun r => same_value (dl_eventId r) eventId
                                 && same_value (dl_deliveryId r) deliveryId)
                       (rev (omap result_in frames)) with
       | Some result => Some result
       | None => shown (deliveries v) eventId deliveryId
       end)
  /\ (forall eventId results deliveryId,
        map_get (deliveries (receive endpointId paused frames empty_view))
                eventId = Some results ->
        List.length
          (List.filter (fun x => same_value (dl_deliveryId x) deliveryId)
                       results) <= 1).
Proof.
  split.
  - induction frames as [|data frames IH]; intros v eventId deliveryId;
      [done|].
    unfold receive in *. cbn [fold_left omap list_omap].
    rewrite IH. rewrite deliveries_onmessage.
    destruct (result_in data) as [result|]; cbn [rev].
    + rewrite find_snoc, shown_setDeliveries.
      destruct (List.find _ (rev (omap result_in frames))); [done|].
      by destruct (_ && _).
    + done.
  - assert (Hgen : forall v,
      (forall e results d,
         map_get (deliveries v) e = Some results ->
         List.length
           (List.filter (fun x => same_value (dl_deliveryId x) d) results)
         <= 1) ->
      forall e results d,
        map_get (deliveries (receive endpointId paused frames v)) e
        = Some results ->
        List.length
          (List.filter (fun x => same_value (dl_deliveryId x) d) results)
        <= 1).
    { induction frames as [|data frames IH]; intros v Hv; [done|].
      unfold receive in *. simpl. apply IH.
      rewrite deliveries_onmessage.
      destruct (result_in data); [by apply tidy_setDeliveries | done]. }
    apply Hgen. by intros e results d.
Qed.

(** ** What a viewer is sent *)

Lemma step_sockets_origin st c ws :
  In ws (sockets (step st c)) ->
  (exists ws0, In ws0 (sockets st) /\ ws_id ws0 = ws_id ws
               /\ ws_attachment ws0 = ws_attachment ws)
  \/ ws_id ws = next_ws st.
Proof.
  destruct c as [request|payload|w message|w code reason|w|id]; simpl.
  - destruct (truthy_opt (q_role request)
              && truthy (nullish (q_userId request) "")) eqn:Hok.
    + rewrite RelayFacts.upgrade_accepted by done. simpl.
      intros [Hin|[<-|[]]]%in_app_iff; [left; by exists ws | by right].
    + rewrite RelayFacts.upgrade_rejected by done. simpl.
      intros Hin. left. by exists ws.
  - rewrite RelayFacts.handleBroadcast_effects. simpl.
    intros Hin. left. by exists ws.
  - destruct (RelayFacts.webSocketMessage_cases w message st)
      as [->|(att & parsed & ->)]; intros Hin; left; by exists ws.
  - rewrite RelayFacts.webSocketClose_effects. simpl. unfold others.
    intros [Hin _]%filter_In. left. by exists ws.
  - rewrite RelayFacts.webSocketError_effects. simpl. unfold others.
    intros [Hin _]%filter_In. left. by exists ws.
  - intros (ws0 & <- & Hin)%in_map_iff. left. exists ws0.
    split; [done|]. by destruct (Nat.eqb (ws_id ws0) id).
Qed.

Lemma nodup_ids_inj l a b :
  List.NoDup (map ws_id l) -> In a l -> In b l -> ws_id a = ws_id b -> a = b.
Proof.
  induction l as [|x l IH]; [done|]. simpl.
  intros [Hx Hnd]%List.NoDup_cons_iff [->|Ha] [->|Hb] Heq; try done.
  - exfalso. apply Hx. rewrite Heq. by apply in_map.
  - exfalso. apply Hx. rewrite <- Heq. by apply in_map.
  - by apply IH.
Qed.

Lemma webhooks_to_machines_step st c :
  registry_ok st -> webhooks_to_machines st ->
  webhooks_to_machines (step st c).
Proof.
  intros (Hnd & _ & Htargets) Hinv to w delivered ws Hsend Hws Hid.
  destruct (ActorFacts.step_frame st c) as (es & Hes & _).
  pose proof Hsend as Hsend'. rewrite Hes in Hsend'.
  apply in_app_iff in Hsend' as [Hold|Hnew].
  - unfold targets_below in Htargets.
    rewrite List.Forall_forall in Htargets.
    specialize (Htargets _ Hold). simpl in Htargets.
    destruct (step_sockets_origin st c ws Hws)
      as [(ws0 & Hws0 & Hid0 & Hatt)|Hfresh]; [|lia].
    unfold has_role. rewrite <- Hatt. fold (has_role "machine" ws0).
    eapply Hinv; [exact Hold | done | congruence].
  - assert (Hem : In (Send to (Webhook w) delivered)
                     (emitted st (step st c))).
    { unfold emitted. by rewrite Hes, drop_app_length. }
    apply ActorFacts.webhook_sends
      in Hem as (payload & ws1 & -> & Hws1 & Hrole & _ & Hid1 & _).
    simpl in Hws. rewrite RelayFacts.handleBroadcast_effects in Hws.
    simpl in Hws.
    by rewrite (nodup_ids_inj (sockets st) ws ws1 Hnd Hws Hws1)
      by congruence.
Qed.

Lemma webhooks_to_machines_run cs :
  forall st, registry_ok st -> webhooks_to_machines st ->
             webhooks_to_machines (run cs st).
Proof.
  induction cs as [|c cs IH]; intros st Hok Hinv; [done|].
  simpl. apply IH.
  - by apply RelayFacts.registry_ok_step.
  - by apply webhooks_to_machines_step.
Qed.

Lemma in_addressed b id m es :
  In m (omap (addressed b id) es) -> exists d, In (Send id m d) es.
Proof.
  induction es as [|e es IH]; [done|]. cbn [omap list_omap].
  destruct (addressed b id e) as [m'|] eqn:He.
  - intros [<-|Hin].
    + destruct e as [to p d|]; [|done]. simpl in He.
      destruct (Nat.eqb to id) eqn:Hto; [|done].
      apply Nat.eqb_eq in Hto. subst to.
      destruct (d || negb b); [|done]. injection He as ->.
      exists d. by left.
    + destruct (IH Hin) as [d Hd]. exists d. by right.
  - intros Hin. destruct (IH Hin) as [d Hd]. exists d. by right.
Qed.

Lemma events_onmessage_other endpointId paused v m :
  (forall w, m <> Webhook w) ->
  events (onmessage endpointId paused v (Wire.stringify m)) = events v.
Proof. intros Hm. destruct m as [w| |]; [by destruct (Hm w)|done|done]. Qed.

Lemma events_receive_other endpointId paused l :
  Forall (fun m => forall w, m <> Webhook w) l ->
  forall v,
    events (receive endpointId paused (map Wire.stringify l) v) = events v.
Proof.
  induction 1 as [|m l Hm _ IH]; intros v; [done|].
  unfold receive in *. simpl. rewrite IH.
  by apply events_onmessage_other.
Qed.

(** X19: in every state the actor reaches, a socket registered as a
    viewer has never been sent a webhook message; so the list of live
    events that the viewer hook builds from its socket stays as it was,
    whatever the actor has sent on that socket. *)
Theorem viewer_is_never_sent_a_webhook
    (st : DOState) (v : WebSocket) (endpointId : string) (paused : bool)
    (view : View) :
  reachable st ->
  In v (sockets st) ->
  has_role "viewer" v = true ->
  Forall (fun m => forall w, m <> Webhook w)
         (attempted (ws_id v) (effects st))
  /\ events (receive endpointId paused
               (map Wire.stringify (attempted (ws_id v) (effects st))) view)
     = events view.
Proof.
  intros Hst Hv Hrole.
  assert (Hno : Forall (fun m => forall w, m <> Webhook w)
                       (attempted (ws_id v) (effects st))).
  { apply List.Forall_forall. intros m Hm w ->.
    apply in_addressed in Hm as [d Hd].
    pose proof (RelayFacts.reachable_registry_ok st Hst) as Hok.
    destruct Hst as [cs ->].
    assert (Hinv : webhooks_to_machines (run cs init)).
    { apply webhooks_to_machines_run; [apply RelayFacts.registry_ok_init|].
      by intros to w' d' ws []. }
    specialize (Hinv _ _ _ v Hd Hv eq_refl).
    unfold has_role in *. destruct (ws_attachment v) as [att|]; [|done].
    apply String.eqb_eq in Hrole, Hinv. congruence. }
  split; [done|]. by apply events_receive_other.
Qed.

Lemma viewer_is_never_sent_a_webhook_witness :
  Forall (fun m => forall w, m <> Webhook w)
         (attempted 0 (effects Scenario.viewer_and_machine))
  /\ events (receive "ep1" false
               (map Wire.stringify
                  (attempted 0 (effects Scenario.viewer_and_machine)))
               empty_view)
     = [].
Proof.
  refine (viewer_is_never_sent_a_webhook Scenario.viewer_and_machine
            (Scenario.viewer_socket 0) "ep1" false empty_view _ _ eq_refl).
  - by eexists.
  - vm_compute. by left.
Defined.

(** ** Presence *)

Lemma machines_onmessage_online endpointId paused v machineId machineName :
  machines (onmessage endpointId paused v
              (Wire.stringify (online_status machineId machineName)))
  = map_set (machines v) (Some (JStr machineId))
      {| cm_machineId := Some (JStr machineId);
         cm_machineName := Some (JStr machineName);
         cm_online := true |}.
Proof. reflexivity. Qed.

Lemma online_after endpointId paused listed :
  forall v machineId,
    In machineId (map fst listed)
    \/ (exists cm, map_get (machines v) (Some (JStr machineId)) = Some cm
                   /\ cm_online cm = true) ->
    exists cm,
      map_get
        (machines
           (receive endpointId paused
              (map (fun entry : string * string =>
                      Wire.stringify (online_status (fst entry) (snd entry)))
                   listed) v))
        (Some (JStr machineId)) = Some cm
      /\ cm_online cm = true.
Proof.
  induction listed as [|entry listed IH]; intros v machineId H.
  - by destruct H as [[]|H].
  - unfold receive in *. cbn [map fold_left]. apply IH.
    rewrite machines_onmessage_online, map_get_set. cbn [same_value].
    destruct H as [[Hhere|Hlater]|Hold].
    + right. rewrite Hhere, String.eqb_refl. by eexists.
    + by left.
    + right. destruct (String.eqb (fst entry) machineId); [by eexists|done].
Qed.

(** X20: a dashboard that opens its socket while machines are
    connected shows every one of them that registered with a machine id
    and a machine name as online, as soon as it has read the frames the
    upgrade sent it. *)
Theorem joining_viewer_sees_machines_online
    (st : DOState) (request : UpgradeRequest) (endpointId : string)
    (paused : bool) (ws : WebSocket) (att : WsAttachment)
    (machineId : string) :
  q_role request = Some "viewer" ->
  truthy (nullish (q_userId request) "") = true ->
  In ws (EndpointDO.machines st) ->
  named ws = true ->
  ws_attachment ws = Some att ->
  att_machineId att = Some machineId ->
  exists cm,
    map_get
      (machines
         (receive endpointId paused
            (map Wire.stringify
               (received (next_ws st)
                  (emitted st (snd (handleWebSocketUpgrade request st)))))
            empty_view))
      (Some (JStr machineId)) = Some cm
    /\ cm_online cm = true.
Proof.
  intros Hrole Huser Hws Hnamed Hatt Hid.
  rewrite RelayFacts.upgrade_accepted by (by rewrite Hrole, Huser). simpl.
  unfold emitted. simpl. rewrite drop_app_length.
  unfold upgrade_effects. rewrite Hrole. simpl.
  rewrite RelayFacts.received_own. unfold snapshot.
  set (entry := fun w : WebSocket =>
                  match ws_attachment w with
                  | Some a => (nullish (att_machineId a) "",
                               nullish (att_machineName a) "")
                  | None => ("", "")
                  end).
  assert (Hmap : forall l,
            map Wire.stringify (map snapshot_message l)
            = map (fun e : string * string =>
                     Wire.stringify (online_status (fst e) (snd e)))
                  (map entry l)).
  { intros l. rewrite !map_map. apply map_ext. intros w.
    unfold snapshot_message, entry. by destruct (ws_attachment w). }
  rewrite Hmap. apply online_after. left.
  apply in_map_iff. exists (entry ws). split.
  - unfold entry. by rewrite Hatt, Hid.
  - apply in_map. apply filter_In. by split.
Qed.

Lemma joining_viewer_sees_machines_online_witness :
  exists cm,
    map_get
      (machines
         (receive "ep1" false
            (map Wire.stringify
               (received (next_ws Scenario.one_machine)
                  (emitted Scenario.one_machine
                     (snd (handleWebSocketUpgrade Scenario.viewer_request
                             Scenario.one_machine)))))
            empty_view))
      (Some (JStr "m1")) = Some cm
    /\ cm_online cm = true.
Proof.
  refine (joining_viewer_sees_machines_online Scenario.one_machine
            Scenario.viewer_request "ep1" false
            (Scenario.machine_socket 0 "m1" (Some "Box")) _ "m1"
            eq_refl eq_refl _ eq_refl eq_refl eq_refl).
  vm_compute. by left.
Defined.

(** ** Merging live and stored events *)

Lemma distinct_snoc l ev :
  distinct_ids (l ++ [ev])
  = distinct_ids l
    && negb (existsb (fun ev' => same_value (ev_id ev') (ev_id ev)) l).
Proof.
  induction l as [|x l IH]; simpl; [done|].
  rewrite IH, existsb_app. simpl. rewrite orb_false_r.
  destruct (existsb _ l), (same_value (ev_id x) (ev_id ev)),
    (distinct_ids l), (existsb _ l); done.
Qed.

Lemma seen_has k merged :
  existsb (same_value k) (map ev_id merged)
  = existsb (fun ev' => same_value (ev_id ev') k) merged.
Proof.
  induction merged as [|x l IH]; simpl; [done|].
  by rewrite IH, same_value_sym.
Qed.

Lemma push_unseen_spec {A} (key : A -> JsVal) (conv : A -> WebhookEvent)
    (items : list A) :
  (forall x, ev_id (conv x) = key x) ->
  forall seen merged,
    seen = map ev_id merged ->
    distinct_ids merged = true ->
    exists rest,
      push_unseen key conv items (seen, merged)
      = (seen ++ map ev_id rest, merged ++ rest)
      /\ distinct_ids (merged ++ rest) = true
      /\ Forall (fun e => exists x, In x items /\ e = conv x) rest
      /\ (forall x, In x items ->
            exists e, In e (merged ++ rest)
                      /\ (e = conv x \/ same_value (key x) (ev_id e) = true)).
Proof.
  intros Hkey. induction items as [|x items IH]; intros seen merged Hseen Hd.
  - exists []. rewrite !app_nil_r. by repeat split.
  - cbn [push_unseen fst snd].
    destruct (existsb (same_value (key x)) seen) eqn:Hx.
    + destruct (IH seen merged Hseen Hd) as (rest & Heq & Hd' & Hfrom & Hcov).
      exists rest. split; [done|]. split; [done|]. split.
      * eapply Forall_impl; [exact Hfrom|]. intros e (y & Hy & ->).
        exists y. split; [by right|done].
      * intros y [<-|Hy]; [|by apply Hcov].
        apply existsb_exists in Hx as (k & Hk & Hsame). subst seen.
        apply in_map_iff in Hk as (e & <- & He).
        exists e. split; [apply in_or_app; by left | by right].
    + destruct (IH (seen ++ [key x]) (merged ++ [conv x]))
        as (rest & Heq & Hd' & Hfrom & Hcov).
      * rewrite map_app. simpl. by rewrite Hkey, Hseen.
      * rewrite distinct_snoc, Hd, Hkey. rewrite <- seen_has, <- Hseen.
        by rewrite Hx.
      * exists (conv x :: rest). rewrite <- !app_assoc in *. simpl in *.
        rewrite Hkey. split; [done|]. split; [done|]. split.
        -- constructor; [exists x; split; [by left|done]|].
           eapply Forall_impl; [exact Hfrom|]. intros e (y & Hy & ->).
           exists y. split; [by right|done].
        -- intros y [Hy|Hy]; [subst y|by apply Hcov].
           exists (conv x). split; [|by left].
           apply in_or_app. right. by left.
Qed.

Lemma distinct_app_head l ev r :
  distinct_ids (l ++ ev :: r) = true ->
  existsb (fun ev' => same_value (ev_id ev') (ev_id ev)) l = false.
Proof.
  induction l as [|x l IH]; simpl; [done|].
  rewrite existsb_app. simpl.
  intros [Hx Hd]%andb_prop. rewrite (IH Hd), orb_false_r.
  destruct (same_value (ev_id x) (ev_id ev)); [|done].
  by rewrite orb_true_r in Hx.
Qed.

Lemma push_unseen_distinct liveEvents :
  forall seen merged,
    seen = map ev_id merged ->
    distinct_ids (merged ++ liveEvents) = true ->
    snd (push_unseen ev_id (fun ev => ev) liveEvents (seen, merged))
    = merged ++ liveEvents.
Proof.
  induction liveEvents as [|ev l IH]; intros seen merged Hseen Hd.
  - by rewrite app_nil_r.
  - cbn [push_unseen fst snd]. rewrite Hseen, seen_has.
    rewrite (distinct_app_head merged ev l Hd).
    rewrite (IH _ (merged ++ [ev])).
    + by rewrite <- app_assoc.
    + by rewrite map_app.
    + by rewrite <- app_assoc.
Qed.

Lemma first_occurrences_app earlier l1 l2 :
  first_occurrences earlier (l1 ++ l2)
  = first_occurrences earlier l1 ++ first_occurrences (earlier ++ l1) l2.
Proof.
  revert earlier. induction l1 as [|ev l1 IH]; intros earlier; simpl.
  - by rewrite app_nil_r.
  - rewrite !IH, <- !app_assoc. simpl. by destruct (existsb _ earlier).
Qed.

Lemma first_occurrences_sublist earlier l :
  sublist (first_occurrences earlier l) l.
Proof.
  revert earlier. induction l as [|ev l IH]; intros earlier; simpl.
  - constructor.
  - destruct (existsb _ earlier); [apply sublist_cons|apply sublist_skip];
      apply IH.
Qed.

(** An event is kept exactly when it stands at a place before which no
    event has its id. *)
Lemma first_occurrences_in earlier l ev :
  In ev (first_occurrences earlier l) <->
  exists before after,
    l = before ++ ev :: after
    /\ existsb (fun ev' => same_value (ev_id ev') (ev_id ev))
               (earlier ++ before) = false.
Proof.
  revert earlier. induction l as [|x l IH]; intros earlier; simpl.
  - split; [done|]. intros (before & after & Heq & _). by destruct before.
  - split.
    + intros Hin.
      assert (Hcases : (x = ev /\ existsb (fun ev' => same_value (ev_id ev')
                                     (ev_id ev)) earlier = false)
                       \/ In ev (first_occurrences (earlier ++ [x]) l)).
      { destruct (existsb _ earlier) eqn:Hx; [by right|].
        destruct Hin as [->|Hin]; [by left|by right]. }
      destruct Hcases as [[-> Hnew]|Hlater].
      * exists [], l. by rewrite app_nil_r.
      * apply IH in Hlater as (before & after & -> & Hnone).
        exists (x :: before), after. split; [done|].
        by rewrite <- app_assoc in Hnone.
    + intros (before & after & Heq & Hnone).
      destruct before as [|y before]; simpl in Heq.
      * injection Heq as -> ->. rewrite app_nil_r in Hnone.
        rewrite Hnone. by left.
      * injection Heq as -> ->.
        assert (Hlater : In ev (first_occurrences (earlier ++ [y])
                                  (before ++ ev :: after))).
        { apply IH. exists before, after. split; [done|].
          by rewrite <- app_assoc. }
        destruct (existsb _ earlier); [done|by right].
Qed.

(** The set of the loop holds an id exactly when an event so far has
    it. *)
Lemma push_unseen_first {A} (key : A -> JsVal) (conv : A -> WebhookEvent)
    (items : list A) :
  (forall x, ev_id (conv x) = key x) ->
  forall seen merged earlier,
    (forall k, existsb (same_value k) seen
               = existsb (fun ev' => same_value (ev_id ev') k) earlier) ->
    exists seen',
      push_unseen key conv items (seen, merged)
      = (seen', merged ++ first_occurrences earlier (map conv items))
      /\ (forall k, existsb (same_value k) seen'
                    = existsb (fun ev' => same_value (ev_id ev') k)
                              (earlier ++ map conv items)).
Proof.
  intros Hkey. induction items as [|x items IH]; intros seen merged earlier Hinv.
  - exists seen. simpl. rewrite !app_nil_r. by split.
  - cbn [push_unseen fst snd map first_occurrences].
    rewrite Hkey, <- Hinv.
    destruct (existsb (same_value (key x)) seen) eqn:Hx.
    + destruct (IH seen merged (earlier ++ [conv x])) as (seen' & Heq & Hinv').
      * intros k. rewrite existsb_app. simpl. rewrite orb_false_r, Hkey.
        rewrite <- Hinv.
        destruct (same_value (key x) k) eqn:Hk; [|by rewrite orb_false_r].
        apply same_value_eq in Hk. subst k. by rewrite Hx.
      * exists seen'. rewrite Heq. split; [done|].
        intros k. rewrite Hinv'. by rewrite <- app_assoc.
    + destruct (IH (seen ++ [key x]) (merged ++ [conv x])
                   (earlier ++ [conv x])) as (seen' & Heq & Hinv').
      * intros k. rewrite !existsb_app. simpl. rewrite !orb_false_r, Hkey.
        by rewrite Hinv, same_value_sym.
      * exists seen'. rewrite Heq, <- !app_assoc. split; [done|].
        intros k. rewrite Hinv'. by rewrite <- app_assoc.
Qed.

(** X21: the merged list is the live events followed by the stored
    ones, less every event whose id an earlier event of that sequence
    has: it is a subsequence of it, and an event is kept exactly when it
    stands at a place before which no event has its id, so that of
    events with one id the first is kept and a live event goes before a
    stored one.  The merged list has no id twice; it starts with the
    kept live events (all of them when no id occurs twice among them),
    followed by stored events only; and every stored event's id is in
    the list. *)
Theorem merged_events_are_distinct
    (liveEvents : list WebhookEvent) (historicalItems : list HistoricalItem) :
  let merged := useMergedEvents liveEvents historicalItems in
  let all := liveEvents ++ map of_historical historicalItems in
  merged = first_occurrences [] all
  /\ sublist merged all
  /\ (forall ev,
        In ev merged <->
        exists before after,
          all = before ++ ev :: after
          /\ existsb (fun ev' => same_value (ev_id ev') (ev_id ev)) before
             = false)
  /\ distinct_ids merged = true
  /\ (exists rest,
        merged = first_occurrences [] liveEvents ++ rest
        /\ Forall (fun e => exists h, In h historicalItems
                                      /\ e = of_historical h) rest)
  /\ (distinct_ids liveEvents = true ->
      first_occurrences [] liveEvents = liveEvents)
  /\ (forall h, In h historicalItems ->
        exists e, In e merged /\ ev_id e = Some (JStr (h_id h))).
Proof.
  intros merged all.
  assert (Hmerged : merged = first_occurrences [] all).
  { unfold merged, useMergedEvents, all.
    destruct (push_unseen_first ev_id (fun ev => ev) liveEvents
                (fun _ => eq_refl) [] [] [] (fun _ => eq_refl))
      as (seen1 & Hlive & Hinv1).
    rewrite Hlive. simpl in Hinv1. rewrite map_id in Hinv1.
    destruct (push_unseen_first (fun ev => of_string (h_id ev)) of_historical
                historicalItems (fun _ => eq_refl) seen1
                ([] ++ first_occurrences [] (map (fun ev => ev) liveEvents))
                liveEvents Hinv1) as (seen2 & Hhist & _).
    rewrite Hhist. cbn [snd]. rewrite map_id. simpl.
    by rewrite first_occurrences_app. }
  assert (Hfirsts : useMergedEvents liveEvents []
                    = first_occurrences [] liveEvents).
  { unfold useMergedEvents.
    destruct (push_unseen_first ev_id (fun ev => ev) liveEvents
                (fun _ => eq_refl) [] [] [] (fun _ => eq_refl))
      as (seen1 & Hlive & _).
    rewrite Hlive. simpl. by rewrite map_id. }
  split; [done|]. split; [|split].
  { rewrite Hmerged. apply first_occurrences_sublist. }
  { intros ev. rewrite Hmerged. by rewrite first_occurrences_in. }
  rewrite <- Hfirsts. clear Hmerged Hfirsts all.
  unfold merged, useMergedEvents.
  destruct (push_unseen_spec ev_id (fun ev => ev) liveEvents
              (fun _ => eq_refl) [] [] eq_refl eq_refl)
    as (firsts & Hlive & Hd1 & Hfrom1 & Hcov1).
  simpl in Hlive, Hd1, Hcov1. rewrite Hlive.
  destruct (push_unseen_spec (fun ev => of_string (h_id ev)) of_historical
              historicalItems (fun _ => eq_refl)
              (map ev_id firsts) firsts eq_refl Hd1)
    as (rest & Hhist & Hd2 & Hfrom2 & Hcov2).
  rewrite Hhist. cbn [push_unseen snd].
  split; [done|]. split; [by exists rest|]. split.
  - intros Hd.
    pose proof (push_unseen_distinct liveEvents [] [] eq_refl Hd) as Hall.
    by rewrite Hlive in Hall.
  - intros h Hh. destruct (Hcov2 h Hh) as (e & He & [->|Hsame]).
    + by exists (of_historical h).
    + exists e. split; [done|]. apply same_value_eq in Hsame.
      by rewrite <- Hsame.
Qed.

End DashboardFacts.

(** * Properties of the worker in front of the actor *)

Module WorkerFacts.
Import EndpointDO Worker.

(** ** The deliveries map *)

Lemma assign_other o k v k' : k' <> k -> assign o k v !! k' = o !! k'.
Proof.
  intros Hne. unfold assign. destruct (String.eqb k "__proto__"); [done|].
  by rewrite lookup_insert_ne.
Qed.

Lemma assign_same o k v : k <> "__proto__" -> assign o k v !! k = Some v.
Proof.
  intros Hne. unfold assign. apply String.eqb_neq in Hne. rewrite Hne.
  apply lookup_insert_eq.
Qed.

Lemma fold_assign_other records :
  forall o k,
    ~ In k (map snd records) ->
    fold_left (fun o d => assign o (snd d) (fst d)) records o !! k = o !! k.
Proof.
  induction records as [|[v' k'] records IH]; intros o k Hk; [done|].
  simpl in *. rewrite IH by tauto. apply assign_other.
  intros ->. apply Hk. by left.
Qed.

Lemma fold_assign_lookup records :
  forall o k v,
    List.NoDup (map snd records) ->
    In (v, k) records ->
    k <> "__proto__" ->
    fold_left (fun o d => assign o (snd d) (fst d)) records o !! k = Some v.
Proof.
  induction records as [|[v' k'] records IH]; intros o k v Hnd Hin Hk;
    [done|].
  simpl in *. apply List.NoDup_cons_iff in Hnd as [Hfresh Hnd].
  destruct Hin as [[= -> ->]|Hin].
  - rewrite fold_assign_other by done. by apply assign_same.
  - by apply IH.
Qed.

Lemma deliveryRecords_machines randomUUID machines :
  forall calls,
    map snd (deliveryRecords randomUUID calls machines) = map mr_id machines.
Proof.
  induction machines as [|m l IH]; intros calls; simpl; [done|].
  by rewrite IH.
Qed.

Lemma deliveryRecords_in randomUUID machines m :
  In m machines ->
  forall calls,
    exists n, In (randomUUID n, mr_id m)
                 (deliveryRecords randomUUID calls machines).
Proof.
  induction machines as [|x l IH]; [done|]. intros [->|Hin] calls; simpl.
  - exists calls. by left.
  - destruct (IH Hin (S calls)) as [n Hn]. exists n. by right.
Qed.

Lemma nodup_map_filter {X Y} (g : X -> Y) (f : X -> bool) l :
  List.NoDup (map g l) -> List.NoDup (map g (List.filter f l)).
Proof.
  induction l as [|x l IH]; simpl; [done|].
  intros [Hx Hnd]%List.NoDup_cons_iff.
  destruct (f x); simpl; [|by apply IH].
  apply List.NoDup_cons; [|by apply IH].
  intros (y & Hy & [Hin _]%filter_In)%in_map_iff.
  apply Hx. rewrite <- Hy. by apply in_map.
Qed.

(** X22: when a webhook is fanned out, every machine row of the
    endpoint gets exactly one pending delivery row for the event; and a
    machine of the endpoint that is connected to the actor under its
    (non-empty) row id is sent exactly one webhook message, which carries
    the id of that machine's own delivery row. *)
Theorem pending_delivery_reaches_its_machine
    (randomUUID : nat -> string) (machineTable : list MachineRow)
    (calls : nat) (params : BroadcastParams)
    (st : DOState) (ws : WebSocket) (att : WsAttachment) (m : MachineRow) :
  (forall n, randomUUID n <> "") ->
  List.NoDup (map mr_id machineTable) ->
  In m machineTable ->
  mr_endpointId m = p_endpointId params ->
  mr_id m <> "" ->
  mr_id m <> "__proto__" ->
  List.NoDup (map ws_id (sockets st)) ->
  In ws (sockets st) ->
  ws_attachment ws = Some att ->
  att_role att = "machine" ->
  att_machineId att = Some (mr_id m) ->
  exists rows request row,
    broadcastToMachines randomUUID machineTable calls params
    = (rows, Some request)
    /\ map del_machineId rows
       = map mr_id (findMany machineTable (p_endpointId params))
    /\ Forall (fun r => del_eventId r = p_eventId params
                        /\ del_status r = "pending") rows
    /\ In row rows
    /\ del_machineId row = mr_id m
    /\ exists payload,
         Actor.req_json request = Actor.Typed payload
         /\ bp_eventId payload = p_eventId params
         /\ attempted (ws_id ws) (emitted st (snd (Actor.fetch request st)))
            = [webhook_message payload (OwnId (del_id row))].
Proof.
  intros Huuid Hpk Hm Hep Hid Hproto Hnd Hws Hatt Hrole Hmid.
  unfold broadcastToMachines.
  set (machines := findMany machineTable (p_endpointId params)).
  assert (Hin : In m machines).
  { apply filter_In. split; [done|]. by apply String.eqb_eq. }
  destruct (Nat.eqb (List.length machines) 0) eqn:Hlen.
  { apply Nat.eqb_eq in Hlen. by destruct machines. }
  destruct (deliveryRecords_in randomUUID machines m Hin calls) as [n Hn].
  set (records := deliveryRecords randomUUID calls machines) in *.
  eexists _, _,
    {| del_id := randomUUID n; del_eventId := p_eventId params;
       del_machineId := mr_id m; del_status := "pending" |}.
  split; [reflexivity|]. split; [|split; [|split; [|split; [done|]]]].
  - rewrite map_map. simpl. fold (map snd records).
    apply deliveryRecords_machines.
  - apply Forall_map, List.Forall_forall. by intros d _.
  - apply in_map_iff. by exists (randomUUID n, mr_id m).
  - eexists. split; [reflexivity|]. split; [reflexivity|].
    unfold Actor.fetch. simpl. unfold bind.
    rewrite RelayFacts.handleBroadcast_effects. simpl.
    set (payload := {| bp_body := p_body params;
                       bp_deliveries := deliveriesMap records |}).
    pose proof (ActorFacts.addressed_fanout false payload st ws Hnd Hws)
      as Hsent.
    rewrite RelayFacts.handleBroadcast_effects in Hsent. simpl in Hsent.
    unfold attempted. rewrite Hsent.
    unfold has_role. rewrite Hatt, Hrole. simpl.
    rewrite (ActorFacts.target_own _ ws att (mr_id m) (randomUUID n));
      try done.
    + by rewrite orb_true_r.
    + simpl. unfold deliveriesMap. apply fold_assign_lookup; try done.
      unfold records. rewrite deliveryRecords_machines.
      by apply nodup_map_filter.
Qed.

Lemma pending_delivery_reaches_its_machine_witness :
  exists rows request row,
    broadcastToMachines (fun _ => "d1") sample_table 0 sample_params
    = (rows, Some request)
    /\ map del_machineId rows = map mr_id (findMany sample_table "ep1")
    /\ Forall (fun r => del_eventId r = "e1" /\ del_status r = "pending") rows
    /\ In row rows
    /\ del_machineId row = "m1"
    /\ exists payload,
         Actor.req_json request = Actor.Typed payload
         /\ bp_eventId payload = "e1"
         /\ attempted 0
              (emitted Scenario.one_machine
                 (snd (Actor.fetch request Scenario.one_machine)))
            = [webhook_message payload (OwnId (del_id row))].
Proof.
  refine (pending_delivery_reaches_its_machine (fun _ => "d1") sample_table
            0 sample_params Scenario.one_machine
            (Scenario.machine_socket 0 "m1" (Some "Box")) _
            {| mr_id := "m1"; mr_name := "Box"; mr_endpointId := "ep1";
               mr_userId := "u1"; mr_forwardUrl := "http://localhost:3000";
               mr_status := "online"; mr_lastSeenAt := Some 0%Z |}
            _ _ _ eq_refl _ _ _ _ eq_refl eq_refl eq_refl); try done.
  - repeat constructor. by intros [].
  - by left.
  - repeat constructor. by intros [].
  - vm_compute. by left.
Defined.

(** ** Upgrades *)

(** X23: an upgrade that the worker passes on for a user with a
    non-empty id is one the actor accepts: the actor answers 101 and
    registers one socket, attached to that user, who owns the endpoint of
    the slug.  The socket is a viewer's, without machine id, or a
    machine's, and then its machine id is the non-empty id of a machine
    row of this endpoint and user, which is the row marked online, and its
    machine name, if it has one, is not empty. *)
Theorem passed_on_upgrade_is_accepted
    (endpointTable : list EndpointRow) (machineTable : list MachineRow)
    (slug userId : string) (role machineId machineName : option string)
    (markedOnline : option string) (request : Actor.Request)
    (st : DOState) :
  handleWebSocketUpgrade endpointTable machineTable slug (Some userId)
    role machineId machineName = PassedOn markedOnline request ->
  userId <> "" ->
  exists ep att,
    In ep endpointTable /\ ep_slug ep = slug /\ ep_userId ep = userId
    /\ Actor.fetch request st
       = (Returned (Actor.UpgradeReply
                      {| resp_status := 101;
                         resp_webSocket := Some (next_ws st) |}),
          {| sockets := sockets st
                        ++ [{| ws_id := next_ws st;
                               ws_attachment := Some att;
                               ws_open := true |}];
             next_ws := S (next_ws st);
             effects := effects st
                        ++ upgrade_effects (Actor.req_query request) st |})
    /\ att_userId att = userId
    /\ ((att_role att = "viewer" /\ att_machineId att = None
         /\ att_machineName att = None /\ markedOnline = None)
        \/ (att_role att = "machine"
            /\ exists m,
                 In m machineTable
                 /\ mr_endpointId m = ep_id ep /\ mr_userId m = userId
                 /\ mr_id m <> ""
                 /\ att_machineId att = Some (mr_id m)
                 /\ markedOnline = Some (mr_id m)
                 /\ (att_machineName att = None
                     \/ exists name, att_machineName att = Some name
                                     /\ name <> ""))).
Proof.
  unfold handleWebSocketUpgrade. intros Hpass Huser.
  destruct (List.find _ endpointTable) as [ep|] eqn:Hep; [|done].
  apply find_some in Hep as [Hep Hslug]. apply String.eqb_eq in Hslug.
  destruct (String.eqb (ep_userId ep) userId) eqn:Howner; [|done].
  apply String.eqb_eq in Howner. simpl in Hpass.
  pose proof Huser as Htruthy. apply RelayFacts.truthy_nonempty in Htruthy.
  destruct role as [role|]; [|done].
  destruct (String.eqb role "machine") eqn:Hmachine.
  - apply String.eqb_eq in Hmachine. subst role.
    destruct (truthy_opt machineId) eqn:Hid; [|done]. simpl in Hpass.
    destruct machineId as [machineId|]; [|done]. simpl in Hid, Hpass.
    destruct (List.find _ machineTable) as [m|] eqn:Hm; [|done].
    apply find_some in Hm as [Hm Hrow].
    apply andb_prop in Hrow as [[Hmid Hmep]%andb_prop Hmuser].
    apply String.eqb_eq in Hmid, Hmep, Hmuser.
    injection Hpass as <- <-.
    exists ep. eexists. split; [done|]. split; [done|]. split; [done|].
    split.
    { unfold Actor.fetch. simpl. unfold bind.
      rewrite RelayFacts.upgrade_accepted by (simpl; by rewrite Htruthy).
      reflexivity. }
    split; [done|]. right. split; [done|]. exists m. simpl.
    apply RelayFacts.truthy_nonempty in Hid.
    repeat (split; [congruence|]).
    destruct (truthy (nullish machineName (mr_name m))) eqn:Hname;
      [right|by left].
    eexists. split; [done|]. by apply RelayFacts.truthy_nonempty.
  - destruct (String.eqb role "viewer") eqn:Hviewer; [|done].
    apply String.eqb_eq in Hviewer. subst role.
    injection Hpass as <- <-.
    exists ep. eexists. split; [done|]. split; [done|]. split; [done|].
    split.
    { unfold Actor.fetch. simpl. unfold bind.
      rewrite RelayFacts.upgrade_accepted by (simpl; by rewrite Htruthy).
      reflexivity. }
    split; [done|]. by left.
Qed.

Lemma passed_on_upgrade_is_accepted_witness :
  exists ep att,
    In ep sample_endpoints /\ ep_slug ep = "hook" /\ ep_userId ep = "u1"
    /\ Actor.fetch
         {| Actor.req_pathname := "/websocket"; Actor.req_method := "GET";
            Actor.req_query := Scenario.viewer_request;
            Actor.req_json := Actor.NotJson |} Scenario.one_machine
       = (Returned (Actor.UpgradeReply
                      {| resp_status := 101;
                         resp_webSocket :=
                           Some (next_ws Scenario.one_machine) |}),
          {| sockets := sockets Scenario.one_machine
                        ++ [{| ws_id := next_ws Scenario.one_machine;
                               ws_attachment := Some att;
                               ws_open := true |}];
             next_ws := S (next_ws Scenario.one_machine);
             effects := effects Scenario.one_machine
                        ++ upgrade_effects Scenario.viewer_request
                             Scenario.one_machine |})
    /\ att_userId att = "u1"
    /\ ((att_role att = "viewer" /\ att_machineId att = None
         /\ att_machineName att = None /\ @None string = None)
        \/ (att_role att = "machine"
            /\ exists m,
                 In m sample_table
                 /\ mr_endpointId m = ep_id ep /\ mr_userId m = "u1"
                 /\ mr_id m <> ""
                 /\ att_machineId att = Some (mr_id m)
                 /\ @None string = Some (mr_id m)
                 /\ (att_machineName att = None
                     \/ exists name, att_machineName att = Some name
                                     /\ name <> ""))).
Proof.
  refine (passed_on_upgrade_is_accepted sample_endpoints sample_table
            "hook" "u1" (Some "viewer") None None None _
            Scenario.one_machine eq_refl _).
  done.
Defined.

End WorkerFacts.

(** * Properties of the machine table and the delivery table *)

Module RouterFacts.
Import MachineClient Worker Router.

(** ** Status *)

(** Every row under the id [i] is online. *)
Lemma online_write is_url noValues i machineTable w :
  inserts (snd w) <> Some i ->
  Forall (fun m => mr_id m = i -> mr_status m = "online") machineTable ->
  Forall (fun m => mr_id m = i -> mr_status m = "online")
         (write is_url noValues machineTable w).
Proof.
  intros Hfresh Hon. destruct w as [endpointTable w]. unfold write.
  cbn [fst snd] in *.
  destruct w as [userId endpointId name forwardUrl id
                |userId id name forwardUrl|userId id
                |now slug session role machineId machineName|endpointId].
  - unfold register.
    destruct (negb (valid_name name && is_url forwardUrl)); [done|].
    destruct (negb (owns endpointTable userId endpointId)); [done|].
    destruct (existsb _ machineTable); [done|]. simpl.
    apply Forall_app. split; [done|]. constructor; [|constructor].
    simpl. intros ->. by destruct Hfresh.
  - unfold update.
    destruct (negb (optional valid_name name && optional is_url forwardUrl));
      [done|].
    destruct (findFirst mr_id id machineTable) as [existing|]; [|done].
    destruct (negb (String.eqb (mr_userId existing) userId)); [done|].
    assert (Hmap : Forall (fun m => mr_id m = i -> mr_status m = "online")
              (map (fun m =>
                      if String.eqb (mr_id m) id
                      then {| mr_id := mr_id m;
                              mr_name := nullish name (mr_name m);
                              mr_endpointId := mr_endpointId m;
                              mr_userId := mr_userId m;
                              mr_forwardUrl :=
                                nullish forwardUrl (mr_forwardUrl m);
                              mr_status := mr_status m;
                              mr_lastSeenAt := mr_lastSeenAt m |}
                      else m) machineTable)).
    { apply Forall_map. eapply Forall_impl; [exact Hon|]. intros m Hm.
      by destruct (String.eqb (mr_id m) id). }
    by destruct name, forwardUrl.
  - unfold deleteMachine.
    destruct (findFirst mr_id id machineTable) as [existing|]; [|done].
    destruct (negb (String.eqb (mr_userId existing) userId)); [done|].
    simpl. rewrite List.Forall_forall in *.
    intros m [Hm _]%filter_In. by apply Hon.
  - unfold after_upgrade.
    destruct (handleWebSocketUpgrade _ _ _ _ _ _ _) as [|[marked|] ?];
      try done.
    unfold markOnline. apply Forall_map.
    eapply Forall_impl; [exact Hon|]. intros m Hm.
    by destruct (String.eqb (mr_id m) marked).
  - rewrite List.Forall_forall in *. intros m [Hm _]%filter_In. by apply Hon.
Qed.

Lemma online_writes is_url noValues i ws :
  Forall (fun w => inserts (snd w) <> Some i) ws ->
  forall machineTable,
    Forall (fun m => mr_id m = i -> mr_status m = "online") machineTable ->
    Forall (fun m => mr_id m = i -> mr_status m = "online")
           (writes is_url noValues ws machineTable).
Proof.
  induction 1 as [|w ws Hw _ IH]; intros machineTable Hon; [done|].
  unfold writes in *. simpl. apply IH. by apply online_write.
Qed.

(** X24: no write to the machine table turns an online record offline.
    Once the record of a machine id is online (the worker marks it so
    when the machine connects), it stays online through every later
    register, update, delete, upgrade and endpoint deletion, as long as
    no new record is inserted under the same id; and so the resolver of
    the terminal client, which reuses offline records only, never reuses
    or updates that record again. *)
Theorem online_record_is_never_reused
    (is_url : string -> bool) (noValues : Rpc (option MachineRow))
    (i : string) (ws : list (list EndpointRow * Write))
    (machineTable : list MachineRow)
    (hostname endpointId forwardUrl : string) (nameOverride : option string) :
  Forall (fun m => mr_id m = i -> mr_status m = "online") machineTable ->
  Forall (fun w => inserts (snd w) <> Some i) ws ->
  let machineTable' := writes is_url noValues ws machineTable in
  Forall (fun m => mr_id m = i -> mr_status m = "online") machineTable'
  /\ match findOrCreateMachine hostname
             (fun endpointId => map as_machine
                                    (findMany machineTable' endpointId))
             endpointId forwardUrl nameOverride with
     | Reused offlineMachine => m_id offlineMachine <> i
     | Updated id _ => id <> i
     | Registered _ _ _ => True
     end.
Proof.
  intros Hon Hfresh machineTable'.
  assert (Hon' : Forall (fun m => mr_id m = i -> mr_status m = "online")
                        machineTable') by (by apply online_writes).
  split; [done|]. unfold findOrCreateMachine.
  destruct (List.find _ _) as [offlineMachine|] eqn:Hfind; [|done].
  apply find_some in Hfind as [Hin Hoff].
  apply String.eqb_eq in Hoff.
  unfold ownMachines in Hin. apply filter_In in Hin as [Hin _].
  apply in_map_iff in Hin as (m & <- & Hm).
  apply filter_In in Hm as [Hm _].
  rewrite List.Forall_forall in Hon'. specialize (Hon' m Hm).
  simpl in *.
  assert (Hne : mr_id m <> i).
  { intros Hi. specialize (Hon' Hi). congruence. }
  by destruct (negb _).
Qed.

Lemma online_record_is_never_reused_witness :
  Forall (fun m => mr_id m = "m1" -> mr_status m = "online")
         (writes (fun _ => true) NOT_FOUND
            [(sample_endpoints, UpdateMachine "u1" "m1" (Some "Desk") None)]
            sample_table)
  /\ match findOrCreateMachine "box.local"
             (fun endpointId =>
                map as_machine
                    (findMany
                       (writes (fun _ => true) NOT_FOUND
                          [(sample_endpoints,
                            UpdateMachine "u1" "m1" (Some "Desk") None)]
                          sample_table) endpointId))
             "ep1" "http://localhost:3000" None with
     | Reused offlineMachine => m_id offlineMachine <> "m1"
     | Updated id _ => id <> "m1"
     | Registered _ _ _ => True
     end.
Proof.
  refine (online_record_is_never_reused (fun _ => true) NOT_FOUND "m1"
            [(sample_endpoints, UpdateMachine "u1" "m1" (Some "Desk") None)]
            sample_table "box.local" "ep1" "http://localhost:3000" None
            _ _).
  - by repeat constructor.
  - by repeat constructor.
Defined.

(** ** Delivery reports *)

(** X25: [reportDelivery] succeeds exactly when the input is valid, a
    delivery has the given id, and the machine of that delivery belongs
    to the caller; in every other case the delivery table is left as it
    was.  When it succeeds, the table is the old one, row for row and in
    the same order, where every row under the given id keeps its id,
    event and machine and has the status, response status, response body,
    error and duration of the input, and every other row is as it
    was. *)
Theorem report_changes_only_the_callers_delivery
    (userId : string) (input : ReportInput)
    (machineTable : list MachineRow) (deliveryTable : list Delivery) :
  let after := reportDelivery userId input machineTable deliveryTable in
  (fst after = Done tt <->
   valid_report input = true
   /\ exists existing m,
        findFirst d_id (in_deliveryId input) deliveryTable = Some existing
        /\ findFirst mr_id (d_machineId existing) machineTable = Some m
        /\ mr_userId m = userId)
  /\ (fst after <> Done tt -> snd after = deliveryTable)
  /\ (fst after = Done tt ->
      snd after
      = map (fun row =>
               if String.eqb (d_id row) (in_deliveryId input)
               then {| d_id := d_id row;
                       d_eventId := d_eventId row;
                       d_machineId := d_machineId row;
                       d_status := match in_status input with
                                   | delivered => "delivered"
                                   | failed => "failed"
                                   end;
                       d_responseStatus := in_responseStatus input;
                       d_responseBody := in_responseBody input;
                       d_error := in_error input;
                       d_duration := in_duration input |}
               else row) deliveryTable)
  /\ map d_id (snd after) = map d_id deliveryTable
  /\ map d_eventId (snd after) = map d_eventId deliveryTable
  /\ map d_machineId (snd after) = map d_machineId deliveryTable.
Proof.
  intros after. unfold after, reportDelivery.
  destruct (valid_report input); simpl.
  2: { repeat split; try done. by intros [? _]. }
  destruct (findFirst d_id (in_deliveryId input) deliveryTable)
    as [existing|] eqn:Hrow.
  2: { repeat split; try done. by intros (_ & ? & ? & ? & _). }
  destruct (findFirst mr_id (d_machineId existing) machineTable)
    as [m|] eqn:Hm.
  2: { repeat split; try done. intros (_ & ? & ? & [= <-] & ? & _).
       congruence. }
  destruct (String.eqb (mr_userId m) userId) eqn:Howner; simpl.
  - apply String.eqb_eq in Howner.
    split; [|split; [done|split; [|split; [|split]]]].
    + split; [|done]. intros _. split; [done|]. by exists existing, m.
    + intros _. apply map_ext. intros row. unfold reported.
      by destruct (in_status input).
    + rewrite map_map. apply map_ext. intros row.
      by destruct (String.eqb _ _).
    + rewrite map_map. apply map_ext. intros row.
      by destruct (String.eqb _ _).
    + rewrite map_map. apply map_ext. intros row.
      by destruct (String.eqb _ _).
  - apply String.eqb_neq in Howner. repeat split; try done.
    intros (_ & ? & ? & [= <-] & ? & ?). congruence.
Qed.

(** X26: the report the terminal client sends after a local forward is
    never rejected for its response body, which the client cuts at the
    limit the router checks; it passes the router's validation exactly
    when the message of a thrown error, which the client does not cut, has
    at most 2000 characters. *)
Theorem client_report_passes_validation
    (JSON_parse : string -> option Json)
    (url_host : string -> Try string)
    (fetch : string -> RequestInit -> Try FetchResponse)
    (startTime endTime : Z) (destructure_null : string)
    (forwardUrl : string) (webhookMsg : WebhookMessage) :
  let result :=
    forwardWebhookLocally JSON_parse url_host fetch startTime endTime
      destructure_null forwardUrl webhookMsg in
  valid_report (report_input webhookMsg result) = true
  <-> (forall error, fr_error result = Some error ->
         (Z.of_nat (String.length error) <= 2000)%Z).
Proof.
  intros result. unfold valid_report, report_input. cbn [in_responseBody
    in_error]. unfold result, forwardWebhookLocally.
  destruct (send_request _ _ _ _ _ _) as [res|err]; simpl.
  - split; [done|]. intros _. rewrite andb_true_r.
    destruct (res_text res) as [text|]; [|done]. simpl.
    apply Z.leb_le, MachineFacts.truncate_length.
  - split.
    + intros Hle error [= <-]. by apply Z.leb_le.
    + intros Hle. apply Z.leb_le. by apply Hle.
Qed.

End RouterFacts.
